(** * vmcp: result aggregation and MCP tool detection

    A shallow embedding of [src/vmcp/utils/aggregate_results.py] and
    [src/vmcp/utils/tool_detector.py], followed by the properties of the
    two modules.

    Conventions of the embedding:
    - a Python [dict] with string keys is a [gmap string _]; equality of
      maps is Python's [==] on dicts, which does not see the order of
      insertion.  The one place that walks the values of a dict, the
      flattening of the scanners of a file for the summary, computes a
      length, counts and a minimum from them;
    - a value typed [Any] is a [pyval], the image of [json.load];
    - a Python [str] is a [string] of bytes (UTF-8); comparison of
      strings is bytewise, which on UTF-8 is comparison by code point;
    - code that may raise returns a [result]; the per-file detection
      functions, which mutate [self.tools] and catch exceptions, run in
      the state-and-exception monad [M];
    - what the Python standard library does ([json], [re], [pathlib]) is
      either a section variable ([json_load], [json_dump]) or a small
      executable model ([Re], [glob_match], [stem]). *)

Set Warnings "-register-all".
From Stdlib Require Import Floats Ascii String.
From stdpp Require Import gmap strings list fin_maps pretty sorting.

Open Scope string_scope.
Open Scope list_scope.

(** ** Python values, exceptions *)

Module Py.

Inductive pyval : Type :=
| PNone
| PBool (b : bool)
| PInt (z : Z)
| PFloat (f : float)
| PStr (s : string)
| PList (l : list pyval)
| PDict (kvs : list (string * pyval)).

Inductive exn : Type :=
| TypeError
| AttributeError
| JSONDecodeError
| OSError.

Inductive result (A : Type) : Type :=
| Ok (a : A)
| Raise (e : exn).
Arguments Ok {A} a.
Arguments Raise {A} e.

#[global] Instance result_ret : MRet result := λ A a, Ok a.
#[global] Instance result_bind : MBind result :=
  λ A B f m, match m with Ok a => f a | Raise e => Raise e end.

(** [for x in l: acc = f(acc, x)], where the body may raise. *)
Fixpoint foldM {A B} (f : B → A → result B) (l : list A) (b : B) : result B :=
  match l with
  | [] => Ok b
  | x :: l' => b' ← f b x; foldM f l' b'
  end.

(** [bool(v)]. *)
Definition truthy (v : pyval) : bool :=
  match v with
  | PNone => false
  | PBool b => b
  | PInt z => negb (z =? 0)%Z
  | PFloat f => negb (PrimFloat.eqb f 0%float)
  | PStr s => negb (String.eqb s EmptyString)
  | PList l => match l with [] => false | _ => true end
  | PDict kvs => match kvs with [] => false | _ => true end
  end.

(** [hash(v)] raises [TypeError] on lists and dicts. *)
Definition hashable (v : pyval) : bool :=
  match v with
  | PList _ | PDict _ => false
  | _ => true
  end.

(** Looking [key] up in a dict whose keys are all strings: the entry found,
    if any.  A key that is not a string is equal to no key of the dict;
    an unhashable key raises. *)
Definition dict_find {A} (d : gmap string A) (key : pyval)
  : result (option (string * A)) :=
  match key with
  | PStr s => Ok ((λ a, (s, a)) <$> d !! s)
  | PList _ | PDict _ => Raise TypeError
  | _ => Ok None
  end.

(** [d.get(key, dflt)]. *)
Definition dict_get {A} (d : gmap string A) (key : pyval) (dflt : A) : result A :=
  r ← dict_find d key; Ok (default dflt (snd <$> r)).

(** Bytewise [s1 <= s2] on strings. *)
Fixpoint str_leb (s1 s2 : string) : bool :=
  match s1, s2 with
  | EmptyString, _ => true
  | String _ _, EmptyString => false
  | String a s1', String b s2' =>
      if (nat_of_ascii a <? nat_of_ascii b)%nat then true
      else if (nat_of_ascii a =? nat_of_ascii b)%nat then str_leb s1' s2'
      else false
  end.

(** [s.startswith(p)]. *)
Fixpoint starts_with (p s : string) : bool :=
  match p, s with
  | EmptyString, _ => true
  | String a p', String b s' => Ascii.eqb a b && starts_with p' s'
  | String _ _, EmptyString => false
  end.

(** [sub in s]. *)
Fixpoint contains (sub s : string) : bool :=
  starts_with sub s ||
  match s with
  | EmptyString => false
  | String _ s' => contains sub s'
  end.

(** [s[n:]]. *)
Fixpoint drop_str (n : nat) (s : string) : string :=
  match n, s with
  | O, _ => s
  | S n', String _ s' => drop_str n' s'
  | S _, EmptyString => EmptyString
  end.

(** [s.replace(old, '')] for a non-empty [old]: occurrences are removed
    from left to right, without overlap.  [skip] counts the characters of
    an occurrence still to be dropped. *)
Fixpoint remove_all_aux (old : string) (skip : nat) (s : string) : string :=
  match s with
  | EmptyString => EmptyString
  | String c s' =>
      match skip with
      | S k => remove_all_aux old k s'
      | O => if starts_with old s
             then remove_all_aux old (String.length old - 1) s'
             else String c (remove_all_aux old O s')
      end
  end.
Definition remove_all (old s : string) : string := remove_all_aux old 0 s.

(** [s.split(sep, 1)] for a one-character separator. *)
Fixpoint split_once (sep : ascii) (s : string) : list string :=
  match s with
  | EmptyString => [EmptyString]
  | String c s' =>
      if Ascii.eqb c sep then [EmptyString; s']
      else match split_once sep s' with
           | x :: rest => String c x :: rest
           | [] => []
           end
  end.

(** [s.rfind(c)]. *)
Fixpoint rfind_char (c : ascii) (s : string) : option nat :=
  match s with
  | EmptyString => None
  | String x s' =>
      match rfind_char c s' with
      | Some i => Some (S i)
      | None => if Ascii.eqb x c then Some O else None
      end
  end.

(** [PurePath(name).stem]: the name without its last suffix. *)
Definition stem (name : string) : string :=
  match rfind_char "." name with
  | Some i => if (0 <? i)%nat && (i <? String.length name - 1)%nat
              then substring 0 i name else name
  | None => name
  end.

(** [fnmatch] of a name against a pattern made of literal characters and
    [*], as [Path.glob] and [Path.rglob] apply it to a file name. *)
Fixpoint glob_match (pat : string) : string → bool :=
  match pat with
  | EmptyString => λ s, match s with EmptyString => true | _ => false end
  | String p pat' =>
      if Ascii.eqb p "*"
      then fix star (s : string) : bool :=
             glob_match pat' s ||
             match s with
             | EmptyString => false
             | String _ s' => star s'
             end
      else λ s, match s with
                | String c s' => Ascii.eqb c p && glob_match pat' s'
                | EmptyString => false
                end
  end.

Definition LF : string := String (ascii_of_nat 10) EmptyString.
Definition DQ : string := String (ascii_of_nat 34) EmptyString.
Definition SQ : string := "'".

(** [c.isspace()] on ASCII, which is also what [\s] matches there. *)
Definition is_space (c : ascii) : bool :=
  let n := nat_of_ascii c in
  ((9 <=? n) && (n <=? 13) || (28 <=? n) && (n <=? 32))%nat.

(** What [\w] matches on ASCII: letters, digits and the underscore. *)
Definition is_word (c : ascii) : bool :=
  let n := nat_of_ascii c in
  ((48 <=? n) && (n <=? 57) || (65 <=? n) && (n <=? 90) ||
   (97 <=? n) && (n <=? 122) || (n =? 95))%nat.

Fixpoint lstrip (s : string) : string :=
  match s with
  | EmptyString => EmptyString
  | String c s' => if is_space c then lstrip s' else s
  end.

Fixpoint rstrip (s : string) : string :=
  match s with
  | EmptyString => EmptyString
  | String c s' =>
      match rstrip s' with
      | EmptyString => if is_space c then EmptyString else String c EmptyString
      | t => String c t
      end
  end.

(** [s.strip()]. *)
Definition strip (s : string) : string := rstrip (lstrip s).

(** [s.split('\n')[0]]. *)
Fixpoint first_line (s : string) : string :=
  match s with
  | EmptyString => EmptyString
  | String c s' => if Ascii.eqb c (ascii_of_nat 10) then EmptyString
                   else String c (first_line s')
  end.

(** [s.count('\n')]. *)
Fixpoint count_newlines (s : string) : nat :=
  match s with
  | EmptyString => 0
  | String c s' => (if Ascii.eqb c (ascii_of_nat 10) then 1 else 0) + count_newlines s'
  end.

(** [sep.join(l)]. *)
Fixpoint join (sep : string) (l : list string) : string :=
  match l with
  | [] => EmptyString
  | [x] => x
  | x :: l' => x +:+ sep +:+ join sep l'
  end.

(** A stable sort by a boolean [<=] on keys: [list.sort(key=...)] and
    [sorted] are stable, so their result is the one of any stable sort. *)
Section StableSort.
Context {A K : Type} (key : A → K) (leb : K → K → bool).

Fixpoint sort_insert (x : A) (l : list A) : list A :=
  match l with
  | [] => [x]
  | y :: l' => if leb (key x) (key y) then x :: y :: l'
               else y :: sort_insert x l'
  end.

Definition sort_by (l : list A) : list A := foldr sort_insert [] l.
End StableSort.

End Py.
Import Py.

(** ** aggregate_results.py *)

Module Aggregate.

(** A violation record, [dict[str, Any]]. *)
Abbreviation vuln := (gmap string pyval).

Definition SEVERITY_ORDER : gmap string Z :=
  list_to_map
    [("CRITICAL", 0); ("HIGH", 1); ("MEDIUM", 2); ("LOW", 3);
     ("UNKNOWN", 4); ("WARNING", 5); ("NONE", 6)]%Z.

Definition SEVERITY_EMOJI : gmap string string :=
  list_to_map
    [("CRITICAL", "🔴"); ("HIGH", "🔴"); ("MEDIUM", "🟡"); ("LOW", "🟡");
     ("UNKNOWN", "🟡"); ("WARNING", "🟡"); ("NONE", "🟢")].

(** The priority the functions below give a severity value: its entry in
    [SEVERITY_ORDER], and 999 for everything else. *)
Definition rank (severity : pyval) : Z :=
  match severity with
  | PStr s => default 999%Z (SEVERITY_ORDER !! s)
  | _ => 999%Z
  end.

(** [vuln.get('severity', 'UNKNOWN')]. *)
Definition severity_of (v : vuln) : pyval :=
  default (PStr "UNKNOWN") (v !! "severity").

(** The body of the loop of [get_worst_severity], on the pair
    [(worst_severity, worst_priority)]. *)
Definition worst_step (acc : pyval * Z) (v : vuln) : result (pyval * Z) :=
  let severity := severity_of v in
  priority ← dict_get SEVERITY_ORDER severity 999%Z;
  if (priority <? acc.2)%Z then Ok (severity, priority) else Ok acc.

Definition get_worst_severity (vulnerabilities : list vuln) : result pyval :=
  match vulnerabilities with
  | [] => Ok (PStr "NONE")
  | _ =>
      let worst_severity := PStr "NONE" in
      worst_priority ← dict_get SEVERITY_ORDER worst_severity 999%Z;
      acc ← foldM worst_step vulnerabilities (worst_severity, worst_priority);
      Ok acc.1
  end.

(** The body of the loop of [count_by_severity]: [severity in counts],
    then [counts[severity] += 1]. *)
Definition count_step (counts : gmap string nat) (v : vuln)
  : result (gmap string nat) :=
  let severity := severity_of v in
  found ← dict_find counts severity;
  match found with
  | Some (s, n) => Ok (<[s := n + 1]> counts)
  | None => Ok counts
  end.

(** [{'CRITICAL': 0, 'HIGH': 0, 'MEDIUM': 0, 'LOW': 0}]. *)
Definition initial_counts : gmap string nat :=
  list_to_map [("CRITICAL", 0); ("HIGH", 0); ("MEDIUM", 0); ("LOW", 0)].

Definition count_by_severity (vulnerabilities : list vuln)
  : result (gmap string nat) :=
  foldM count_step vulnerabilities initial_counts.

(** [sum(1 for vuln in vulnerabilities if vuln.get('fixed_version'))]. *)
Definition count_fixable (vulnerabilities : list vuln) : nat :=
  length (filter (λ v, truthy (default PNone (v !! "fixed_version")) = true)
                 vulnerabilities).

Definition get_scanners_used {V} (scanners : gmap string V) : string :=
  let scanner_names := sort_by id str_leb (fst <$> map_to_list scanners) in
  match scanner_names with
  | [] => "None"
  | _ => join ", " scanner_names
  end.

(** *** Merging and saving, over a results directory

    The results directory is a map from file name to file content.
    [SCANNER_MAP] lists the keys of [vmcp.orchestrator.SCANNER_MAP] in
    dict order; [json_load] and [json_dump] stand for [json.load] and
    [json.dump(..., indent=2, default=str)] at the type of the per-repo
    file, a mapping from scanner name to [V] (the source types the values
    [Any] and never looks inside them here).  [json_load] is [None] on a
    file that does not decode to such a mapping: a file that is not
    JSON, on which [json.load] raises, and also a file that holds JSON
    that is no object, on which the code fails later, at [.items()] or
    [.values()], or hands on a value that is no mapping.  [load] raises
    for both; what is proved of a result is proved for files that hold
    mappings. *)

Section Store.
Context {V content : Type}.
Variable SCANNER_MAP : list string.
Variable json_load : content → option (gmap string V).
Variable json_dump : gmap string V → content.

Definition per_repo_file (org_name repo_name : string) : string :=
  org_name +:+ "-" +:+ repo_name +:+ "-violations.json".

Definition scanner_file (scanner_name : string) : string :=
  scanner_name +:+ "-violations.json".

Definition TEMP_SCANNER_FILE_NAMES : list string :=
  scanner_file <$> SCANNER_MAP.

(** [with open(p) as f: json.load(f)]. *)
Definition load (c : content) : result (gmap string V) :=
  match json_load c with
  | Some d => Ok d
  | None => Raise JSONDecodeError
  end.

(** [for scanner, vulns in scanner_data.items(): aggregated[scanner] = vulns]. *)
Definition merge_scanner_data (scanner_data aggregated : gmap string V)
  : gmap string V :=
  map_fold (λ scanner vulns agg, <[scanner := vulns]> agg) aggregated scanner_data.

(** One turn of the loop over [SCANNER_MAP.keys()]. *)
Definition merge_scanner_file (dir : gmap string content)
    (aggregated : gmap string V) (scanner_name : string)
  : result (gmap string V) :=
  match dir !! scanner_file scanner_name with
  | Some c =>
      scanner_data ← load c;
      Ok (merge_scanner_data scanner_data aggregated)
  | None => Ok aggregated
  end.

Definition aggregate_results (org_name repo_name : string)
    (dir : gmap string content) : result (gmap string V) :=
  aggregated ← match dir !! per_repo_file org_name repo_name with
               | Some c => load c
               | None => Ok ∅
               end;
  foldM (merge_scanner_file dir) SCANNER_MAP aggregated.

(** The directory after [save_aggregated_results]; what it prints is left
    out. *)
Definition save_aggregated_results (org_name repo_name : string)
    (results : gmap string V) (dir : gmap string content)
  : gmap string content :=
  foldl (λ d scanner_name, delete (scanner_file scanner_name) d)
        (<[per_repo_file org_name repo_name := json_dump results]> dir)
        SCANNER_MAP.

End Store.

(** *** The summary table *)

(** [for scanner_vulns in scanners.values(): all_vulnerabilities.extend(scanner_vulns)];
    the order of the scanners does not show in anything computed from
    the list. *)
Definition flatten_scanners (scanners : gmap string (list vuln)) : list vuln :=
  concat (snd <$> map_to_list scanners).

Record row : Type := mk_row {
  org_repo : string;
  filename : string;
  total : nat;
  severity_counts : gmap string nat;
  fixable : nat;
  scanners : string;
  status : string;
  sort_key : Z * string
}.

(** [<=] on the tuples [(-severity_priority, org_repo)]. *)
Definition key_leb (a b : Z * string) : bool :=
  (a.1 <? b.1)%Z || ((a.1 =? b.1)%Z && str_leb a.2 b.2).

Definition table_header : list string :=
  [ "# Vulnerability Scan Results";
    EmptyString;
    "| Project | Results | Total | Critical | High | Medium | Low | Fixable | Scanners | Status |";
    "|---------|---------|-------|----------|------|--------|-----|---------|----------|--------|" ].

(** One line of the table.  [severity_counts] always has the four keys
    read here (it comes from [count_by_severity]), so the subscripts
    cannot raise. *)
Definition render_row (r : row) : string :=
  let count s := pretty (default 0 (severity_counts r !! s)) in
  let repo_link :=
    "[" +:+ org_repo r +:+ "](https://github.com/" +:+ org_repo r +:+ ")" in
  let violations_link := "[📋](results/" +:+ filename r +:+ ")" in
  "| " +:+ repo_link +:+ " | " +:+ violations_link +:+ " | " +:+
  pretty (total r) +:+ " | " +:+
  count "CRITICAL" +:+ " | " +:+ count "HIGH" +:+ " | " +:+
  count "MEDIUM" +:+ " | " +:+ count "LOW" +:+ " | " +:+
  pretty (fixable r) +:+ " | " +:+ scanners r +:+ " | " +:+ status r +:+ " |".

Section Summary.
Context {content : Type}.
Variable SCANNER_MAP : list string.
Variable json_load : content → option (gmap string (list vuln)).

(** The body of the loop over the files that match the glob: [None] when
    the file is skipped ([continue]), the row appended otherwise. *)
Definition summary_row (name : string) (c : content) : result (option row) :=
  if bool_decide (name ∈ TEMP_SCANNER_FILE_NAMES SCANNER_MAP) then Ok None
  else
    match split_once "-" (remove_all "-violations" (stem name)) with
    | [org_name; repo_name] =>
        let org_repo := org_name +:+ "/" +:+ repo_name in
        scanners ← load json_load c;
        let all_vulnerabilities := flatten_scanners scanners in
        let total_findings := length all_vulnerabilities in
        worst_severity ← get_worst_severity all_vulnerabilities;
        severity_priority ← dict_get SEVERITY_ORDER worst_severity 999%Z;
        status_emoji ← dict_get SEVERITY_EMOJI worst_severity "⚪";
        severity_counts ← count_by_severity all_vulnerabilities;
        let fixable_count := count_fixable all_vulnerabilities in
        let scanners_used := get_scanners_used scanners in
        Ok (Some {| org_repo := org_repo;
                    filename := org_name +:+ "-" +:+ repo_name +:+ "-violations.json";
                    total := total_findings;
                    severity_counts := severity_counts;
                    fixable := fixable_count;
                    scanners := scanners_used;
                    status := status_emoji;
                    sort_key := (- severity_priority, org_repo)%Z |})
    | _ => Ok None
    end.

(** [rows] before the sort.  [entries] are the files of the results
    directory, name and content, in the order in which [glob] yields
    them. *)
Definition collect_rows (entries : list (string * content)) : result (list row) :=
  foldM (λ rows e,
           r ← summary_row e.1 e.2;
           Ok (rows ++ match r with Some x => [x] | None => [] end)%list)
        (filter (λ e, glob_match "*-*-violations.json" e.1 = true) entries)
        [].

(** [rows] after [rows.sort(key=lambda r: r['sort_key'])]. *)
Definition table_rows (entries : list (string * content)) : result (list row) :=
  rows ← collect_rows entries;
  Ok (sort_by sort_key key_leb rows).

Definition generate_summary_table (entries : list (string * content))
  : result string :=
  rows ← table_rows entries;
  Ok (join LF (table_header ++ (render_row <$> rows))%list).

End Summary.

End Aggregate.

(** ** A model of [re]

    A backtracking matcher with Python's priorities: alternatives are
    tried from left to right, a greedy repetition tries one more turn
    before it tries to stop, a lazy one the other way round, and the first
    success is the match.  Characters are bytes, and the classes [\s] and
    [\w] are the ASCII ones: the classification of code points beyond
    ASCII is not modelled. *)

Module Re.

Inductive regex : Type :=
| Chr (p : ascii → bool)
| Eps
| Seq (r1 r2 : regex)
| Alt (r1 r2 : regex)
| Star (greedy : bool) (r : regex)
| Group (n : nat) (r : regex).

Definition caps : Type := list (nat * string).

(** [run r s c k]: match [r] at the head of [s], then go on with [k] on
    what is left; [c] holds the groups closed so far, the latest first. *)
Fixpoint run (r : regex) (s : string) (c : caps)
    (k : string → caps → option (string * caps)) {struct r}
  : option (string * caps) :=
  match r with
  | Chr p =>
      match s with
      | String a s' => if p a then k s' c else None
      | EmptyString => None
      end
  | Eps => k s c
  | Seq r1 r2 => run r1 s c (λ s' c', run r2 s' c' k)
  | Alt r1 r2 =>
      match run r1 s c k with
      | Some x => Some x
      | None => run r2 s c k
      end
  | Star greedy r' =>
      (fix loop (fuel : nat) (s : string) (c : caps) {struct fuel}
         : option (string * caps) :=
         match fuel with
         | O => k s c
         | S fuel' =>
             let again s' c' :=
               if (String.length s' <? String.length s)%nat
               then loop fuel' s' c' else None in
             if greedy then
               match run r' s c again with
               | Some x => Some x
               | None => k s c
               end
             else
               match k s c with
               | Some x => Some x
               | None => run r' s c again
               end
         end) (String.length s) s c
  | Group n r' =>
      run r' s c
        (λ s' c', k s' ((n, substring 0 (String.length s - String.length s') s) :: c'))
  end.

Record rmatch : Type := mk_match {
  m_start : nat;
  m_end : nat;
  m_caps : caps
}.

(** [pattern.match] at offset [pos], where [s] is the text from [pos] on. *)
Definition match_here (r : regex) (pos : nat) (s : string) : option rmatch :=
  match run r s [] (λ s' c, Some (s', c)) with
  | Some (s', c) =>
      Some {| m_start := pos;
              m_end := pos + (String.length s - String.length s');
              m_caps := c |}
  | None => None
  end.

(** The leftmost match at or after [pos]. *)
Fixpoint search_from (r : regex) (pos : nat) (s : string) : option rmatch :=
  match match_here r pos s with
  | Some m => Some m
  | None =>
      match s with
      | EmptyString => None
      | String _ s' => search_from r (S pos) s'
      end
  end.

(** [re.search(r, text)]. *)
Definition search (r : regex) (text : string) : option rmatch :=
  search_from r 0 text.

(** [r.finditer(text)]: the matches from left to right, without overlap.
    After an empty match the scan moves on by one character; no pattern of
    the detector matches the empty string. *)
Fixpoint finditer_from (fuel : nat) (r : regex) (pos : nat) (s : string)
  : list rmatch :=
  match fuel with
  | O => []
  | S fuel' =>
      match search_from r pos s with
      | None => []
      | Some m =>
          let next := if (m_end m =? m_start m)%nat then S (m_end m) else m_end m in
          m :: (if (next - pos <=? String.length s)%nat
                then finditer_from fuel' r next (drop_str (next - pos) s)
                else [])
      end
  end.

Definition finditer (r : regex) (text : string) : list rmatch :=
  finditer_from (S (String.length text)) r 0 text.

(** [m.group(n)]: [None] when the group took no part in the match. *)
Fixpoint group (n : nat) (c : caps) : option string :=
  match c with
  | [] => None
  | (i, v) :: c' => if (i =? n)%nat then Some v else group n c'
  end.

(** [m.group(n)] for a group that takes part in every match. *)
Definition group_str (n : nat) (m : rmatch) : string :=
  default EmptyString (group n (m_caps m)).

(** *** Pattern syntax *)

Fixpoint cat (rs : list regex) : regex :=
  match rs with
  | [] => Eps
  | [r] => r
  | r :: rs' => Seq r (cat rs')
  end.

(** A literal, as [re.escape] would write it. *)
Fixpoint Lit (s : string) : regex :=
  match s with
  | EmptyString => Eps
  | String c EmptyString => Chr (Ascii.eqb c)
  | String c s' => Seq (Chr (Ascii.eqb c)) (Lit s')
  end.

(** [r?], [r*], [r+], [.*?]. *)
Definition Opt (r : regex) : regex := Alt r Eps.
Definition Many (r : regex) : regex := Star true r.
Definition Plus (r : regex) : regex := Seq r (Star true r).

(** [\s], [\w], [.] under [re.DOTALL], [[chars]] and [[^chars]]. *)
Definition ws : regex := Chr is_space.
Definition word : regex := Chr is_word.
Definition any : regex := Chr (λ _, true).
Definition one_of (chars : string) : regex :=
  Chr (λ c, existsb (Ascii.eqb c) (list_ascii_of_string chars)).
Definition none_of (chars : string) : regex :=
  Chr (λ c, negb (existsb (Ascii.eqb c) (list_ascii_of_string chars))).

End Re.

(** ** tool_detector.py *)

Module Detector.
Import Re.

Record MCPTool : Type := mk_tool {
  name : string;
  file_path : string;
  description : string;
  line_number : nat
}.

(** *** The patterns

    In the comments below a pattern of the source is written with [Q] for
    its class of the two quote characters, [NQ] for the complement of that
    class, and [DQ] for one double quote. *)

Definition quote : regex := one_of (DQ +:+ SQ).
Definition quoted (n : nat) : regex :=
  cat [quote; Group n (Plus (none_of (DQ +:+ SQ))); quote].

(** [\(\s*(?:name=Q(NQ+)Q)?\s*\)\s*(?:async\s+)?def\s+(\w+)], the part
    the two Python patterns share; the first starts with
    [@(?:mcp|server)\.tool], the second with [@tool]. *)
Definition python_decorator_tail : regex :=
  cat [Lit "("; Many ws; Opt (Seq (Lit "name=") (quoted 1)); Many ws; Lit ")";
       Many ws; Opt (Seq (Lit "async") (Plus ws)); Lit "def"; Plus ws;
       Group 2 (Plus word)].

Definition PYTHON_TOOL_PATTERNS : list regex :=
  [ cat [Lit "@"; Alt (Lit "mcp") (Lit "server"); Lit ".tool"; python_decorator_tail];
    cat [Lit "@tool"; python_decorator_tail] ].

(** [def\s+(\w+)\s*\([^)]*\)\s*(?:->.*?)?\s*:\s*DQ DQ DQ([^DQ]+)DQ DQ DQ],
    with [re.DOTALL]. *)
Definition docstring_pattern : regex :=
  cat [Lit "def"; Plus ws; Group 1 (Plus word); Many ws; Lit "(";
       Many (none_of ")"); Lit ")"; Many ws;
       Opt (Seq (Lit "->") (Star false any)); Many ws; Lit ":"; Many ws;
       Lit (DQ +:+ DQ +:+ DQ); Group 2 (Plus (none_of DQ)); Lit (DQ +:+ DQ +:+ DQ)].

(** [\)\s*(?:async\s+)?(?:function\s+)?], between the object literal of
    an [@Tool] decorator and the name it decorates. *)
Definition ts_decorator_gap : regex :=
  cat [Lit ")"; Many ws; Opt (Seq (Lit "async") (Plus ws));
       Opt (Seq (Lit "function") (Plus ws))].

Definition TYPESCRIPT_TOOL_PATTERNS : list regex :=
  [ (* @Tool\({[^}]*}\)\s*(?:async\s+)?(?:function\s+)?(\w+) *)
    cat [Lit "@Tool({"; Many (none_of "}"); Lit "}"; ts_decorator_gap;
         Group 1 (Plus word)];
    (* setRequestHandler\s*\(\s*ListToolsRequestSchema[^)]*\)\s*.*?name:\s*Q(NQ+)Q,
       with re.DOTALL *)
    cat [Lit "setRequestHandler"; Many ws; Lit "("; Many ws;
         Lit "ListToolsRequestSchema"; Many (none_of ")"); Lit ")"; Many ws;
         Star false any; Lit "name:"; Many ws; quoted 1] ].

(** The pattern [_detect_typescript_tools] builds for a tool name:
    [@Tool\({[^}]*description:\s*Q(NQ+)Q[^}]*}\)\s*(?:async\s+)?(?:function\s+)?]
    followed by [re.escape(tool_name)]. *)
Definition description_pattern (tool_name : string) : regex :=
  cat [Lit "@Tool({"; Many (none_of "}"); Lit "description:"; Many ws; quoted 1;
       Many (none_of "}"); Lit "}"; ts_decorator_gap; Lit tool_name].

(** *** The repository and the detector's state *)

(** What [read_text] gives on a path: the text, or an exception. *)
Inductive file : Type :=
| ReadOk (content : string)
| ReadFails.

(** A repository: its root, and its paths relative to the root, in the
    order of the directory walk. *)
Record repo : Type := mk_repo {
  repo_path : string;
  files : list (string * file)
}.

(** Computations over [self.tools] that may raise.  An exception leaves
    the list as it was when it was raised. *)
Definition M (A : Type) : Type := list MCPTool → result A * list MCPTool.

#[global] Instance M_ret : MRet M := λ A a tools, (Ok a, tools).
#[global] Instance M_bind : MBind M :=
  λ A B f m tools,
    match m tools with
    | (Ok a, tools') => f a tools'
    | (Raise e, tools') => (Raise e, tools')
    end.

Definition raise {A} (e : exn) : M A := λ tools, (Raise e, tools).
Definition lift {A} (r : result A) : M A := λ tools, (r, tools).
Definition get_tools : M (list MCPTool) := λ tools, (Ok tools, tools).
Definition set_tools (ts : list MCPTool) : M unit := λ _, (Ok (), ts).

(** [self.tools.append(t)]. *)
Definition append_tool (t : MCPTool) : M unit :=
  λ tools, (Ok (), (tools ++ [t])%list).

(** [try: m  except Exception: pass]. *)
Definition try_pass (m : M unit) : M unit :=
  λ tools, (Ok (), (m tools).2).

(** [for x in l: f(x)]. *)
Fixpoint for_each {A} (l : list A) (f : A → M unit) : M unit :=
  match l with
  | [] => mret ()
  | x :: l' => f x ≫= λ _, for_each l' f
  end.

Definition read_text (f : file) : M string :=
  match f with
  | ReadOk content => mret content
  | ReadFails => raise OSError
  end.

(** [content[:m.start()].count('\n') + 1]. *)
Definition line_of (content : string) (m : rmatch) : nat :=
  count_newlines (substring 0 (m_start m) content) + 1.

(** *** Detection in one file

    [path] is the path of the file relative to the root, which is what
    [str(file_path.relative_to(self.repo_path))] gives for a path that
    [rglob] found. *)

Definition python_docstrings (content : string) : gmap string string :=
  foldl (λ docstrings m,
           let func_name := group_str 1 m in
           let docstring := group_str 2 m in
           <[func_name := first_line (strip docstring)]> docstrings)
        ∅ (finditer docstring_pattern content).

Definition python_tools_body (path : string) (f : file) : M unit :=
  content ← read_text f;
  let docstrings := python_docstrings content in
  for_each PYTHON_TOOL_PATTERNS (λ pattern,
    for_each (finditer pattern content) (λ m,
      let groups := [group 1 (m_caps m); group 2 (m_caps m)] in
      let names :=
        match groups with
        | [Some explicit; Some func] =>
            if negb (String.eqb explicit EmptyString) then (explicit, func)
            else (func, func)
        | _ => (group_str 2 m, group_str 2 m)
        end in
      let tool_name := names.1 in
      let func_name := names.2 in
      let line_number := line_of content m in
      let description := default EmptyString (docstrings !! func_name) in
      append_tool {| name := tool_name; file_path := path;
                     description := description; line_number := line_number |})).

Definition _detect_python_tools (path : string) (f : file) : M unit :=
  try_pass (python_tools_body path f).

Definition typescript_tools_body (path : string) (f : file) : M unit :=
  content ← read_text f;
  for_each TYPESCRIPT_TOOL_PATTERNS (λ pattern,
    for_each (finditer pattern content) (λ m,
      let tool_name := group_str 1 m in
      let line_number := line_of content m in
      let description :=
        match search (description_pattern tool_name) content with
        | Some decorator_match => group_str 1 decorator_match
        | None => EmptyString
        end in
      append_tool {| name := tool_name; file_path := path;
                     description := description; line_number := line_number |})).

Definition _detect_typescript_tools (path : string) (f : file) : M unit :=
  try_pass (typescript_tools_body path f).

(** *** The whole repository *)

(** The last component of a path. *)
Definition path_name (path : string) : string :=
  match rfind_char "/" path with
  | Some i => drop_str (S i) path
  | None => path
  end.

(** [self.repo_path.rglob(pat)]. *)
Definition rglob (pat : string) (r : repo) : list (string * file) :=
  filter (λ e, glob_match pat (path_name e.1) = true) (files r).

(** The file at a path relative to the root, when it exists. *)
Fixpoint lookup_path (path : string) (l : list (string * file)) : option file :=
  match l with
  | [] => None
  | (p, f) :: l' => if String.eqb p path then Some f else lookup_path path l'
  end.
Definition lookup_file (path : string) (r : repo) : option file :=
  lookup_path path (files r).

(** [d.get(key, {})] on a decoded JSON object. *)
Fixpoint assoc_get (key : string) (kvs : list (string * pyval)) : pyval :=
  match kvs with
  | [] => PDict []
  | (k, v) :: kvs' => if String.eqb k key then v else assoc_get key kvs'
  end.

Section Repository.
(** [json.loads]. *)
Variable json_loads : string → option pyval.

(** The body of the [try] of [_is_mcp_server] on [package.json]: whether
    it reaches [return True]. *)
Definition package_json_mentions_mcp (f : file) : result bool :=
  match f with
  | ReadFails => Raise OSError
  | ReadOk text =>
      match json_loads text with
      | None => Raise JSONDecodeError
      | Some (PDict data) =>
          match assoc_get "dependencies" data, assoc_get "devDependencies" data with
          | PDict deps, PDict dev_deps =>
              Ok (existsb (λ dep, contains "modelcontextprotocol" dep || contains "mcp" dep)
                          (fst <$> (deps ++ dev_deps)%list))
          | _, _ => Raise TypeError
          end
      | Some _ => Raise AttributeError
      end
  end.

Definition _is_mcp_server (r : repo) : result bool :=
  found ← foldM (λ (found : bool) dep_file,
             if found then Ok true
             else match lookup_file dep_file r with
                  | Some (ReadOk content) =>
                      Ok (contains "mcp" content || contains "fastmcp" content)
                  | Some ReadFails => Raise OSError
                  | None => Ok false
                  end)
          ["requirements.txt"; "pyproject.toml"; "Pipfile"] false;
  if (found : bool) then Ok true
  else match lookup_file "package.json" r with
       | Some f =>
           match package_json_mentions_mcp f with
           | Ok true => Ok true
           | _ => Ok false
           end
       | None => Ok false
       end.

(** The two loops of [detect_tools] over the source files. *)
Definition scan_sources (r : repo) : M unit :=
  set_tools [] ≫= λ _,
  for_each (rglob "*.py" r) (λ e, _detect_python_tools e.1 e.2) ≫= λ _,
  for_each (rglob "*.ts" r ++ rglob "*.tsx" r)%list
           (λ e, _detect_typescript_tools e.1 e.2).

Definition unknown_tool (r : repo) : MCPTool :=
  {| name := "unknown"; file_path := repo_path r;
     description := "MCP server with undetected tools"; line_number := 0 |}.

Definition detect_tools_M (r : repo) : M (list MCPTool) :=
  scan_sources r ≫= λ _,
  tools ← get_tools;
  (match tools with
   | [] => is_server ← lift (_is_mcp_server r);
           if (is_server : bool) then append_tool (unknown_tool r) else mret ()
   | _ => mret ()
   end) ≫= λ _,
  get_tools.

(** [ToolDetector(repo).detect_tools()], on a fresh detector. *)
Definition detect_tools (r : repo) : result (list MCPTool) :=
  (detect_tools_M r []).1.

End Repository.

(** The repository without the paths that cannot be read. *)
Definition readable (f : file) : bool :=
  match f with
  | ReadOk _ => true
  | ReadFails => false
  end.

Definition readable_only (r : repo) : repo :=
  {| repo_path := repo_path r;
     files := filter (λ e, readable e.2 = true) (files r) |}.

(** [get_tools_by_file]. *)
Definition get_tools_by_file (tools : list MCPTool) : gmap string (list MCPTool) :=
  foldl (λ by_file tool,
           <[file_path tool := (default [] (by_file !! file_path tool) ++ [tool])%list]> by_file)
        ∅ tools.

End Detector.


(** ** Concrete inputs *)

Module Examples.
Import Aggregate Detector.

Definition critical_finding : vuln :=
  {[ "id" := PStr "CVE-2024-0001"; "severity" := PStr "CRITICAL" ]}.
Definition low_finding : vuln :=
  {[ "id" := PStr "CVE-2023-0007"; "severity" := PStr "LOW";
     "fixed_version" := PStr "2.1.0" ]}.
Definition high_finding : vuln :=
  {[ "id" := PStr "GHSA-0042"; "severity" := PStr "HIGH" ]}.

(** A scanner registry with a name that has a hyphen in it. *)
Definition scanner_names : list string := ["trivy"; "osv-scanner"].

(** Directories whose files hold their decoded content: [json.load] is
    [Some] and [json.dump] the identity. *)
Definition results_dir : gmap string (gmap string (list vuln)) :=
  {[ "acme-api-violations.json" := {[ "trivy" := [low_finding; low_finding] ]};
     "trivy-violations.json" := {[ "trivy" := [critical_finding] ]};
     "osv-scanner-violations.json" := {[ "osv-scanner" := [] ]} ]}.

Definition scan_results : gmap string (list vuln) :=
  {[ "trivy" := [critical_finding] ]}.

Definition summary_entries : list (string * gmap string (list vuln)) :=
  [ ("acme-api-violations.json", {[ "trivy" := [low_finding; critical_finding] ]});
    ("osv-scanner-violations.json", {[ "osv-scanner" := [] ]});
    ("zeta-lib-violations.json", ∅);
    ("beta-svc-violations.json", {[ "trivy" := [high_finding] ]});
    ("acme-web-violations.json", {[ "trivy" := [] ]}) ].

Definition summary_rows : list row :=
  [ {| org_repo := "acme/web"; filename := "acme-web-violations.json";
       total := 0; severity_counts := initial_counts; fixable := 0;
       scanners := "trivy"; status := "🟢"; sort_key := (-6, "acme/web")%Z |};
    {| org_repo := "zeta/lib"; filename := "zeta-lib-violations.json";
       total := 0; severity_counts := initial_counts; fixable := 0;
       scanners := "None"; status := "🟢"; sort_key := (-6, "zeta/lib")%Z |};
    {| org_repo := "beta/svc"; filename := "beta-svc-violations.json";
       total := 1;
       severity_counts := <["HIGH" := 1]> initial_counts;
       fixable := 0;
       scanners := "trivy"; status := "🔴"; sort_key := (-1, "beta/svc")%Z |};
    {| org_repo := "acme/api"; filename := "acme-api-violations.json";
       total := 2;
       severity_counts := <["CRITICAL" := 1]> (<["LOW" := 1]> initial_counts);
       fixable := 1;
       scanners := "trivy"; status := "🔴"; sort_key := (0, "acme/api")%Z |} ].

(** Source files, with [DQ] the double quote and [LF] the line feed. *)

(** [@mcp.tool(name=DQ foo DQ) LF def bar(): DQ DQ DQ Does X. DQ DQ DQ] *)
Definition explicit_name_source : string :=
  "@mcp.tool(name=" +:+ DQ +:+ "foo" +:+ DQ +:+ ")" +:+ LF +:+
  "def bar(): " +:+ DQ +:+ DQ +:+ DQ +:+ "Does X." +:+ DQ +:+ DQ +:+ DQ.

(** [@tool() LF def baz(): pass] *)
Definition bare_tool_source : string :=
  "@tool()" +:+ LF +:+ "def baz(): pass".

(** [@Tool({ name: DQ t1 DQ, description: DQ desc DQ }) function t1() {}] *)
Definition decorator_source : string :=
  "@Tool({ name: " +:+ DQ +:+ "t1" +:+ DQ +:+ ", description: " +:+ DQ +:+
  "desc" +:+ DQ +:+ " }) function t1() {}".

(** Two decorated methods, the second without a description:
    [@Tool({ description: DQ List all items DQ }) LF getAll() {} LF
     @Tool({ name: DQ get DQ }) LF get() {}] *)
Definition two_decorators_source : string :=
  "@Tool({ description: " +:+ DQ +:+ "List all items" +:+ DQ +:+ " })" +:+ LF +:+
  "getAll() {}" +:+ LF +:+
  "@Tool({ name: " +:+ DQ +:+ "get" +:+ DQ +:+ " })" +:+ LF +:+
  "get() {}".

(** A repository with no source file and a requirements file. *)
Definition manifest_only_repo : repo :=
  {| repo_path := "/work/server";
     files := [ ("README.md", ReadOk "An MCP server");
                ("requirements.txt", ReadOk "fastmcp>=2.0") ] |}.

(** A repository with no source file and a package.json that depends on
    the SDK of the protocol:
    [{DQ dependencies DQ: {DQ @modelcontextprotocol/sdk DQ: DQ ^1.0.0 DQ}}],
    with what [json.loads] makes of it. *)
Definition package_json_text : string :=
  "{" +:+ DQ +:+ "dependencies" +:+ DQ +:+ ": {" +:+ DQ +:+
  "@modelcontextprotocol/sdk" +:+ DQ +:+ ": " +:+ DQ +:+ "^1.0.0" +:+ DQ +:+ "}}".

Definition decode_package_json (text : string) : option pyval :=
  if String.eqb text package_json_text
  then Some (PDict [("dependencies",
                     PDict [("@modelcontextprotocol/sdk", PStr "^1.0.0")])])
  else None.

Definition package_only_repo : repo :=
  {| repo_path := "/work/ts-server";
     files := [ ("README.md", ReadOk "A server");
                ("package.json", ReadOk package_json_text) ] |}.

End Examples.

(** ** Vocabulary of the further properties *)

Module Vocabulary.
Import Aggregate Detector.

(** The record has the string [s] as its severity. *)
Definition has_severity (s : string) (v : vuln) : bool :=
  match severity_of v with
  | PStr t => String.eqb t s
  | _ => false
  end.

(** The number of records of severity [s]. *)
Definition count_severity (s : string) (l : list vuln) : nat :=
  length (filter (λ v, has_severity s v = true) l).

(** The four severities that have a column in the table. *)
Definition counted_severities : list string :=
  ["CRITICAL"; "HIGH"; "MEDIUM"; "LOW"].

(** A list of findings with a severity that cannot be hashed. *)
Definition unhashable_findings : list vuln :=
  [ {[ "severity" := PStr "HIGH" ]};
    {[ "severity" := PList [PStr "HIGH"; PStr "LOW"] ]} ].

Definition mixed_findings : list vuln :=
  [ {[ "severity" := PStr "LOW" ]}; {[ "severity" := PStr "INFO" ]};
    {[ "id" := PStr "GHSA-1" ]}; {[ "severity" := PStr "HIGH" ]};
    {[ "severity" := PStr "LOW"; "fixed_version" := PStr "1.0.1" ]} ].

(** The file of a repository with two findings, and its row. *)
Definition api_scanners : gmap string (list vuln) :=
  {[ "trivy" := [Examples.low_finding; Examples.critical_finding] ]}.

Definition api_row : row :=
  {| org_repo := "acme/api"; filename := "acme-api-violations.json";
     total := 2;
     severity_counts := <["CRITICAL" := 1]> (<["LOW" := 1]> initial_counts);
     fixable := 1;
     scanners := "trivy"; status := "🔴"; sort_key := (0, "acme/api")%Z |}.

(** A directory after a new run of one scanner out of two. *)
Definition rescan_dir : gmap string (gmap string (list vuln)) :=
  {[ "acme-api-violations.json" :=
       {[ "trivy" := [Examples.low_finding];
          "osv-scanner" := [Examples.low_finding; Examples.low_finding] ]};
     "trivy-violations.json" := {[ "trivy" := [Examples.critical_finding] ]} ]}.

(** The Python manifests [_is_mcp_server] reads, in its order. *)
Definition python_manifests : list string :=
  ["requirements.txt"; "pyproject.toml"; "Pipfile"].

(** Three readings of a pattern: it matches no empty text; each of its
    groups encloses a pattern that matches no empty text; every match of
    it goes through group [n]. *)
Fixpoint nonnull (r : Re.regex) : bool :=
  match r with
  | Re.Chr _ => true
  | Re.Eps => false
  | Re.Seq r1 r2 => nonnull r1 || nonnull r2
  | Re.Alt r1 r2 => nonnull r1 && nonnull r2
  | Re.Star _ _ => false
  | Re.Group _ r' => nonnull r'
  end.

Fixpoint groups_nonnull (r : Re.regex) : bool :=
  match r with
  | Re.Chr _ | Re.Eps => true
  | Re.Seq r1 r2 | Re.Alt r1 r2 => groups_nonnull r1 && groups_nonnull r2
  | Re.Star _ r' => groups_nonnull r'
  | Re.Group _ r' => nonnull r' && groups_nonnull r'
  end.

Fixpoint always_sets (n : nat) (r : Re.regex) : bool :=
  match r with
  | Re.Chr _ | Re.Eps | Re.Star _ _ => false
  | Re.Seq r1 r2 => always_sets n r1 || always_sets n r2
  | Re.Alt r1 r2 => always_sets n r1 && always_sets n r2
  | Re.Group m r' => (m =? n)%nat || always_sets n r'
  end.

(** The loop of [Re.run] on a starred pattern, by itself. *)
Section StarLoop.
Variables (greedy : bool) (r : Re.regex)
          (k : string → Re.caps → option (string * Re.caps)).

Fixpoint star_loop (fuel : nat) (s : string) (c : Re.caps) {struct fuel}
  : option (string * Re.caps) :=
  match fuel with
  | O => k s c
  | S fuel' =>
      let again s' c' :=
        if (String.length s' <? String.length s)%nat
        then star_loop fuel' s' c' else None in
      if greedy then
        match Re.run r s c again with
        | Some x => Some x
        | None => k s c
        end
      else
        match k s c with
        | Some x => Some x
        | None => Re.run r s c again
        end
  end.

End StarLoop.

(** Group [n] took part in the match, on a text that is not empty. *)
Definition group_set (n : nat) (c : Re.caps) : Prop :=
  ∃ v, Re.group n c = Some v ∧ v ≠ EmptyString.

End Vocabulary.

(** * Properties *)

Import Aggregate.

(** ** Severities *)

(** Case analysis on a membership in a list written out. *)
Ltac in_cases H :=
  repeat (apply elem_of_cons in H as [H|H]; [simplify_eq|]);
  try (by apply elem_of_nil in H).

Section SeverityFacts.

Lemma severity_order_inv (s : string) (p : Z) :
  SEVERITY_ORDER !! s = Some p →
  (s, p) ∈ [("CRITICAL", 0); ("HIGH", 1); ("MEDIUM", 2); ("LOW", 3);
            ("UNKNOWN", 4); ("WARNING", 5); ("NONE", 6)]%Z.
Proof. unfold SEVERITY_ORDER. apply elem_of_list_to_map_2. Qed.

Lemma rank_bounds (x : pyval) : (0 ≤ rank x ≤ 6 ∨ rank x = 999)%Z.
Proof.
  destruct x; simpl; auto.
  destruct (SEVERITY_ORDER !! s) as [p|] eqn:E; simpl; auto.
  apply severity_order_inv in E. left. in_cases E; lia.
Qed.

(** Two values of the same recognized priority are the same value. *)
Lemma rank_inj (x y : pyval) :
  (rank x ≤ 6)%Z → rank x = rank y → x = y.
Proof.
  intros Hx Hxy.
  assert (Hy : (rank y ≤ 6)%Z) by lia.
  destruct x as [| | | |s| |]; simpl in Hx; try lia.
  destruct y as [| | | |t| |]; simpl in Hy; try lia.
  simpl in Hxy.
  destruct (SEVERITY_ORDER !! s) as [p|] eqn:Es; simpl in *; [|lia].
  destruct (SEVERITY_ORDER !! t) as [q|] eqn:Et; simpl in *; [|lia].
  subst q.
  apply severity_order_inv in Es, Et.
  f_equal. in_cases Es; in_cases Et; done.
Qed.

Lemma dict_get_rank (x : pyval) :
  hashable x = true → dict_get SEVERITY_ORDER x 999%Z = Ok (rank x).
Proof.
  destruct x; simpl; intros H; try done.
  unfold dict_get; simpl. by destruct (SEVERITY_ORDER !! s).
Qed.

Lemma dict_get_unhashable {A} (d : gmap string A) (x : pyval) (dflt : A) :
  hashable x = false → dict_get d x dflt = Raise TypeError.
Proof. by destruct x. Qed.

Lemma worst_step_hashable (acc : pyval * Z) (v : vuln) :
  hashable (severity_of v) = true →
  worst_step acc v =
    Ok (if (rank (severity_of v) <? acc.2)%Z
        then (severity_of v, rank (severity_of v)) else acc).
Proof.
  intros Hv. unfold worst_step. rewrite (dict_get_rank _ Hv). simpl.
  by destruct (_ <? _)%Z.
Qed.

Lemma worst_step_unhashable (acc : pyval * Z) (v : vuln) :
  hashable (severity_of v) = false → worst_step acc v = Raise TypeError.
Proof.
  intros Hv. unfold worst_step. by rewrite (dict_get_unhashable _ _ _ Hv).
Qed.

(** The loop of [get_worst_severity], from any state it can be in. *)
Lemma worst_loop (l : list vuln) (sev0 : pyval) :
  Forall (λ v, hashable (severity_of v) = true) l →
  ∃ sev, foldM worst_step l (sev0, rank sev0) = Ok (sev, rank sev) ∧
         (rank sev ≤ rank sev0)%Z ∧
         (∀ u, u ∈ l → (rank sev ≤ rank (severity_of u))%Z) ∧
         (sev = sev0 ∨ ∃ w, w ∈ l ∧ severity_of w = sev).
Proof.
  intros Hh. revert sev0.
  induction Hh as [|v l Hv Hl IH]; intros sev0; simpl.
  - exists sev0. split_and!; [done|lia|set_solver|by left].
  - rewrite (worst_step_hashable _ _ Hv). simpl.
    destruct (rank (severity_of v) <? rank sev0)%Z eqn:E; simpl.
    + apply Z.ltb_lt in E.
      destruct (IH (severity_of v)) as (sev & Hf & Hle & Hmin & Hor).
      exists sev. split_and!; [done|lia| |].
      * intros u [->|Hu]%elem_of_cons; [lia|auto].
      * right. destruct Hor as [->|(w & Hw & Hs)].
        -- exists v. split; [left|done].
        -- exists w. split; [by right|done].
    + apply Z.ltb_ge in E.
      destruct (IH sev0) as (sev & Hf & Hle & Hmin & Hor).
      exists sev. split_and!; [done|lia| |].
      * intros u [->|Hu]%elem_of_cons; [lia|auto].
      * destruct Hor as [->|(w & Hw & Hs)]; [by left|].
        right. exists w. split; [by right|done].
Qed.

Lemma worst_loop_raises (l : list vuln) (acc : pyval * Z) :
  Exists (λ v, hashable (severity_of v) = false) l →
  foldM worst_step l acc = Raise TypeError.
Proof.
  intros Hex. revert acc.
  induction l as [|v l IH]; intros acc; [by apply Exists_nil in Hex|].
  simpl. destruct (hashable (severity_of v)) eqn:Hv.
  - rewrite (worst_step_hashable _ _ Hv). simpl.
    apply Exists_cons in Hex as [Hex|Hex]; [congruence|]. by apply IH.
  - by rewrite (worst_step_unhashable _ _ Hv).
Qed.

Lemma foldM_app {A B} (f : B → A → result B) (l1 l2 : list A) (b : B) :
  foldM f (l1 ++ l2) b = foldM f l1 b ≫= foldM f l2.
Proof.
  revert b. induction l1 as [|x l1 IH]; intros b; simpl; [done|].
  destruct (f b x); simpl; [apply IH|done].
Qed.

Lemma foldM_ext_in {A B} (f g : B → A → result B) (l : list A) (b : B) :
  (∀ x b', x ∈ l → f b' x = g b' x) → foldM f l b = foldM g l b.
Proof.
  revert b. induction l as [|x l IH]; intros b Hfg; simpl; [done|].
  rewrite Hfg by left. destruct (g b x); simpl; [|done].
  apply IH. intros y b' Hy. apply Hfg. by right.
Qed.

(** Both loops look at a record through [severity_of] only. *)
Lemma worst_step_severity (acc : pyval * Z) (v v' : vuln) :
  severity_of v = severity_of v' → worst_step acc v = worst_step acc v'.
Proof. unfold worst_step. by intros ->. Qed.

Lemma count_step_severity (counts : gmap string nat) (v v' : vuln) :
  severity_of v = severity_of v' → count_step counts v = count_step counts v'.
Proof. unfold count_step. by intros ->. Qed.

Lemma get_worst_severity_replace (l1 l2 : list vuln) (v v' : vuln) :
  severity_of v = severity_of v' →
  get_worst_severity (l1 ++ v :: l2) = get_worst_severity (l1 ++ v' :: l2).
Proof.
  intros Hs. unfold get_worst_severity.
  destruct l1 as [|x l1]; simpl.
  - by rewrite (worst_step_severity _ v v' Hs).
  - destruct (worst_step _ x) as [acc|]; simpl; [|done].
    rewrite !foldM_app. destruct (foldM worst_step l1 acc); simpl; [|done].
    by rewrite (worst_step_severity _ v v' Hs).
Qed.

Lemma count_by_severity_replace (l1 l2 : list vuln) (v v' : vuln) :
  severity_of v = severity_of v' →
  count_by_severity (l1 ++ v :: l2) = count_by_severity (l1 ++ v' :: l2).
Proof.
  intros Hs. unfold count_by_severity. rewrite !foldM_app.
  destruct (foldM count_step l1 _); simpl; [|done].
  by rewrite (count_step_severity _ v v' Hs).
Qed.

(** The keys of [counts] never change. *)
Lemma count_step_dom (counts counts' : gmap string nat) (v : vuln) :
  count_step counts v = Ok counts' → dom counts' = dom counts.
Proof.
  unfold count_step. destruct (severity_of v); simpl; try congruence.
  destruct (counts !! s) as [n|] eqn:E; simpl; intros [= <-]; [|done].
  rewrite dom_insert_L. apply elem_of_dom_2 in E.
  apply subseteq_union_1_L. by apply singleton_subseteq_l.
Qed.

Lemma count_loop_dom (l : list vuln) (counts counts' : gmap string nat) :
  foldM count_step l counts = Ok counts' → dom counts' = dom counts.
Proof.
  revert counts. induction l as [|v l IH]; intros counts; simpl.
  - by intros [= <-].
  - destruct (count_step counts v) as [c|] eqn:E; simpl; [|done].
    intros H. rewrite (IH _ H). by apply count_step_dom in E.
Qed.

Lemma count_step_unknown (counts : gmap string nat) (v : vuln) :
  dom counts = dom initial_counts →
  severity_of v = PStr "UNKNOWN" → count_step counts v = Ok counts.
Proof.
  intros Hdom Hs. unfold count_step. rewrite Hs. simpl.
  assert (counts !! "UNKNOWN" = None) as ->; [|done].
  apply not_elem_of_dom. rewrite Hdom. by vm_compute.
Qed.

Lemma foldM_cons {A B} (f : B → A → result B) (x : A) (l : list A) (b : B) :
  foldM f (x :: l) b = f b x ≫= foldM f l.
Proof. reflexivity. Qed.

Lemma get_worst_severity_cons (v : vuln) (l : list vuln) :
  get_worst_severity (v :: l) =
    foldM worst_step (v :: l) (PStr "NONE", 6%Z) ≫= λ acc, Ok acc.1.
Proof. reflexivity. Qed.

Lemma worst_step_unknown (sev : pyval) (p : Z) (v : vuln) :
  severity_of v = PStr "UNKNOWN" →
  worst_step (sev, p) v = Ok (if (4 <? p)%Z then (PStr "UNKNOWN", 4%Z) else (sev, p)).
Proof.
  intros Hs. rewrite worst_step_hashable by (by rewrite Hs). by rewrite Hs.
Qed.

Lemma severity_of_missing (v : vuln) :
  v !! "severity" = None → severity_of v = PStr "UNKNOWN".
Proof. unfold severity_of. by intros ->. Qed.

End SeverityFacts.

(** C1, as stated, fails: for a list whose only severity is not one of the
    seven names, [get_worst_severity] returns the string NONE, which is the
    severity of no record of the list. *)
Lemma worst_severity_unrecognized_counterexample :
  let vulns : list vuln := [ {[ "severity" := PStr "INFO" ]} ] in
  get_worst_severity vulns = Ok (PStr "NONE") ∧
  ¬ (∃ v, v ∈ vulns ∧ get_worst_severity vulns = Ok (severity_of v)).
Proof.
  split; [by vm_compute|].
  intros (v & Hv & Hs). apply list_elem_of_singleton in Hv. subst v.
  vm_compute in Hs. discriminate Hs.
Qed.

(** C1, amended: when every severity value is hashable,
    [get_worst_severity] returns a recognized severity [sev] (priority at
    most 6) that no severity of the list precedes in the order CRITICAL,
    HIGH, MEDIUM, LOW, UNKNOWN, WARNING, NONE, where a record without the
    key counts as UNKNOWN and a value outside the order has priority 999,
    behind all seven.  [sev] is the severity of a record of the list,
    except that for a list with no recognized severity at all (the empty
    list among them) it is NONE. *)
Theorem get_worst_severity_first_recognized (vulns : list vuln) :
  Forall (λ v, hashable (severity_of v) = true) vulns →
  ∃ sev, get_worst_severity vulns = Ok sev ∧
         (rank sev ≤ 6)%Z ∧
         (∀ u, u ∈ vulns → (rank sev ≤ rank (severity_of u))%Z) ∧
         ((∃ w, w ∈ vulns ∧ severity_of w = sev) ∨
          (sev = PStr "NONE" ∧ ∀ u, u ∈ vulns → rank (severity_of u) = 999%Z)).
Proof.
  intros Hh.
  destruct (worst_loop vulns (PStr "NONE") Hh) as (sev & Hf & Hle & Hmin & Hor).
  change (rank (PStr "NONE")) with 6%Z in Hf, Hle.
  exists sev. split_and!; [|done|done|].
  - destruct vulns as [|v l].
    + simpl in Hf. by injection Hf as <-.
    + by rewrite get_worst_severity_cons, Hf.
  - destruct Hor as [->|Hw]; [|by left].
    destruct (decide (Exists (λ u : vuln, rank (severity_of u) = 6%Z) vulns))
      as [Hex|Hnex].
    + left. apply Exists_exists in Hex as (w & Hw & Hr).
      exists w. split; [done|].
      symmetry. apply rank_inj; [done|]. by rewrite Hr.
    + right. split; [done|]. intros u Hu.
      specialize (Hmin u Hu). change (rank (PStr "NONE")) with 6%Z in Hmin.
      destruct (rank_bounds (severity_of u)) as [Hb|Hb]; [|done].
      exfalso. apply Hnex, Exists_exists. exists u.
      split; [done|lia].
Qed.

Lemma get_worst_severity_first_recognized_witness :
  let vulns : list vuln :=
    [ {[ "severity" := PStr "LOW" ]}; {[ "severity" := PStr "INFO" ]};
      {[ "id" := PStr "GHSA-1" ]}; {[ "severity" := PStr "HIGH" ]} ] in
  Forall (λ v, hashable (severity_of v) = true) vulns ∧
  ∃ sev, get_worst_severity vulns = Ok sev ∧
         (rank sev ≤ 6)%Z ∧
         (∀ u, u ∈ vulns → (rank sev ≤ rank (severity_of u))%Z) ∧
         ((∃ w, w ∈ vulns ∧ severity_of w = sev) ∨
          (sev = PStr "NONE" ∧ ∀ u, u ∈ vulns → rank (severity_of u) = 999%Z)).
Proof.
  assert (H : Forall (λ v : vuln, hashable (severity_of v) = true)
                [ {[ "severity" := PStr "LOW" ]}; {[ "severity" := PStr "INFO" ]};
                  {[ "id" := PStr "GHSA-1" ]}; {[ "severity" := PStr "HIGH" ]} ]).
  { repeat constructor. }
  split; [exact H|]. exact (get_worst_severity_first_recognized _ H).
Defined.

(** C10: a record without the key severity is to both functions a record
    of severity UNKNOWN.  Anywhere in a list it can be replaced by a copy
    that carries the key with the value UNKNOWN without changing what
    [get_worst_severity] and [count_by_severity] return; it adds nothing
    to the four counts; and a non-empty list of such records has worst
    severity UNKNOWN and all four counts at zero. *)
Theorem missing_severity_is_unknown (v : vuln) :
  v !! "severity" = None →
  severity_of v = PStr "UNKNOWN" ∧
  (∀ l1 l2,
     get_worst_severity (l1 ++ v :: l2) =
       get_worst_severity (l1 ++ <["severity" := PStr "UNKNOWN"]> v :: l2) ∧
     count_by_severity (l1 ++ v :: l2) =
       count_by_severity (l1 ++ <["severity" := PStr "UNKNOWN"]> v :: l2) ∧
     count_by_severity (l1 ++ v :: l2) = count_by_severity (l1 ++ l2)) ∧
  (∀ rest, Forall (λ u : vuln, u !! "severity" = None) rest →
     get_worst_severity (v :: rest) = Ok (PStr "UNKNOWN") ∧
     count_by_severity (v :: rest) = Ok initial_counts).
Proof.
  intros Hv. pose proof (severity_of_missing v Hv) as Hs.
  split_and!; [done| |].
  - intros l1 l2.
    assert (Hs' : severity_of v = severity_of (<["severity" := PStr "UNKNOWN"]> v)).
    { rewrite Hs. unfold severity_of. by rewrite lookup_insert_eq. }
    split_and!.
    + by apply get_worst_severity_replace.
    + by apply count_by_severity_replace.
    + unfold count_by_severity. rewrite !foldM_app.
      destruct (foldM count_step l1 initial_counts) as [c|] eqn:E; simpl; [|done].
      apply count_loop_dom in E. by rewrite (count_step_unknown c v E Hs).
  - intros rest Hrest. split.
    + rewrite get_worst_severity_cons, foldM_cons, (worst_step_unknown _ _ v Hs).
      change (4 <? 6)%Z with true. cbn [mbind result_bind].
      assert (foldM worst_step rest (PStr "UNKNOWN", 4%Z)
              = Ok (PStr "UNKNOWN", 4%Z)) as ->; [|done].
      induction Hrest as [|u rest Hu _ IH]; [done|].
      rewrite foldM_cons, (worst_step_unknown _ _ u (severity_of_missing u Hu)).
      exact IH.
    + unfold count_by_severity.
      induction (Forall_cons_2 _ _ _ Hv Hrest) as [|u l Hu _ IH]; [done|].
      simpl. by rewrite (count_step_unknown _ u eq_refl (severity_of_missing u Hu)).
Qed.

Lemma missing_severity_is_unknown_witness :
  let v : vuln := {[ "id" := PStr "GHSA-1"; "fixed_version" := PStr "1.2.3" ]} in
  v !! "severity" = None ∧
  get_worst_severity [v; v] = Ok (PStr "UNKNOWN") ∧
  count_by_severity [v; v] = Ok initial_counts.
Proof.
  assert (H : ({[ "id" := PStr "GHSA-1"; "fixed_version" := PStr "1.2.3" ]} : vuln)
                !! "severity" = None) by reflexivity.
  split; [exact H|].
  apply (missing_severity_is_unknown _ H).
  constructor; [exact H|constructor].
Defined.

(** ** Order of strings and of sort keys *)

Section OrderFacts.

Lemma str_leb_refl (s : string) : str_leb s s = true.
Proof.
  induction s as [|a s IH]; simpl; [done|].
  by rewrite Nat.ltb_irrefl, Nat.eqb_refl.
Qed.

Lemma str_leb_total (s t : string) : str_leb s t = true ∨ str_leb t s = true.
Proof.
  revert t. induction s as [|a s IH]; intros [|b t]; simpl; auto.
  destruct (Nat.ltb_spec (nat_of_ascii a) (nat_of_ascii b)); [by left|].
  destruct (Nat.ltb_spec (nat_of_ascii b) (nat_of_ascii a)); [by right|].
  assert (E : nat_of_ascii a = nat_of_ascii b) by lia.
  rewrite E, Nat.eqb_refl. apply IH.
Qed.

Lemma str_leb_trans (s t u : string) :
  str_leb s t = true → str_leb t u = true → str_leb s u = true.
Proof.
  revert t u. induction s as [|a s IH]; intros [|b t] [|c u]; simpl; try done.
  destruct (Nat.ltb_spec (nat_of_ascii a) (nat_of_ascii b)) as [Hab|Hab];
    destruct (Nat.ltb_spec (nat_of_ascii b) (nat_of_ascii c)) as [Hbc|Hbc];
    destruct (Nat.ltb_spec (nat_of_ascii a) (nat_of_ascii c)) as [Hac|Hac];
    try done; try lia.
  - destruct (Nat.eqb_spec (nat_of_ascii b) (nat_of_ascii c)); [lia|done].
  - destruct (Nat.eqb_spec (nat_of_ascii a) (nat_of_ascii b)); [lia|done].
  - destruct (Nat.eqb_spec (nat_of_ascii a) (nat_of_ascii b)) as [E1|]; [|done].
    destruct (Nat.eqb_spec (nat_of_ascii b) (nat_of_ascii c)) as [E2|]; [|done].
    rewrite E1, E2, Nat.eqb_refl. apply IH.
Qed.

Lemma str_leb_antisym (s t : string) :
  str_leb s t = true → str_leb t s = true → s = t.
Proof.
  revert t. induction s as [|a s IH]; intros [|b t]; simpl; try done.
  destruct (Nat.ltb_spec (nat_of_ascii a) (nat_of_ascii b)) as [Hab|Hab];
    destruct (Nat.ltb_spec (nat_of_ascii b) (nat_of_ascii a)) as [Hba|Hba];
    try lia.
  - destruct (Nat.eqb_spec (nat_of_ascii b) (nat_of_ascii a)); [lia|done].
  - destruct (Nat.eqb_spec (nat_of_ascii a) (nat_of_ascii b)); [lia|done].
  - assert (E : nat_of_ascii a = nat_of_ascii b) by lia.
    rewrite E, Nat.eqb_refl. intros H1 H2. f_equal; [|by apply IH].
    by rewrite <- (ascii_nat_embedding a), E, ascii_nat_embedding.
Qed.

Lemma key_leb_total (a b : Z * string) : key_leb a b = true ∨ key_leb b a = true.
Proof.
  unfold key_leb. destruct a as [x s], b as [y t]; simpl.
  destruct (Z.ltb_spec x y); [by left|].
  destruct (Z.ltb_spec y x); [by right|].
  assert (x = y) as -> by lia. rewrite Z.eqb_refl. simpl. apply str_leb_total.
Qed.

Lemma key_leb_trans (a b c : Z * string) :
  key_leb a b = true → key_leb b c = true → key_leb a c = true.
Proof.
  unfold key_leb. destruct a as [x s], b as [y t], c as [z u]; simpl.
  rewrite !orb_true_iff, !andb_true_iff, !Z.ltb_lt, !Z.eqb_eq.
  intros [?|[-> H1]] [?|[-> H2]]; [left; lia|by left|by left|right].
  split; [done|]. by apply (str_leb_trans s t u).
Qed.

End OrderFacts.

(** ** The stable sort *)

Section SortFacts.
Context {A K : Type} (key : A → K) (leb : K → K → bool).
Hypothesis leb_total : ∀ a b, leb a b = true ∨ leb b a = true.
Hypothesis leb_trans : ∀ a b c, leb a b = true → leb b c = true → leb a c = true.

Let R (x y : A) : Prop := leb (key x) (key y) = true.

Lemma sort_insert_perm (x : A) (l : list A) : sort_insert key leb x l ≡ₚ x :: l.
Proof.
  induction l as [|y l IH]; simpl; [done|].
  destruct (leb (key x) (key y)); [done|].
  rewrite IH. apply Permutation_swap.
Qed.

Lemma sort_by_perm (l : list A) : sort_by key leb l ≡ₚ l.
Proof.
  induction l as [|x l IH]; simpl; [done|].
  unfold sort_by in IH. by rewrite sort_insert_perm, IH.
Qed.

Lemma sort_insert_sorted (x : A) (l : list A) :
  StronglySorted R l → StronglySorted R (sort_insert key leb x l).
Proof.
  induction 1 as [|y l Hl IH Hy]; simpl.
  - repeat constructor.
  - destruct (leb (key x) (key y)) eqn:E.
    + constructor; [by constructor|].
      constructor; [done|].
      eapply Forall_impl; [exact Hy|]. intros z Hz. by apply (leb_trans _ (key y)).
    + constructor; [done|].
      rewrite sort_insert_perm. constructor; [|done].
      destruct (leb_total (key x) (key y)); [congruence|done].
Qed.

Lemma sort_by_sorted (l : list A) : StronglySorted R (sort_by key leb l).
Proof.
  induction l as [|x l IH]; simpl; [constructor|].
  by apply sort_insert_sorted.
Qed.

Lemma strongly_sorted_lookup (l : list A) (i j : nat) (a b : A) :
  StronglySorted R l → l !! i = Some a → l !! j = Some b → i < j → R a b.
Proof.
  intros Hs. revert i j. induction Hs as [|x l Hl IH Hx]; intros i j; [done|].
  destruct i as [|i], j as [|j]; simpl; try lia.
  - intros [= ->] Hb _. rewrite Forall_forall in Hx.
    apply Hx. by eapply list_elem_of_lookup_2.
  - intros Ha Hb Hij. apply (IH i j); [done|done|lia].
Qed.

(** In the sorted list an element stands before every element of a
    greater key. *)
Lemma sort_by_lookup (l : list A) (i j : nat) (a b : A) :
  sort_by key leb l !! i = Some a → sort_by key leb l !! j = Some b →
  i < j → leb (key a) (key b) = true.
Proof. apply strongly_sorted_lookup, sort_by_sorted. Qed.

End SortFacts.

(** ** The summary table *)

Lemma get_worst_severity_ok (l : list vuln) (sev : pyval) :
  get_worst_severity l = Ok sev →
  (0 ≤ rank sev ≤ 6)%Z ∧ hashable sev = true ∧
  ∀ u, u ∈ l → (rank sev ≤ rank (severity_of u))%Z.
Proof.
  intros Hok.
  destruct (decide (Forall (λ v : vuln, hashable (severity_of v) = true) l))
    as [Hh|Hh].
  - destruct (worst_loop l (PStr "NONE") Hh) as (sev' & Hf & Hle & Hmin & _).
    change (rank (PStr "NONE")) with 6%Z in Hf, Hle.
    assert (sev = sev') as ->.
    { destruct l as [|v l]; [simpl in Hf, Hok; congruence|].
      rewrite get_worst_severity_cons, Hf in Hok. simpl in Hok. congruence. }
    split_and!; [|lia| |done].
    + destruct (rank_bounds sev'); lia.
    + destruct sev'; try done; simpl in Hle; lia.
  - exfalso. apply not_Forall_Exists in Hh; [|apply _].
    assert (Hex : Exists (λ v : vuln, hashable (severity_of v) = false) l).
    { eapply Exists_impl; [exact Hh|]. intros v Hv. simpl in Hv.
      by destruct (hashable (severity_of v)). }
    destruct l as [|v l]; [by apply Exists_nil in Hex|].
    rewrite get_worst_severity_cons, (worst_loop_raises _ _ Hex) in Hok. done.
Qed.

Lemma get_worst_severity_total (l : list vuln) :
  Forall (λ v, hashable (severity_of v) = true) l →
  ∃ sev, get_worst_severity l = Ok sev.
Proof.
  intros Hh. destruct l as [|v l]; [by eexists|].
  destruct (worst_loop (v :: l) (PStr "NONE") Hh) as (sev & Hf & _).
  exists sev. rewrite get_worst_severity_cons.
  change (rank (PStr "NONE")) with 6%Z in Hf. by rewrite Hf.
Qed.

Lemma count_by_severity_total (l : list vuln) :
  Forall (λ v, hashable (severity_of v) = true) l →
  ∃ counts, count_by_severity l = Ok counts.
Proof.
  intros Hh. unfold count_by_severity. generalize initial_counts.
  induction Hh as [|v l Hv _ IH]; intros counts; [by eexists|].
  rewrite foldM_cons.
  assert (∃ counts', count_step counts v = Ok counts') as (counts' & ->).
  { unfold count_step. destruct (severity_of v); try done; simpl; eauto.
    destruct (counts !! s); simpl; eauto. }
  apply IH.
Qed.

Section SummaryFacts.
Context {content : Type}.
Variable SCANNER_MAP : list string.
Variable json_load : content → option (gmap string (list vuln)).

(** What a row says about the file it was made from. *)
Lemma summary_row_inv (file_name : string) (c : content) (r : row) :
  summary_row SCANNER_MAP json_load file_name c = Ok (Some r) →
  ∃ scanners sev,
    json_load c = Some scanners ∧
    get_worst_severity (flatten_scanners scanners) = Ok sev ∧
    total r = length (flatten_scanners scanners) ∧
    sort_key r = (- rank sev, org_repo r)%Z.
Proof.
  unfold summary_row. case_bool_decide; [done|].
  destruct (split_once _ _) as [|org_name [|repo_name [|? ?]]]; try done.
  unfold load. destruct (json_load c) as [scanners|]; [|done]. simpl.
  destruct (get_worst_severity _) as [sev|] eqn:Hsev; [|done]. simpl.
  destruct (get_worst_severity_ok _ _ Hsev) as (_ & Hh & _).
  rewrite (dict_get_rank _ Hh). simpl.
  destruct (dict_get SEVERITY_EMOJI sev _); [|done]. simpl.
  destruct (count_by_severity _); [|done]. simpl.
  intros [= <-]. by exists scanners, sev.
Qed.

Lemma collect_rows_loop (l : list (string * content)) (acc rows : list row) :
  foldM (λ rows e,
           r ← summary_row SCANNER_MAP json_load e.1 e.2;
           Ok (rows ++ match r with Some x => [x] | None => [] end)%list)
        l acc = Ok rows →
  ∀ r, r ∈ rows →
       r ∈ acc ∨ ∃ e, e ∈ l ∧ summary_row SCANNER_MAP json_load e.1 e.2 = Ok (Some r).
Proof.
  revert acc. induction l as [|e l IH]; intros acc; simpl.
  - intros [= <-] r Hr. by left.
  - destruct (summary_row _ _ e.1 e.2) as [o|] eqn:E; simpl; [|done].
    intros H r Hr. destruct (IH _ H r Hr) as [Hacc|(e' & He' & Hrow)].
    + apply elem_of_app in Hacc as [?|Hnew]; [by left|].
      right. exists e. split; [left|].
      destruct o as [x|]; [|by apply elem_of_nil in Hnew].
      apply list_elem_of_singleton in Hnew. by subst.
    + right. exists e'. split; [by right|done].
Qed.

(** Every row of the table was made from a file of the directory. *)
Lemma table_rows_from_files (entries : list (string * content)) (rows : list row) :
  table_rows SCANNER_MAP json_load entries = Ok rows →
  ∀ r, r ∈ rows →
       ∃ e, e ∈ entries ∧ summary_row SCANNER_MAP json_load e.1 e.2 = Ok (Some r).
Proof.
  unfold table_rows, collect_rows.
  destruct (foldM _ _ _) as [rows0|] eqn:E; simpl; [|done].
  intros [= <-] r Hr. rewrite sort_by_perm in Hr.
  destruct (collect_rows_loop _ _ _ E r Hr) as [Hnil|(e & He & Hrow)].
  - by apply elem_of_nil in Hnil.
  - exists e. split; [|done]. by apply list_elem_of_filter in He as [_ ?].
Qed.

(** Order of the rows of a table that was produced. *)
Lemma table_rows_order
    (entries : list (string * content)) (rows : list row) :
  table_rows SCANNER_MAP json_load entries = Ok rows →
  generate_summary_table SCANNER_MAP json_load entries =
    Ok (join LF (table_header ++ (render_row <$> rows))) ∧
  (∀ i j ri rj, rows !! i = Some ri → rows !! j = Some rj → i < j →
     key_leb (sort_key ri) (sort_key rj) = true) ∧
  (∀ r, r ∈ rows →
     ∃ e scanners sev,
       e ∈ entries ∧
       summary_row SCANNER_MAP json_load e.1 e.2 = Ok (Some r) ∧
       json_load e.2 = Some scanners ∧
       get_worst_severity (flatten_scanners scanners) = Ok sev ∧
       sort_key r = (- rank sev, org_repo r)%Z) ∧
  (∀ name_c c_c scanners_c r_c name_n c_n scanners_n r_n i j,
     summary_row SCANNER_MAP json_load name_c c_c = Ok (Some r_c) →
     json_load c_c = Some scanners_c →
     (∃ v, v ∈ flatten_scanners scanners_c ∧ severity_of v = PStr "CRITICAL") →
     summary_row SCANNER_MAP json_load name_n c_n = Ok (Some r_n) →
     json_load c_n = Some scanners_n →
     flatten_scanners scanners_n = [] →
     rows !! i = Some r_c → rows !! j = Some r_n → j < i) ∧
  (∀ i j ri rj, rows !! i = Some ri → rows !! j = Some rj →
     (sort_key ri).1 = (sort_key rj).1 →
     org_repo ri ≠ org_repo rj →
     str_leb (org_repo ri) (org_repo rj) = true → i < j) ∧
  (∀ name_a c_a scanners_a sev_a r_a name_b c_b scanners_b sev_b r_b i j,
     summary_row SCANNER_MAP json_load name_a c_a = Ok (Some r_a) →
     json_load c_a = Some scanners_a →
     get_worst_severity (flatten_scanners scanners_a) = Ok sev_a →
     summary_row SCANNER_MAP json_load name_b c_b = Ok (Some r_b) →
     json_load c_b = Some scanners_b →
     get_worst_severity (flatten_scanners scanners_b) = Ok sev_b →
     rows !! i = Some r_a → rows !! j = Some r_b →
     ((rank sev_a < rank sev_b)%Z → j < i) ∧
     (rank sev_a = rank sev_b →
      org_repo r_a ≠ org_repo r_b →
      str_leb (org_repo r_a) (org_repo r_b) = true → i < j)).
Proof.
  intros Hrows.
  assert (Hsorted : ∀ i j ri rj, rows !! i = Some ri → rows !! j = Some rj →
            i < j → key_leb (sort_key ri) (sort_key rj) = true).
  { unfold table_rows in Hrows.
    destruct (collect_rows _ _ _) as [rows0|]; simpl in Hrows; [|done].
    injection Hrows as <-. intros i j ri rj.
    apply sort_by_lookup; [apply key_leb_total|apply key_leb_trans]. }
  assert (Hfile : ∀ r, r ∈ rows →
            ∃ e scanners sev,
              e ∈ entries ∧
              summary_row SCANNER_MAP json_load e.1 e.2 = Ok (Some r) ∧
              json_load e.2 = Some scanners ∧
              get_worst_severity (flatten_scanners scanners) = Ok sev ∧
              sort_key r = (- rank sev, org_repo r)%Z).
  { intros r Hr.
    destruct (table_rows_from_files _ _ Hrows r Hr) as (e & He & Hrow).
    destruct (summary_row_inv _ _ _ Hrow) as (scanners & sev & Hl & Hw & _ & Hk).
    by exists e, scanners, sev. }
  assert (Hkey : ∀ r, r ∈ rows → ∃ sev, sort_key r = (- rank sev, org_repo r)%Z).
  { intros r Hr. destruct (Hfile r Hr) as (_ & _ & sev & _ & _ & _ & _ & Hk).
    by exists sev. }
  split_and!; [|done|done| | |].
  - unfold generate_summary_table. by rewrite Hrows.
  - intros name_c c_c scanners_c r_c name_n c_n scanners_n r_n i j
      Hc Hlc (v & Hv & Hsev) Hn Hln Hempty Hi Hj.
    destruct (summary_row_inv _ _ _ Hc) as (sc & sev_c & Hlc' & Hwc & _ & Hkc).
    destruct (summary_row_inv _ _ _ Hn) as (sn & sev_n & Hln' & Hwn & _ & Hkn).
    assert (sc = scanners_c) as -> by congruence.
    assert (sn = scanners_n) as -> by congruence.
    rewrite Hempty in Hwn. injection Hwn as <-.
    destruct (get_worst_severity_ok _ _ Hwc) as (Hb & _ & Hmin).
    specialize (Hmin v Hv). rewrite Hsev in Hmin.
    change (rank (PStr "CRITICAL")) with 0%Z in Hmin.
    change (rank (PStr "NONE")) with 6%Z in Hkn.
    assert (Hrc : rank sev_c = 0%Z) by lia.
    destruct (Nat.lt_trichotomy i j) as [Hlt|[->|Hgt]]; [| |done].
    + pose proof (Hsorted i j r_c r_n Hi Hj Hlt) as Hle.
      rewrite Hkc, Hkn, Hrc in Hle. done.
    + assert (r_c = r_n) as -> by congruence.
      rewrite Hkc, Hrc in Hkn. by injection Hkn.
  - intros i j ri rj Hi Hj Hfst Hne Hle.
    destruct (Hkey ri) as (si & Hki); [by eapply list_elem_of_lookup_2|].
    destruct (Hkey rj) as (sj & Hkj); [by eapply list_elem_of_lookup_2|].
    destruct (Nat.lt_trichotomy i j) as [Hlt|[->|Hgt]]; [done|congruence|].
    pose proof (Hsorted j i rj ri Hj Hi Hgt) as Hji.
    rewrite Hki, Hkj in Hji, Hfst. simpl in Hfst.
    unfold key_leb in Hji. simpl in Hji. rewrite Hfst in Hji.
    rewrite Z.ltb_irrefl, Z.eqb_refl in Hji. simpl in Hji.
    exfalso. apply Hne. by apply str_leb_antisym.
  - intros name_a c_a scanners_a sev_a r_a name_b c_b scanners_b sev_b r_b i j
      Ha Hla Hwa Hb Hlb Hwb Hi Hj.
    destruct (summary_row_inv _ _ _ Ha) as (sa & sev_a' & Hla' & Hwa' & _ & Hka).
    destruct (summary_row_inv _ _ _ Hb) as (sb & sev_b' & Hlb' & Hwb' & _ & Hkb).
    assert (sa = scanners_a) as -> by congruence.
    assert (sb = scanners_b) as -> by congruence.
    assert (sev_a' = sev_a) as -> by congruence.
    assert (sev_b' = sev_b) as -> by congruence.
    split.
    + intros Hlt. destruct (Nat.lt_trichotomy i j) as [Hij|[->|Hgt]]; [| |done].
      * pose proof (Hsorted i j r_a r_b Hi Hj Hij) as Hle.
        rewrite Hka, Hkb in Hle. unfold key_leb in Hle. simpl in Hle.
        exfalso. apply orb_prop in Hle as [Hle|Hle].
        -- apply Z.ltb_lt in Hle. lia.
        -- apply andb_prop in Hle as [Hle _]. apply Z.eqb_eq in Hle. lia.
      * assert (r_a = r_b) as -> by congruence.
        rewrite Hka in Hkb. injection Hkb as Hkb. lia.
    + intros Heq Hne Hle.
      destruct (Nat.lt_trichotomy i j) as [Hij|[->|Hgt]]; [done|congruence|].
      pose proof (Hsorted j i r_b r_a Hj Hi Hgt) as Hji.
      rewrite Hka, Hkb, Heq in Hji. unfold key_leb in Hji. simpl in Hji.
      rewrite Z.ltb_irrefl, Z.eqb_refl in Hji. simpl in Hji.
      exfalso. apply Hne. by apply str_leb_antisym.
Qed.

(** A file that decodes, with hashable severities, gives a row or is
    skipped. *)
Lemma summary_row_total (file_name : string) (c : content)
    (scanners : gmap string (list vuln)) :
  json_load c = Some scanners →
  Forall (λ v, hashable (severity_of v) = true) (flatten_scanners scanners) →
  ∃ o, summary_row SCANNER_MAP json_load file_name c = Ok o.
Proof.
  intros Hload Hh. unfold summary_row. case_bool_decide; [by eexists|].
  destruct (split_once _ _) as [|org_name [|repo_name [|? ?]]]; try by eexists.
  unfold load. rewrite Hload. simpl.
  destruct (get_worst_severity_total _ Hh) as (sev & Hsev). rewrite Hsev. simpl.
  destruct (get_worst_severity_ok _ _ Hsev) as (_ & Hsh & _).
  rewrite (dict_get_rank _ Hsh). simpl.
  assert (∃ emoji, dict_get SEVERITY_EMOJI sev "⚪" = Ok emoji) as (emoji & ->).
  { destruct sev; try done; by eexists. }
  simpl. destruct (count_by_severity_total _ Hh) as (counts & ->). simpl.
  by eexists.
Qed.

Lemma table_rows_total (entries : list (string * content)) :
  (∀ e, e ∈ entries →
     ∃ scanners, json_load e.2 = Some scanners ∧
       Forall (λ v, hashable (severity_of v) = true) (flatten_scanners scanners)) →
  ∃ rows, table_rows SCANNER_MAP json_load entries = Ok rows.
Proof.
  intros Hwf. unfold table_rows, collect_rows.
  assert (Hloop : ∀ l acc, (∀ e, e ∈ l → e ∈ entries) →
            ∃ rows, foldM (λ rows e,
                      r ← summary_row SCANNER_MAP json_load e.1 e.2;
                      Ok (rows ++ match r with Some x => [x] | None => [] end)%list)
                    l acc = Ok rows).
  { induction l as [|e l IH]; intros acc Hsub; [by eexists|].
    rewrite foldM_cons.
    destruct (Hwf e) as (scanners & Hload & Hh); [apply Hsub; left|].
    destruct (summary_row_total e.1 e.2 scanners Hload Hh) as (o & ->). simpl.
    apply IH. intros e' He'. apply Hsub. by right. }
  destruct (Hloop (filter (λ e, glob_match "*-*-violations.json" e.1 = true) entries) [])
    as (rows0 & ->).
  { intros e He. by apply list_elem_of_filter in He as [_ ?]. }
  by eexists.
Qed.

(** C2: when every file of the directory decodes, with hashable
    severities, the table is produced: it is its header followed by one
    line per row, and the rows stand in ascending order of the key
    (negated priority of the worst severity, org/repo).  The key of a row
    is made of the priority of the worst severity of the findings of the
    file the row was made from, and of the org/repo label of the row.  So
    the row of a repository that has a CRITICAL finding stands after the
    row of a repository without findings; of two rows, the one whose file
    has the worse worst severity stands later; and of two rows whose
    files have worst severities of the same priority, the one whose
    org/repo string is smaller stands first. *)
Theorem summary_rows_sorted_by_negated_rank (entries : list (string * content)) :
  (∀ e, e ∈ entries →
     ∃ scanners, json_load e.2 = Some scanners ∧
       Forall (λ v, hashable (severity_of v) = true) (flatten_scanners scanners)) →
  ∃ rows,
    table_rows SCANNER_MAP json_load entries = Ok rows ∧
    generate_summary_table SCANNER_MAP json_load entries =
      Ok (join LF (table_header ++ (render_row <$> rows))) ∧
    (∀ i j ri rj, rows !! i = Some ri → rows !! j = Some rj → i < j →
       key_leb (sort_key ri) (sort_key rj) = true) ∧
    (∀ r, r ∈ rows →
       ∃ e scanners sev,
         e ∈ entries ∧
         summary_row SCANNER_MAP json_load e.1 e.2 = Ok (Some r) ∧
         json_load e.2 = Some scanners ∧
         get_worst_severity (flatten_scanners scanners) = Ok sev ∧
         sort_key r = (- rank sev, org_repo r)%Z) ∧
    (∀ name_c c_c scanners_c r_c name_n c_n scanners_n r_n i j,
       summary_row SCANNER_MAP json_load name_c c_c = Ok (Some r_c) →
       json_load c_c = Some scanners_c →
       (∃ v, v ∈ flatten_scanners scanners_c ∧ severity_of v = PStr "CRITICAL") →
       summary_row SCANNER_MAP json_load name_n c_n = Ok (Some r_n) →
       json_load c_n = Some scanners_n →
       flatten_scanners scanners_n = [] →
       rows !! i = Some r_c → rows !! j = Some r_n → j < i) ∧
    (∀ i j ri rj, rows !! i = Some ri → rows !! j = Some rj →
       (sort_key ri).1 = (sort_key rj).1 →
       org_repo ri ≠ org_repo rj →
       str_leb (org_repo ri) (org_repo rj) = true → i < j) ∧
    (∀ name_a c_a scanners_a sev_a r_a name_b c_b scanners_b sev_b r_b i j,
       summary_row SCANNER_MAP json_load name_a c_a = Ok (Some r_a) →
       json_load c_a = Some scanners_a →
       get_worst_severity (flatten_scanners scanners_a) = Ok sev_a →
       summary_row SCANNER_MAP json_load name_b c_b = Ok (Some r_b) →
       json_load c_b = Some scanners_b →
       get_worst_severity (flatten_scanners scanners_b) = Ok sev_b →
       rows !! i = Some r_a → rows !! j = Some r_b →
       ((rank sev_a < rank sev_b)%Z → j < i) ∧
       (rank sev_a = rank sev_b →
        org_repo r_a ≠ org_repo r_b →
        str_leb (org_repo r_a) (org_repo r_b) = true → i < j)).
Proof.
  intros Hwf. destruct (table_rows_total entries Hwf) as (rows & Hrows).
  exists rows. split; [done|]. by apply table_rows_order.
Qed.

End SummaryFacts.

(** ** Merging and saving *)

Section StoreFacts.
Context {V content : Type}.
Variable SCANNER_MAP : list string.
Variable json_load : content → option (gmap string V).
Variable json_dump : gmap string V → content.

Local Abbreviation merge_file := (merge_scanner_file json_load).
Local Abbreviation aggregate := (aggregate_results SCANNER_MAP json_load).
Local Abbreviation save := (save_aggregated_results SCANNER_MAP json_dump).

(** The loop over the items of a scanner file is a left-biased union. *)
Lemma merge_scanner_data_union (scanner_data aggregated : gmap string V) :
  merge_scanner_data scanner_data aggregated = scanner_data ∪ aggregated.
Proof.
  unfold merge_scanner_data.
  apply (map_fold_weak_ind (λ r m, r = m ∪ aggregated)).
  - by rewrite (left_id_L ∅ (∪)).
  - intros i x m r _ ->. by rewrite insert_union_l.
Qed.

Lemma merge_scanner_data_lookup (d agg : gmap string V) (k : string) (x : V) :
  d !! k = Some x → merge_scanner_data d agg !! k = Some x.
Proof. rewrite merge_scanner_data_union. apply lookup_union_Some_l. Qed.

Lemma merge_scanner_data_lookup_other (d agg : gmap string V) (k : string) :
  d !! k = None → merge_scanner_data d agg !! k = agg !! k.
Proof. rewrite merge_scanner_data_union. apply lookup_union_r. Qed.

Lemma merge_scanner_data_idemp (d agg : gmap string V) :
  merge_scanner_data d (merge_scanner_data d agg) = merge_scanner_data d agg.
Proof.
  rewrite !merge_scanner_data_union.
  by rewrite (assoc_L (∪)), (idemp_L (∪)).
Qed.

(** The loop over [SCANNER_MAP], seen from one scanner name [S]: its file
    is the only one that speaks of [S]. *)
Lemma merge_loop_entry (dir : gmap string content) (S : string) (c : content)
    (d : gmap string V) (new : V) (L : list string) (agg : gmap string V) :
  dir !! scanner_file S = Some c → json_load c = Some d → d !! S = Some new →
  (∀ T cT dT, T ∈ L → T ≠ S → dir !! scanner_file T = Some cT →
              json_load cT = Some dT → dT !! S = None) →
  (∀ T cT, T ∈ L → dir !! scanner_file T = Some cT → is_Some (json_load cT)) →
  ∃ r, foldM (merge_file dir) L agg = Ok r ∧
       (S ∈ L ∨ agg !! S = Some new → r !! S = Some new).
Proof.
  intros Hc Hd Hnew. revert agg.
  induction L as [|T L IH]; intros agg Hother Hload; simpl.
  - exists agg. split; [done|]. intros [H|H]; [by apply elem_of_nil in H|done].
  - assert (Hstep : ∃ agg', merge_file dir agg T = Ok agg' ∧
              (T = S ∨ agg !! S = Some new → agg' !! S = Some new)).
    { unfold merge_scanner_file.
      destruct (dir !! scanner_file T) as [cT|] eqn:ET.
      - destruct (Hload T cT) as [dT EdT]; [left|done|].
        unfold load. rewrite EdT. simpl. eexists. split; [done|].
        destruct (decide (T = S)) as [->|Hne].
        + intros _. assert (cT = c) as -> by congruence.
          assert (dT = d) as -> by congruence.
          by apply merge_scanner_data_lookup.
        + intros [?|Hagg]; [done|].
          rewrite merge_scanner_data_lookup_other; [done|].
          apply (Hother T cT dT); [left|done..].
      - exists agg. split; [done|]. intros [->|?]; [congruence|done]. }
    destruct Hstep as (agg' & -> & Hagg'). simpl.
    destruct (IH agg') as (r & Hr & HS).
    { intros T' cT dT HT'. apply Hother. by right. }
    { intros T' cT HT'. apply Hload. by right. }
    exists r. split; [done|].
    intros [[->|HL]%elem_of_cons|Hagg]; apply HS; auto.
Qed.

(** One turn of the loop adds the content of a file, whatever the mapping
    so far, or raises, whatever the mapping so far. *)
Lemma merge_file_cases (dir : gmap string content) (T : string) :
  (∃ dT, ∀ agg, merge_file dir agg T = Ok (dT ∪ agg)) ∨
  (∀ agg, merge_file dir agg T = Raise JSONDecodeError).
Proof.
  unfold merge_scanner_file, load.
  destruct (dir !! scanner_file T) as [cT|].
  - destruct (json_load cT) as [dT|]; [left|by right].
    exists dT. intros agg. simpl. by rewrite merge_scanner_data_union.
  - left. exists ∅. intros agg. by rewrite (left_id_L ∅ (∪)).
Qed.

(** What the loop adds does not depend on the mapping it starts from. *)
Lemma merge_loop_union (dir : gmap string content) (L : list string)
    (agg r : gmap string V) :
  foldM (merge_file dir) L agg = Ok r →
  ∃ D, r = D ∪ agg ∧ ∀ agg', foldM (merge_file dir) L agg' = Ok (D ∪ agg').
Proof.
  revert agg. induction L as [|T L IH]; intros agg.
  - intros [= <-]. exists ∅. split; [by rewrite (left_id_L ∅ (∪))|].
    intros agg'. simpl. by rewrite (left_id_L ∅ (∪)).
  - rewrite foldM_cons.
    destruct (merge_file_cases dir T) as [(dT & HT)|HT]; rewrite HT; [|done].
    intros H. simpl in H. destruct (IH _ H) as (D & -> & HD).
    exists (D ∪ dT). split; [by rewrite (assoc_L (∪))|].
    intros agg'. rewrite foldM_cons, HT. simpl. by rewrite HD, (assoc_L (∪)).
Qed.

Lemma elem_of_temp_names (k : string) :
  k ∈ TEMP_SCANNER_FILE_NAMES SCANNER_MAP ↔ ∃ T, T ∈ SCANNER_MAP ∧ k = scanner_file T.
Proof.
  unfold TEMP_SCANNER_FILE_NAMES. rewrite list_elem_of_fmap.
  split; intros (T & ? & ?); by exists T.
Qed.

(** The directory [save_aggregated_results] leaves: the per-repo file is
    written, then every file that bears the name of a scanner file is
    removed. *)
Lemma save_lookup (org repo : string) (results : gmap string V)
    (dir : gmap string content) (k : string) :
  save org repo results dir !! k =
    if decide (k ∈ TEMP_SCANNER_FILE_NAMES SCANNER_MAP) then None
    else <[per_repo_file org repo := json_dump results]> dir !! k.
Proof.
  unfold save_aggregated_results, TEMP_SCANNER_FILE_NAMES.
  generalize (<[per_repo_file org repo := json_dump results]> dir).
  induction SCANNER_MAP as [|T L IH]; intros m.
  - case_decide as Hin; [by apply elem_of_nil in Hin|done].
  - rewrite fmap_cons. simpl. rewrite IH.
    destruct (decide (k ∈ scanner_file <$> L)) as [HL|HL].
    + rewrite decide_True; [done|by right].
    + destruct (decide (k = scanner_file T)) as [->|Hne].
      * rewrite decide_True by left. apply lookup_delete_eq.
      * rewrite lookup_delete_ne by done.
        rewrite decide_False; [done|].
        by intros [?|?]%elem_of_cons.
Qed.

(** C3: when the file of scanner [S] is merged, the entry of [S] in the
    mapping returned is the one of that file, whatever the per-repo file
    held for [S] before: nothing of the old entry is kept, and merging the
    same file once more changes nothing.  [S] is a known scanner, its file
    has an entry for [S], no file of another scanner has one, and every
    file read is well-formed JSON. *)
Theorem aggregate_replaces_scanner_entry (org repo : string)
    (dir : gmap string content) (S : string) (c : content)
    (d : gmap string V) (new : V) :
  S ∈ SCANNER_MAP →
  dir !! scanner_file S = Some c → json_load c = Some d → d !! S = Some new →
  (∀ T cT dT, T ∈ SCANNER_MAP → T ≠ S → dir !! scanner_file T = Some cT →
              json_load cT = Some dT → dT !! S = None) →
  (∀ T cT, T ∈ SCANNER_MAP → dir !! scanner_file T = Some cT →
           is_Some (json_load cT)) →
  (∀ c0, dir !! per_repo_file org repo = Some c0 → is_Some (json_load c0)) →
  (∀ old, merge_scanner_data d old !! S = Some new ∧
          merge_scanner_data d (merge_scanner_data d old) = merge_scanner_data d old) ∧
  ∃ result,
    aggregate org repo dir = Ok result ∧
    result !! S = Some new ∧
    (json_load (json_dump result) = Some result →
     per_repo_file org repo ∉ TEMP_SCANNER_FILE_NAMES SCANNER_MAP →
     aggregate org repo (<[per_repo_file org repo := json_dump result]> dir)
       = Ok result).
Proof.
  intros HS Hc Hd Hnew Hother Hload Hrepo. split.
  { intros old. split; [by apply merge_scanner_data_lookup|].
    apply merge_scanner_data_idemp. }
  assert (Hstart : ∃ agg0,
            match dir !! per_repo_file org repo with
            | Some c0 => load json_load c0
            | None => Ok ∅
            end = Ok agg0).
  { destruct (dir !! per_repo_file org repo) as [c0|]; [|by eexists].
    destruct (Hrepo c0 eq_refl) as [a Ha]. unfold load. rewrite Ha. by eexists. }
  destruct Hstart as (agg0 & Hagg0).
  destruct (merge_loop_entry dir S c d new SCANNER_MAP agg0 Hc Hd Hnew Hother Hload)
    as (result & Hres & Hentry).
  exists result. split_and!.
  - unfold aggregate_results. by rewrite Hagg0.
  - apply Hentry. by left.
  - intros Hround Hfresh. unfold aggregate_results.
    rewrite lookup_insert_eq. unfold load at 1. rewrite Hround. simpl.
    destruct (merge_loop_union _ _ _ _ Hres) as (D & -> & HD).
    rewrite (foldM_ext_in _ (merge_file dir)).
    + rewrite HD. by rewrite (assoc_L (∪)), (idemp_L (∪)).
    + intros T agg HT. unfold merge_scanner_file.
      rewrite lookup_insert_ne; [done|].
      intros E. apply Hfresh, elem_of_temp_names. by exists T.
Qed.

(** C4, amended: when the name of the per-repo file is not the name of a
    scanner file, and the mapping passes through [json.dump] and
    [json.load] unchanged, saving it and aggregating the directory gives the
    mapping back; after the save no scanner file is left. *)
Theorem save_then_aggregate_roundtrip (org repo : string)
    (results : gmap string V) (dir : gmap string content) :
  json_load (json_dump results) = Some results →
  per_repo_file org repo ∉ TEMP_SCANNER_FILE_NAMES SCANNER_MAP →
  (∀ T, T ∈ SCANNER_MAP → save org repo results dir !! scanner_file T = None) ∧
  aggregate org repo (save org repo results dir) = Ok results.
Proof.
  intros Hround Hfresh.
  assert (Hgone : ∀ T, T ∈ SCANNER_MAP →
            save org repo results dir !! scanner_file T = None).
  { intros T HT. rewrite save_lookup. rewrite decide_True; [done|].
    apply elem_of_temp_names. by exists T. }
  split; [done|]. unfold aggregate_results.
  rewrite save_lookup, decide_False, lookup_insert_eq by done.
  unfold load. rewrite Hround. simpl.
  assert (Hloop : ∀ L agg, L ⊆ SCANNER_MAP →
            foldM (merge_file (save org repo results dir)) L agg = Ok agg).
  { induction L as [|T L IH]; intros agg HL; [done|].
    rewrite foldM_cons.
    assert (merge_file (save org repo results dir) agg T = Ok agg) as ->.
    { unfold merge_scanner_file. by rewrite Hgone by (apply HL; left). }
    simpl. apply IH. intros x Hx. apply HL. by right. }
  by apply Hloop.
Qed.

End StoreFacts.

Import Examples.

Lemma summary_rows_sorted_by_negated_rank_witness :
  ∃ rows,
    table_rows scanner_names Some summary_entries = Ok rows ∧
    rows = summary_rows ∧
    ∀ i j ri rj, rows !! i = Some ri → rows !! j = Some rj →
                 i < j → key_leb (sort_key ri) (sort_key rj) = true.
Proof.
  destruct (summary_rows_sorted_by_negated_rank scanner_names Some summary_entries)
    as (rows & Hrows & _ & Hsorted & _).
  - intros e He. exists e.2. split; [reflexivity|].
    in_cases He; vm_compute; repeat constructor.
  - exists rows. split_and!; [exact Hrows| |exact Hsorted].
    assert (H : table_rows scanner_names Some summary_entries = Ok summary_rows).
    { vm_compute. reflexivity. }
    rewrite H in Hrows. by injection Hrows.
Defined.

Lemma aggregate_replaces_scanner_entry_witness :
  ∃ result,
    aggregate_results scanner_names Some "acme" "api" results_dir = Ok result ∧
    result !! "trivy" = Some [critical_finding].
Proof.
  destruct (aggregate_replaces_scanner_entry scanner_names Some id
              "acme" "api" results_dir "trivy"
              {[ "trivy" := [critical_finding] ]}
              {[ "trivy" := [critical_finding] ]} [critical_finding])
    as (_ & result & Hagg & Hentry & _).
  - left.
  - reflexivity.
  - reflexivity.
  - reflexivity.
  - intros T cT dT HT Hne Hfile Hload.
    apply elem_of_cons in HT as [->|HT]; [done|].
    apply list_elem_of_singleton in HT. subst T.
    vm_compute in Hfile. injection Hfile as <-. injection Hload as <-.
    reflexivity.
  - intros T cT _ _. by exists cT.
  - intros c0 _. by exists c0.
  - exists result. by split.
Defined.

(** C4, as stated, fails when the name of the per-repo file is the name
    of a scanner file: with a scanner called osv-scanner, what is saved
    for the repository scanner of the organization osv is removed by the
    save itself, and the aggregation that follows returns the empty
    mapping. *)
Lemma save_then_aggregate_name_clash_counterexample :
  let dir := save_aggregated_results scanner_names id "osv" "scanner" scan_results ∅ in
  (∀ T, T ∈ scanner_names → dir !! scanner_file T = None) ∧
  aggregate_results scanner_names Some "osv" "scanner" dir = Ok ∅ ∧
  ¬ (aggregate_results scanner_names Some "osv" "scanner" dir = Ok scan_results).
Proof.
  split_and!.
  - intros T HT. in_cases HT; by vm_compute.
  - by vm_compute.
  - by vm_compute.
Qed.

Lemma save_then_aggregate_roundtrip_witness :
  (Some (id scan_results) = Some scan_results) ∧
  (per_repo_file "acme" "api" ∉ TEMP_SCANNER_FILE_NAMES scanner_names) ∧
  aggregate_results scanner_names Some "acme" "api"
    (save_aggregated_results scanner_names id "acme" "api" scan_results results_dir)
    = Ok scan_results.
Proof.
  assert (H : per_repo_file "acme" "api" ∉ TEMP_SCANNER_FILE_NAMES scanner_names).
  { intros Hin. vm_compute in Hin.
    apply elem_of_cons in Hin as [Hin|Hin]; [discriminate Hin|].
    apply list_elem_of_singleton in Hin. discriminate Hin. }
  split_and!; [reflexivity|exact H|].
  exact (proj2 (save_then_aggregate_roundtrip scanner_names Some id
                  "acme" "api" scan_results results_dir eq_refl H)).
Defined.

(** ** The detector *)

Import Detector Re.

Section MonadFacts.

Lemma for_each_cons {A} (x : A) (l : list A) (f : A → M unit) (tools : list MCPTool) :
  for_each (x :: l) f tools =
    match f x tools with
    | (Ok _, tools') => for_each l f tools'
    | (Raise e, tools') => (Raise e, tools')
    end.
Proof. reflexivity. Qed.

Lemma for_each_app {A} (l1 l2 : list A) (f : A → M unit) (tools : list MCPTool) :
  for_each (l1 ++ l2) f tools =
    match for_each l1 f tools with
    | (Ok _, tools') => for_each l2 f tools'
    | (Raise e, tools') => (Raise e, tools')
    end.
Proof.
  revert tools. induction l1 as [|x l1 IH]; intros tools; [done|].
  rewrite <- app_comm_cons, !for_each_cons.
  destruct (f x tools) as [[[]|e] tools']; [apply IH|done].
Qed.

(** A loop whose body only appends, only appends. *)
Lemma for_each_appends {A} (l : list A) (f : A → M unit) :
  (∀ x, ∃ found, ∀ tools, f x tools = (Ok (), tools ++ found)) →
  ∃ found, ∀ tools, for_each l f tools = (Ok (), tools ++ found).
Proof.
  intros Hf. induction l as [|x l (found_l & IH)].
  - exists []. intros tools. by rewrite app_nil_r.
  - destruct (Hf x) as (found_x & Hx).
    exists (found_x ++ found_l). intros tools.
    by rewrite for_each_cons, Hx, IH, app_assoc.
Qed.

(** A loop whose body never raises, never raises. *)
Lemma for_each_ok {A} (l : list A) (f : A → M unit) (tools : list MCPTool) :
  (∀ x tools', (f x tools').1 = Ok ()) → (for_each l f tools).1 = Ok ().
Proof.
  intros Hf. revert tools. induction l as [|x l IH]; intros tools; [done|].
  rewrite for_each_cons. specialize (Hf x tools).
  destruct (f x tools) as [[[]|e] tools']; [apply IH|done].
Qed.

(** Elements on which the body does nothing can be left out. *)
Lemma for_each_filter {A} (P : A → Prop) `{∀ x, Decision (P x)}
    (l : list A) (f : A → M unit) (tools : list MCPTool) :
  (∀ x tools', ¬ P x → f x tools' = (Ok (), tools')) →
  for_each l f tools = for_each (filter P l) f tools.
Proof.
  intros Hskip. revert tools. induction l as [|x l IH]; intros tools; [done|].
  rewrite filter_cons. destruct (decide (P x)) as [HP|HP].
  - rewrite !for_each_cons. destruct (f x tools) as [[[]|e] tools']; [apply IH|done].
  - rewrite for_each_cons, (Hskip x tools HP). apply IH.
Qed.

End MonadFacts.

Section DetectionFacts.

(** On a file that can be read both bodies append what they find and
    return. *)
Lemma python_tools_body_readable (path content : string) :
  ∃ found, ∀ tools,
    python_tools_body path (ReadOk content) tools = (Ok (), tools ++ found).
Proof.
  unfold python_tools_body.
  destruct (for_each_appends PYTHON_TOOL_PATTERNS (λ pattern,
    for_each (finditer pattern content) (λ m,
      let groups := [group 1 (m_caps m); group 2 (m_caps m)] in
      let names :=
        match groups with
        | [Some explicit; Some func] =>
            if negb (String.eqb explicit EmptyString) then (explicit, func)
            else (func, func)
        | _ => (group_str 2 m, group_str 2 m)
        end in
      append_tool {| name := names.1; file_path := path;
                     description := default EmptyString
                                      (python_docstrings content !! names.2);
                     line_number := line_of content m |}))) as (found & Hfound).
  { intros pattern. apply for_each_appends. intros m.
    eexists. intros tools. cbv zeta. unfold append_tool. reflexivity. }
  exists found. intros tools. exact (Hfound tools).
Qed.

Lemma typescript_tools_body_readable (path content : string) :
  ∃ found, ∀ tools,
    typescript_tools_body path (ReadOk content) tools = (Ok (), tools ++ found).
Proof.
  unfold typescript_tools_body.
  destruct (for_each_appends TYPESCRIPT_TOOL_PATTERNS (λ pattern,
    for_each (finditer pattern content) (λ m,
      append_tool {| name := group_str 1 m; file_path := path;
                     description :=
                       match search (description_pattern (group_str 1 m)) content with
                       | Some decorator_match => group_str 1 decorator_match
                       | None => EmptyString
                       end;
                     line_number := line_of content m |}))) as (found & Hfound).
  { intros pattern. apply for_each_appends. intros m.
    eexists. intros tools. cbv zeta. unfold append_tool. reflexivity. }
  exists found. intros tools. exact (Hfound tools).
Qed.

Lemma detect_python_unreadable (path : string) (f : file) (tools : list MCPTool) :
  readable f ≠ true → _detect_python_tools path f tools = (Ok (), tools).
Proof. by destruct f. Qed.

Lemma detect_typescript_unreadable (path : string) (f : file) (tools : list MCPTool) :
  readable f ≠ true → _detect_typescript_tools path f tools = (Ok (), tools).
Proof. by destruct f. Qed.

Lemma detect_python_ok (path : string) (f : file) (tools : list MCPTool) :
  (_detect_python_tools path f tools).1 = Ok ().
Proof. reflexivity. Qed.

Lemma detect_typescript_ok (path : string) (f : file) (tools : list MCPTool) :
  (_detect_typescript_tools path f tools).1 = Ok ().
Proof. reflexivity. Qed.

Lemma rglob_readable_only (pat : string) (r : repo) :
  rglob pat (readable_only r) = filter (λ e, readable e.2 = true) (rglob pat r).
Proof.
  unfold rglob, readable_only. simpl. rewrite !list_filter_filter.
  apply list_filter_iff. intros e. tauto.
Qed.

(** The two loops never raise. *)
Lemma scan_sources_ok (r : repo) (tools : list MCPTool) :
  (scan_sources r tools).1 = Ok ().
Proof.
  unfold scan_sources, set_tools, mbind, M_bind.
  pose proof (for_each_ok (rglob "*.py" r)
                (λ e, _detect_python_tools e.1 e.2) []
                (λ e t, detect_python_ok e.1 e.2 t)) as Hpy.
  destruct (for_each (rglob "*.py" r) _ []) as [[[]|e] tools1]; [|done].
  apply for_each_ok. intros e t. apply detect_typescript_ok.
Qed.

(** The two loops skip what cannot be read. *)
Lemma scan_sources_readable_only (r : repo) (tools : list MCPTool) :
  scan_sources r tools = scan_sources (readable_only r) tools.
Proof.
  unfold scan_sources, set_tools, mbind, M_bind.
  rewrite !rglob_readable_only, <- filter_app.
  rewrite (for_each_filter (λ e, readable e.2 = true) (rglob "*.py" r)).
  2: { intros e t He. by apply detect_python_unreadable. }
  destruct (for_each _ _ []) as [[[]|e] tools1]; [|done].
  apply for_each_filter.
  intros e t He. by apply detect_typescript_unreadable.
Qed.

End DetectionFacts.

Section FallbackFacts.
(** [json.loads]. *)
Variable json_loads : string → option pyval.

Local Abbreviation is_mcp_server := (_is_mcp_server json_loads).
Local Abbreviation detect := (detect_tools json_loads).

(** [detect_tools] after two loops that found nothing. *)
Lemma detect_tools_after_empty_scan (r : repo) :
  (scan_sources r []).2 = [] →
  detect r = match is_mcp_server r with
             | Ok true => Ok [unknown_tool r]
             | Ok false => Ok []
             | Raise e => Raise e
             end.
Proof.
  intros Hscan. pose proof (scan_sources_ok r []) as Hok.
  unfold detect_tools, detect_tools_M, mbind, M_bind.
  destruct (scan_sources r []) as [res tools]. simpl in Hscan, Hok. subst.
  simpl. by destruct (_is_mcp_server json_loads r) as [[|]|].
Qed.

Lemma python_manifest_mentions_mcp (r : repo) (content : string) :
  lookup_file "requirements.txt" r = Some (ReadOk content) →
  contains "fastmcp" content = true →
  is_mcp_server r = Ok true.
Proof.
  intros Hfile Hsub. unfold _is_mcp_server. simpl.
  by rewrite Hfile, Hsub, orb_true_r.
Qed.

Lemma no_manifest_mentions_mcp (r : repo) :
  (∀ dep_file, dep_file ∈ ["requirements.txt"; "pyproject.toml"; "Pipfile"] →
     lookup_file dep_file r = None ∨
     ∃ content, lookup_file dep_file r = Some (ReadOk content) ∧
                contains "mcp" content || contains "fastmcp" content = false) →
  (lookup_file "package.json" r = None ∨
   ∃ f, lookup_file "package.json" r = Some f ∧
        package_json_mentions_mcp json_loads f ≠ Ok true) →
  is_mcp_server r = Ok false.
Proof.
  intros Hpy Hts.
  assert (Hstep : ∀ dep_file,
            dep_file ∈ ["requirements.txt"; "pyproject.toml"; "Pipfile"] →
            match lookup_file dep_file r with
            | Some (ReadOk content) =>
                Ok (contains "mcp" content || contains "fastmcp" content)
            | Some ReadFails => Raise OSError
            | None => Ok false
            end = Ok false).
  { intros dep_file Hin.
    destruct (Hpy dep_file Hin) as [->|(content & -> & ->)]; done. }
  unfold _is_mcp_server. simpl.
  rewrite (Hstep "requirements.txt") by (left). simpl.
  rewrite (Hstep "pyproject.toml") by (right; left). simpl.
  rewrite (Hstep "Pipfile") by (do 2 right; left). simpl.
  destruct Hts as [->|(f & -> & Hf)]; [done|].
  by destruct (package_json_mentions_mcp json_loads f) as [[|]|].
Qed.

(** When [package.json] is there, the [try] reaches [return True] exactly
    when the file is read, decodes to an object whose dependencies and
    devDependencies are objects, and one of their keys mentions the
    protocol. *)
Lemma package_json_mentions_mcp_true (f : file) :
  package_json_mentions_mcp json_loads f = Ok true ↔
  ∃ text data deps dev_deps dep,
    f = ReadOk text ∧
    json_loads text = Some (PDict data) ∧
    assoc_get "dependencies" data = PDict deps ∧
    assoc_get "devDependencies" data = PDict dev_deps ∧
    dep ∈ (fst <$> (deps ++ dev_deps)%list) ∧
    contains "modelcontextprotocol" dep || contains "mcp" dep = true.
Proof.
  unfold package_json_mentions_mcp. split.
  - destruct f as [text|]; [|done].
    destruct (json_loads text) as [[| | | | | |data]|] eqn:El; try done.
    destruct (assoc_get "dependencies" data) as [| | | | | |deps] eqn:Ed; try done.
    destruct (assoc_get "devDependencies" data) as [| | | | | |dev_deps] eqn:Ev;
      try done.
    intros [= H]. apply existsb_exists in H as (dep & Hin & Hdep).
    exists text, data, deps, dev_deps, dep.
    do 4 (split; [done|]). split; [by apply list_elem_of_In|done].
  - intros (text & data & deps & dev_deps & dep & -> & -> & -> & -> & Hin & Hdep).
    f_equal. apply existsb_exists. exists dep.
    split; [by apply list_elem_of_In|done].
Qed.

(** The loop of [_is_mcp_server] over Python manifests none of which
    fails to be read. *)
Lemma python_manifests_scan (r : repo) (L : list string) (found0 : bool) :
  (∀ d, d ∈ L → lookup_file d r ≠ Some ReadFails) →
  ∃ found,
    foldM (λ (found : bool) dep_file,
             if found then Ok true
             else match lookup_file dep_file r with
                  | Some (ReadOk content) =>
                      Ok (contains "mcp" content || contains "fastmcp" content)
                  | Some ReadFails => Raise OSError
                  | None => Ok false
                  end) L found0 = Ok found ∧
    (found = true ↔
       found0 = true ∨
       ∃ dep_file content,
         dep_file ∈ L ∧
         lookup_file dep_file r = Some (ReadOk content) ∧
         contains "mcp" content || contains "fastmcp" content = true).
Proof.
  revert found0. induction L as [|d L IH]; intros found0 Hread.
  - exists found0. split; [done|]. split; [by left|].
    by intros [?|(? & ? & Hin%elem_of_nil & _)].
  - assert (HreadL : ∀ d', d' ∈ L → lookup_file d' r ≠ Some ReadFails).
    { intros d' Hd'. apply Hread. by right. }
    rewrite foldM_cons. destruct found0.
    + destruct (IH true HreadL) as (found & Hrun & Hfound).
      exists found. split; [exact Hrun|]. split; [by left|].
      intros _. apply Hfound. by left.
    + destruct (lookup_file d r) as [[content|]|] eqn:E.
      * destruct (IH (contains "mcp" content || contains "fastmcp" content) HreadL)
          as (found & Hrun & Hfound).
        exists found. cbn [mbind result_bind]. split; [exact Hrun|].
        rewrite Hfound. split.
        -- intros [Hhit|(dep_file & c & Hin & Hfile & Hhit)]; right.
           ++ exists d, content. split; [left|done].
           ++ exists dep_file, c. split; [by right|done].
        -- intros [?|(dep_file & c & [->|Hin]%elem_of_cons & Hfile & Hhit)]; [done| |].
           ++ left. congruence.
           ++ right. by exists dep_file, c.
      * exfalso. apply (Hread d); [left|done].
      * destruct (IH false HreadL) as (found & Hrun & Hfound).
        exists found. cbn [mbind result_bind]. split; [exact Hrun|].
        rewrite Hfound. split.
        -- intros [?|(dep_file & c & Hin & Hfile & Hhit)]; [done|].
           right. exists dep_file, c. split; [by right|done].
        -- intros [?|(dep_file & c & [->|Hin]%elem_of_cons & Hfile & Hhit)]; [done| |].
           ++ congruence.
           ++ right. by exists dep_file, c.
Qed.

(** When no Python manifest fails to be read, [_is_mcp_server] answers,
    and it answers yes exactly when a manifest mentions the protocol. *)
Lemma is_mcp_server_answer (r : repo) :
  (∀ d, d ∈ ["requirements.txt"; "pyproject.toml"; "Pipfile"] →
        lookup_file d r ≠ Some ReadFails) →
  ∃ answer,
    is_mcp_server r = Ok answer ∧
    (answer = true ↔
       (∃ dep_file content,
          dep_file ∈ ["requirements.txt"; "pyproject.toml"; "Pipfile"] ∧
          lookup_file dep_file r = Some (ReadOk content) ∧
          contains "mcp" content || contains "fastmcp" content = true) ∨
       (∃ text data deps dev_deps dep,
          lookup_file "package.json" r = Some (ReadOk text) ∧
          json_loads text = Some (PDict data) ∧
          assoc_get "dependencies" data = PDict deps ∧
          assoc_get "devDependencies" data = PDict dev_deps ∧
          dep ∈ (fst <$> (deps ++ dev_deps)%list) ∧
          contains "modelcontextprotocol" dep || contains "mcp" dep = true)).
Proof.
  intros Hread. unfold _is_mcp_server.
  destruct (python_manifests_scan r _ false Hread) as (found & -> & Hfound).
  cbn [mbind result_bind]. destruct found.
  - exists true. split; [done|]. split; [|done]. intros _. left.
    destruct (proj1 Hfound eq_refl) as [?|?]; done.
  - assert (Hnone : ¬ ∃ dep_file content,
              dep_file ∈ ["requirements.txt"; "pyproject.toml"; "Pipfile"] ∧
              lookup_file dep_file r = Some (ReadOk content) ∧
              contains "mcp" content || contains "fastmcp" content = true).
    { intros H. assert (false = true) by (apply Hfound; by right). done. }
    destruct (lookup_file "package.json" r) as [f|] eqn:Ef.
    + destruct (package_json_mentions_mcp json_loads f) as [[|]|] eqn:Ep.
      * exists true. split; [done|]. split; [|done]. intros _. right.
        apply package_json_mentions_mcp_true in Ep
          as (text & data & deps & dev_deps & dep & -> & Hrest).
        by exists text, data, deps, dev_deps, dep.
      * exists false. split; [done|]. split; [done|].
        intros [H|(text & data & deps & dev_deps & dep & Hfile & Hrest)]; [done|].
        assert (f = ReadOk text) as -> by congruence.
        assert (package_json_mentions_mcp json_loads (ReadOk text) = Ok true)
          by (apply package_json_mentions_mcp_true;
              by exists text, data, deps, dev_deps, dep).
        congruence.
      * exists false. split; [done|]. split; [done|].
        intros [H|(text & data & deps & dev_deps & dep & Hfile & Hrest)]; [done|].
        assert (f = ReadOk text) as -> by congruence.
        assert (package_json_mentions_mcp json_loads (ReadOk text) = Ok true)
          by (apply package_json_mentions_mcp_true;
              by exists text, data, deps, dev_deps, dep).
        congruence.
    + exists false. split; [done|]. split; [done|].
      intros [H|(text & data & deps & dev_deps & dep & Hfile & Hrest)]; [done|].
      congruence.
Qed.

(** C5: when the two loops over the source files find no tool,
    [detect_tools] returns the one record named unknown, with the root of
    the repository as its path, the fixed description and line number 0,
    if [_is_mcp_server] answers yes, which it does when requirements.txt
    mentions fastmcp; and it returns the empty list if [_is_mcp_server]
    answers no, which it does when no manifest mentions MCP.  When none
    of the three Python manifests fails to be read, [detect_tools]
    returns one of the two, and the record exactly when a manifest
    references MCP: one of requirements.txt, pyproject.toml and Pipfile
    contains mcp, or package.json decodes to an object with a key of
    its dependencies or devDependencies that contains
    modelcontextprotocol or mcp. *)
Theorem detect_tools_fallback (r : repo) :
  (scan_sources r []).2 = [] →
  unknown_tool r = {| name := "unknown"; file_path := repo_path r;
                      description := "MCP server with undetected tools";
                      line_number := 0 |} ∧
  (is_mcp_server r = Ok true → detect r = Ok [unknown_tool r]) ∧
  (is_mcp_server r = Ok false → detect r = Ok []) ∧
  (∀ content,
     lookup_file "requirements.txt" r = Some (ReadOk content) →
     contains "fastmcp" content = true →
     detect r = Ok [unknown_tool r]) ∧
  ((∀ dep_file, dep_file ∈ ["requirements.txt"; "pyproject.toml"; "Pipfile"] →
      lookup_file dep_file r = None ∨
      ∃ content, lookup_file dep_file r = Some (ReadOk content) ∧
                 contains "mcp" content || contains "fastmcp" content = false) →
   (lookup_file "package.json" r = None ∨
    ∃ f, lookup_file "package.json" r = Some f ∧
         package_json_mentions_mcp json_loads f ≠ Ok true) →
   detect r = Ok []) ∧
  ((∀ d, d ∈ ["requirements.txt"; "pyproject.toml"; "Pipfile"] →
         lookup_file d r ≠ Some ReadFails) →
   (detect r = Ok [unknown_tool r] ∨ detect r = Ok []) ∧
   (detect r = Ok [unknown_tool r] ↔
      (∃ dep_file content,
         dep_file ∈ ["requirements.txt"; "pyproject.toml"; "Pipfile"] ∧
         lookup_file dep_file r = Some (ReadOk content) ∧
         contains "mcp" content || contains "fastmcp" content = true) ∨
      (∃ text data deps dev_deps dep,
         lookup_file "package.json" r = Some (ReadOk text) ∧
         json_loads text = Some (PDict data) ∧
         assoc_get "dependencies" data = PDict deps ∧
         assoc_get "devDependencies" data = PDict dev_deps ∧
         dep ∈ (fst <$> (deps ++ dev_deps)%list) ∧
         contains "modelcontextprotocol" dep || contains "mcp" dep = true))).
Proof.
  intros Hscan. pose proof (detect_tools_after_empty_scan r Hscan) as Hdetect.
  split_and!.
  - reflexivity.
  - intros Hyes. by rewrite Hdetect, Hyes.
  - intros Hno. by rewrite Hdetect, Hno.
  - intros content Hfile Hsub.
    by rewrite Hdetect, (python_manifest_mentions_mcp r content Hfile Hsub).
  - intros Hpy Hts. by rewrite Hdetect, (no_manifest_mentions_mcp r Hpy Hts).
  - intros Hread. destruct (is_mcp_server_answer r Hread) as (answer & Hrun & Hiff).
    rewrite Hdetect, Hrun. destruct answer.
    + split; [by left|]. split; [intros _; by apply Hiff|done].
    + split; [by right|]. split; [done|].
      intros H. apply Hiff in H. done.
Qed.

End FallbackFacts.

Lemma detect_tools_fallback_witness :
  (scan_sources manifest_only_repo []).2 = [] ∧
  detect_tools (λ _, None) manifest_only_repo =
    Ok [ {| name := "unknown"; file_path := "/work/server";
            description := "MCP server with undetected tools";
            line_number := 0 |} ] ∧
  (scan_sources package_only_repo []).2 = [] ∧
  detect_tools decode_package_json package_only_repo =
    Ok [ {| name := "unknown"; file_path := "/work/ts-server";
            description := "MCP server with undetected tools";
            line_number := 0 |} ].
Proof.
  assert (H : (scan_sources manifest_only_repo []).2 = []) by reflexivity.
  assert (H' : (scan_sources package_only_repo []).2 = []) by reflexivity.
  split; [exact H|]. split; [|split; [exact H'|]].
  - destruct (detect_tools_fallback (λ _, None) manifest_only_repo H)
      as (_ & _ & _ & Hreq & _).
    exact (Hreq "fastmcp>=2.0" eq_refl eq_refl).
  - destruct (detect_tools_fallback decode_package_json package_only_repo H')
      as (_ & _ & _ & _ & _ & Hmanifests).
    destruct Hmanifests as [_ Hiff].
    + intros d Hd Hfails.
      repeat (apply elem_of_cons in Hd as [->|Hd]; [discriminate Hfails|]).
      by apply elem_of_nil in Hd.
    + apply Hiff. right.
      exists package_json_text,
        [("dependencies", PDict [("@modelcontextprotocol/sdk", PStr "^1.0.0")])],
        [("@modelcontextprotocol/sdk", PStr "^1.0.0")], [],
        "@modelcontextprotocol/sdk".
      split; [reflexivity|]. split; [reflexivity|]. split; [reflexivity|].
      split; [reflexivity|]. split; [left|reflexivity].
Defined.

(** C6: in the file of the claim the detector finds one tool: its name is
    the name given in the decorator, foo, not the name of the function,
    its description the first line of the docstring of the function, and
    its line the first.  The same holds for a repository made of this one
    file. *)
Theorem python_explicit_name_and_docstring
    (path root : string) (json_loads : string → option pyval) :
  _detect_python_tools path (ReadOk explicit_name_source) [] =
    (Ok (), [ {| name := "foo"; file_path := path;
                 description := "Does X."; line_number := 1 |} ]) ∧
  detect_tools json_loads
    {| repo_path := root; files := [("server.py", ReadOk explicit_name_source)] |} =
    Ok [ {| name := "foo"; file_path := "server.py";
            description := "Does X."; line_number := 1 |} ].
Proof. split; by vm_compute. Qed.

(** C7: in the file of the claim, whose decorator gives no name, the
    detector finds one tool, named after the function, baz. *)
Theorem python_bare_tool_uses_function_name
    (path root : string) (json_loads : string → option pyval) :
  (∃ description line,
     _detect_python_tools path (ReadOk bare_tool_source) [] =
       (Ok (), [ {| name := "baz"; file_path := path;
                    description := description; line_number := line |} ])) ∧
  (∃ description line,
     detect_tools json_loads
       {| repo_path := root; files := [("server.py", ReadOk bare_tool_source)] |} =
       Ok [ {| name := "baz"; file_path := "server.py";
               description := description; line_number := line |} ]).
Proof. split; exists EmptyString, 1; by vm_compute. Qed.

(** C8: in the file of the claim the detector finds one tool, with the
    description of its decorator.  But the description is looked for in
    the whole file, at the first decorator that has one and is followed
    by text that starts with the name of the tool: in a file with the
    tools getAll and get, in this order, the tool get, whose own decorator
    has no description, is given the description of getAll. *)
Theorem typescript_description_from_first_matching_decorator (path : string) :
  _detect_typescript_tools path (ReadOk decorator_source) [] =
    (Ok (), [ {| name := "t1"; file_path := path;
                 description := "desc"; line_number := 1 |} ]) ∧
  _detect_typescript_tools path (ReadOk two_decorators_source) [] =
    (Ok (), [ {| name := "getAll"; file_path := path;
                 description := "List all items"; line_number := 1 |};
              {| name := "get"; file_path := path;
                 description := "List all items"; line_number := 3 |} ]).
Proof. split; by vm_compute. Qed.

(** C9: a source file that cannot be read adds nothing to [self.tools]
    and raises nothing in the caller; neither of the two per-file
    functions ever raises; if the body of one of them raises, the list is
    as it was before the call; and the loops over the source files go on
    to the end, with the result they have on the repository without the
    unreadable files. *)
Theorem unreadable_files_are_skipped :
  (∀ path f tools, readable f = false →
     _detect_python_tools path f tools = (Ok (), tools) ∧
     _detect_typescript_tools path f tools = (Ok (), tools)) ∧
  (∀ path f tools,
     (_detect_python_tools path f tools).1 = Ok () ∧
     (_detect_typescript_tools path f tools).1 = Ok ()) ∧
  (∀ path f tools e tools',
     (python_tools_body path f tools = (Raise e, tools') → tools' = tools) ∧
     (typescript_tools_body path f tools = (Raise e, tools') → tools' = tools)) ∧
  (∀ r tools,
     (scan_sources r tools).1 = Ok () ∧
     scan_sources r tools = scan_sources (readable_only r) tools) ∧
  (∀ root before path after tools,
     scan_sources {| repo_path := root;
                     files := before ++ (path, ReadFails) :: after |} tools =
     scan_sources {| repo_path := root; files := before ++ after |} tools).
Proof.
  split_and!.
  - intros path f tools Hf. by destruct f.
  - done.
  - intros path f tools e tools'. split.
    + destruct f as [content|]; [|by intros [= _ <-]].
      destruct (python_tools_body_readable path content) as (found & ->). done.
    + destruct f as [content|]; [|by intros [= _ <-]].
      destruct (typescript_tools_body_readable path content) as (found & ->). done.
  - intros r tools. split; [apply scan_sources_ok|apply scan_sources_readable_only].
  - intros root before path after tools.
    rewrite scan_sources_readable_only.
    rewrite (scan_sources_readable_only {| repo_path := root; files := before ++ after |}).
    unfold readable_only. simpl.
    rewrite !filter_app, filter_cons. by rewrite decide_False.
Qed.

(** * Further properties *)

Import Vocabulary.

(** ** Counting by severity *)

Section CountFacts.

Lemma count_step_hashable (counts : gmap string nat) (v : vuln) :
  hashable (severity_of v) = true →
  count_step counts v =
    Ok (match severity_of v with
        | PStr t => match counts !! t with
                    | Some n => <[t := n + 1]> counts
                    | None => counts
                    end
        | _ => counts
        end).
Proof.
  unfold count_step. destruct (severity_of v); try done.
  simpl. by destruct (counts !! s).
Qed.

Lemma count_step_unhashable (counts : gmap string nat) (v : vuln) :
  hashable (severity_of v) = false → count_step counts v = Raise TypeError.
Proof. unfold count_step. by destruct (severity_of v). Qed.

Lemma count_severity_cons (s : string) (v : vuln) (l : list vuln) :
  count_severity s (v :: l) =
    (if has_severity s v then 1 else 0) + count_severity s l.
Proof.
  unfold count_severity. rewrite filter_cons.
  destruct (has_severity s v); by case_decide.
Qed.

(** The loop of [count_by_severity] from any dict of counters. *)
Lemma count_loop_exact (l : list vuln) (counts0 : gmap string nat) :
  Forall (λ v, hashable (severity_of v) = true) l →
  ∃ counts, foldM count_step l counts0 = Ok counts ∧
            ∀ s, counts !! s = (λ n, n + count_severity s l) <$> counts0 !! s.
Proof.
  intros Hh. revert counts0.
  induction Hh as [|v l Hv _ IH]; intros counts0.
  - exists counts0. split; [done|]. intros s.
    destruct (counts0 !! s); simpl; [f_equal; unfold count_severity; simpl; lia|done].
  - rewrite foldM_cons, (count_step_hashable _ _ Hv). simpl.
    destruct (IH (match severity_of v with
                  | PStr t => match counts0 !! t with
                              | Some n => <[t := n + 1]> counts0
                              | None => counts0
                              end
                  | _ => counts0
                  end)) as (counts & Hf & Hc).
    exists counts. split; [done|]. intros s.
    rewrite Hc, count_severity_cons. unfold has_severity.
    destruct (severity_of v) as [| | | |t| |];
      try (destruct (counts0 !! s); simpl; [f_equal; lia|done]).
    destruct (String.eqb_spec t s) as [->|Hne].
    + destruct (counts0 !! s) as [n|] eqn:E.
      * rewrite lookup_insert_eq. simpl. f_equal. lia.
      * by rewrite E.
    + destruct (counts0 !! t) as [n|] eqn:E.
      * rewrite lookup_insert_ne by done.
        destruct (counts0 !! s); simpl; [f_equal; lia|done].
      * destruct (counts0 !! s); simpl; [f_equal; lia|done].
Qed.

Lemma count_loop_raises (l : list vuln) (counts : gmap string nat) :
  Exists (λ v, hashable (severity_of v) = false) l →
  foldM count_step l counts = Raise TypeError.
Proof.
  intros Hex. revert counts.
  induction l as [|v l IH]; intros counts; [by apply Exists_nil in Hex|].
  rewrite foldM_cons. destruct (hashable (severity_of v)) eqn:Hv.
  - rewrite (count_step_hashable _ _ Hv). simpl.
    apply Exists_cons in Hex as [Hex|Hex]; [congruence|]. by apply IH.
  - by rewrite (count_step_unhashable _ _ Hv).
Qed.

Lemma count_severity_pos (s : string) (l : list vuln) :
  0 < count_severity s l ↔ ∃ v, v ∈ l ∧ severity_of v = PStr s.
Proof.
  induction l as [|v l IH].
  - split; [unfold count_severity; simpl; lia|]. by intros (v & Hv%elem_of_nil & _).
  - rewrite count_severity_cons. split.
    + destruct (has_severity s v) eqn:E.
      * intros _. exists v. split; [left|].
        unfold has_severity in E. destruct (severity_of v); try done.
        by apply String.eqb_eq in E as ->.
      * intros H. apply IH in H as (w & Hw & Hs). exists w. split; [by right|done].
    + intros (w & [->|Hw]%elem_of_cons & Hs).
      * unfold has_severity. rewrite Hs, String.eqb_refl. lia.
      * assert (0 < count_severity s l) by (apply IH; eauto). lia.
Qed.

(** No record is counted in two columns. *)
Lemma counted_at_most_once (l : list vuln) :
  (count_severity "CRITICAL" l + count_severity "HIGH" l +
   count_severity "MEDIUM" l + count_severity "LOW" l ≤ length l)%nat.
Proof.
  induction l as [|v l IH]; [done|].
  rewrite !count_severity_cons. simpl. unfold has_severity.
  destruct (severity_of v) as [| | | |t| |]; try lia.
  destruct (String.eqb_spec t "CRITICAL") as [->|?]; simpl; [lia|].
  destruct (String.eqb_spec t "HIGH") as [->|?]; simpl; [lia|].
  destruct (String.eqb_spec t "MEDIUM") as [->|?]; simpl; [lia|].
  destruct (String.eqb_spec t "LOW") as [->|?]; simpl; lia.
Qed.

End CountFacts.

(** X1: on findings whose severities are hashable, [count_by_severity]
    returns a dict with exactly the keys CRITICAL, HIGH, MEDIUM and LOW,
    each with the number of findings of that severity; findings of any
    other severity, or without one, are counted nowhere. *)
Theorem count_by_severity_exact (l : list vuln) :
  Forall (λ v, hashable (severity_of v) = true) l →
  ∃ counts,
    count_by_severity l = Ok counts ∧
    (∀ s, s ∈ counted_severities → counts !! s = Some (count_severity s l)) ∧
    (∀ s, s ∉ counted_severities → counts !! s = None) ∧
    (count_severity "CRITICAL" l + count_severity "HIGH" l +
     count_severity "MEDIUM" l + count_severity "LOW" l ≤ length l)%nat.
Proof.
  intros Hh. destruct (count_loop_exact l initial_counts Hh) as (counts & Hf & Hc).
  exists counts. split_and!; [done| | |apply counted_at_most_once].
  - intros s Hs. rewrite Hc. in_cases Hs; reflexivity.
  - intros s Hs. rewrite Hc.
    assert (initial_counts !! s = None) as ->; [|done].
    apply not_elem_of_list_to_map_1. simpl. exact Hs.
Qed.

Lemma count_by_severity_exact_witness :
  Forall (λ v, hashable (severity_of v) = true) mixed_findings ∧
  ∃ counts, count_by_severity mixed_findings = Ok counts ∧
            counts !! "LOW" = Some 2 ∧ counts !! "HIGH" = Some 1 ∧
            counts !! "UNKNOWN" = None.
Proof.
  assert (H : Forall (λ v : vuln, hashable (severity_of v) = true) mixed_findings).
  { repeat constructor. }
  split; [exact H|].
  destruct (count_by_severity_exact mixed_findings H) as (counts & Hc & Hin & Hout & _).
  exists counts. split_and!; [exact Hc| | |].
  - rewrite (Hin "LOW"); [reflexivity|]. do 3 right. left.
  - rewrite (Hin "HIGH"); [reflexivity|]. right. left.
  - apply Hout. intros Hs. in_cases Hs.
Defined.

(** X2: a severity that is a JSON array or object cannot be looked up in
    a dict: wherever such a finding stands in the list, both
    [get_worst_severity] and [count_by_severity] raise [TypeError]. *)
Theorem unhashable_severity_raises (l : list vuln) :
  Exists (λ v, hashable (severity_of v) = false) l →
  get_worst_severity l = Raise TypeError ∧
  count_by_severity l = Raise TypeError.
Proof.
  intros Hex. split; [|by apply count_loop_raises].
  destruct l as [|v l]; [by apply Exists_nil in Hex|].
  by rewrite get_worst_severity_cons, (worst_loop_raises _ _ Hex).
Qed.

Lemma unhashable_severity_raises_witness :
  Exists (λ v, hashable (severity_of v) = false) unhashable_findings ∧
  get_worst_severity unhashable_findings = Raise TypeError ∧
  count_by_severity unhashable_findings = Raise TypeError.
Proof.
  assert (H : Exists (λ v : vuln, hashable (severity_of v) = false)
                unhashable_findings).
  { right. left. reflexivity. }
  split; [exact H|]. exact (unhashable_severity_raises _ H).
Defined.

(** ** The worst severity against the counts *)

Section WorstFacts.

Lemma get_worst_severity_hashable (l : list vuln) (sev : pyval) :
  get_worst_severity l = Ok sev →
  Forall (λ v, hashable (severity_of v) = true) l.
Proof.
  intros Hok.
  destruct (decide (Forall (λ v : vuln, hashable (severity_of v) = true) l))
    as [Hh|Hh]; [done|].
  exfalso. apply not_Forall_Exists in Hh; [|apply _].
  assert (Hex : Exists (λ v : vuln, hashable (severity_of v) = false) l).
  { eapply Exists_impl; [exact Hh|]. intros v Hv. simpl in Hv.
    by destruct (hashable (severity_of v)). }
  destruct l as [|v l]; [by apply Exists_nil in Hex|].
  rewrite get_worst_severity_cons, (worst_loop_raises _ _ Hex) in Hok. done.
Qed.

(** The value returned is NONE or the severity of a finding. *)
Lemma get_worst_severity_present (l : list vuln) (sev : pyval) :
  get_worst_severity l = Ok sev →
  sev = PStr "NONE" ∨ ∃ w, w ∈ l ∧ severity_of w = sev.
Proof.
  intros Hok. pose proof (get_worst_severity_hashable l sev Hok) as Hh.
  destruct (worst_loop l (PStr "NONE") Hh) as (sev' & Hf & _ & _ & Hor).
  change (rank (PStr "NONE")) with 6%Z in Hf.
  assert (sev = sev') as ->; [|done].
  destruct l as [|v l]; [simpl in Hf, Hok; congruence|].
  rewrite get_worst_severity_cons, Hf in Hok. simpl in Hok. congruence.
Qed.

Lemma rank_counted (s : string) :
  s ∈ counted_severities → (0 ≤ rank (PStr s) ≤ 3)%Z.
Proof. intros Hs. in_cases Hs; vm_compute; split; discriminate. Qed.

Lemma counted_of_rank (sev : pyval) :
  (rank sev ≤ 3)%Z → ∃ s, sev = PStr s ∧ s ∈ counted_severities.
Proof.
  intros Hr. destruct (rank_bounds sev) as [Hb|Hb]; [|lia].
  assert (Hcases : rank sev = 0%Z ∨ rank sev = 1%Z ∨ rank sev = 2%Z ∨ rank sev = 3%Z)
    by lia.
  destruct Hcases as [H|[H|[H|H]]].
  - exists "CRITICAL". split; [|by left].
    symmetry. apply rank_inj; [done|]. by rewrite H.
  - exists "HIGH". split; [|right; by left].
    symmetry. apply rank_inj; [done|]. by rewrite H.
  - exists "MEDIUM". split; [|do 2 right; by left].
    symmetry. apply rank_inj; [done|]. by rewrite H.
  - exists "LOW". split; [|do 3 right; by left].
    symmetry. apply rank_inj; [done|]. by rewrite H.
Qed.

End WorstFacts.

(** X3: the worst severity and the counts of the same findings agree.  A
    severity with a positive count is never worse than the worst
    severity; when the worst severity is one of the four counted ones its
    count is positive; and the four counts are all zero exactly when the
    worst severity is UNKNOWN, WARNING or NONE. *)
Theorem worst_severity_agrees_with_counts
    (l : list vuln) (sev : pyval) (counts : gmap string nat) :
  get_worst_severity l = Ok sev →
  count_by_severity l = Ok counts →
  (∀ s n, s ∈ counted_severities → counts !! s = Some (S n) →
          (rank sev ≤ rank (PStr s))%Z) ∧
  (∀ s, s ∈ counted_severities → sev = PStr s →
        ∃ n, counts !! s = Some (S n)) ∧
  ((∀ s, s ∈ counted_severities → counts !! s = Some 0) ↔ (4 ≤ rank sev)%Z).
Proof.
  intros Hsev Hcounts.
  pose proof (get_worst_severity_hashable l sev Hsev) as Hh.
  destruct (count_loop_exact l initial_counts Hh) as (counts' & Hf & Hc).
  assert (counts' = counts) as -> by (unfold count_by_severity in Hcounts; congruence).
  assert (Hexact : ∀ s, s ∈ counted_severities →
            counts !! s = Some (count_severity s l)).
  { intros s Hs. rewrite Hc. in_cases Hs; reflexivity. }
  destruct (get_worst_severity_ok l sev Hsev) as (Hb & _ & Hmin).
  assert (H1 : ∀ s n, s ∈ counted_severities → counts !! s = Some (S n) →
            (rank sev ≤ rank (PStr s))%Z).
  { intros s n Hs Hn. rewrite (Hexact s Hs) in Hn. injection Hn as Hn.
    assert (Hpos : 0 < count_severity s l) by lia.
    apply count_severity_pos in Hpos as (v & Hv & Hvs).
    specialize (Hmin v Hv). by rewrite Hvs in Hmin. }
  assert (H2 : ∀ s, s ∈ counted_severities → sev = PStr s →
            ∃ n, counts !! s = Some (S n)).
  { intros s Hs ->. rewrite (Hexact s Hs).
    destruct (get_worst_severity_present l _ Hsev) as [Hnone|Hw].
    - exfalso. injection Hnone as ->. in_cases Hs.
    - apply count_severity_pos in Hw.
      destruct (count_severity s l) as [|n]; [lia|by exists n]. }
  split_and!; [done|done|]. split.
  - intros Hzero.
    destruct (Z.lt_ge_cases (rank sev) 4) as [Hlt|Hge]; [|done].
    destruct (counted_of_rank sev) as (s & -> & Hs); [lia|].
    destruct (H2 s Hs eq_refl) as (n & Hn).
    rewrite (Hzero s Hs) in Hn. discriminate Hn.
  - intros Hge s Hs. rewrite (Hexact s Hs).
    destruct (count_severity s l) as [|n] eqn:E; [done|].
    pose proof (H1 s n Hs) as Hle. rewrite (Hexact s Hs), E in Hle.
    specialize (Hle eq_refl). pose proof (rank_counted s Hs). lia.
Qed.

Lemma worst_severity_agrees_with_counts_witness :
  ∃ counts,
    get_worst_severity mixed_findings = Ok (PStr "HIGH") ∧
    count_by_severity mixed_findings = Ok counts ∧
    ∃ n, counts !! "HIGH" = Some (S n).
Proof.
  assert (Hs : get_worst_severity mixed_findings = Ok (PStr "HIGH"))
    by (vm_compute; reflexivity).
  assert (Hc : count_by_severity mixed_findings =
                 Ok (<["HIGH" := 1]> (<["LOW" := 2]> initial_counts)))
    by (vm_compute; reflexivity).
  exists (<["HIGH" := 1]> (<["LOW" := 2]> initial_counts)).
  split_and!; [exact Hs|exact Hc|].
  apply (proj1 (proj2 (worst_severity_agrees_with_counts _ _ _ Hs Hc)) "HIGH");
    [right; left|reflexivity].
Defined.

(** ** The rows of the summary *)

Section RowFacts.
Context {content : Type}.
Variable SCANNER_MAP : list string.
Variable json_load : content → option (gmap string (list vuln)).

Local Abbreviation row_of := (summary_row SCANNER_MAP json_load).

(** Everything a row holds, read off the file it was made from. *)
Lemma summary_row_fields (file_name : string) (c : content) (r : row) :
  row_of file_name c = Ok (Some r) →
  ∃ scanners sev counts org repo,
    (file_name ∉ TEMP_SCANNER_FILE_NAMES SCANNER_MAP) ∧
    split_once "-" (remove_all "-violations" (stem file_name)) = [org; repo] ∧
    json_load c = Some scanners ∧
    get_worst_severity (flatten_scanners scanners) = Ok sev ∧
    count_by_severity (flatten_scanners scanners) = Ok counts ∧
    dict_get SEVERITY_EMOJI sev "⚪" = Ok (status r) ∧
    org_repo r = org +:+ "/" +:+ repo ∧
    filename r = org +:+ "-" +:+ repo +:+ "-violations.json" ∧
    total r = length (flatten_scanners scanners) ∧
    severity_counts r = counts ∧
    fixable r = count_fixable (flatten_scanners scanners) ∧
    Aggregate.scanners r = get_scanners_used scanners.
Proof.
  unfold summary_row. case_bool_decide as Htemp; [done|].
  destruct (split_once _ _) as [|org [|repo [|? ?]]] eqn:Hsplit; try done.
  unfold load. destruct (json_load c) as [scanners|]; [|done]. simpl.
  destruct (get_worst_severity _) as [sev|] eqn:Hsev; [|done]. simpl.
  destruct (get_worst_severity_ok _ _ Hsev) as (_ & Hh & _).
  rewrite (dict_get_rank _ Hh). simpl.
  destruct (dict_get SEVERITY_EMOJI sev _) as [emoji|] eqn:Hemoji; [|done]. simpl.
  destruct (count_by_severity _) as [counts|] eqn:Hcounts; [|done]. simpl.
  intros [= <-]. exists scanners, sev, counts, org, repo. by split_and!.
Qed.

Lemma count_fixable_le (l : list vuln) : (count_fixable l ≤ length l)%nat.
Proof. unfold count_fixable. apply length_filter. Qed.

(** The symbol shown for a recognized severity. *)
Lemma status_of_rank (sev : pyval) :
  (rank sev ≤ 6)%Z →
  dict_get SEVERITY_EMOJI sev "⚪" =
    Ok (if (rank sev <=? 1)%Z then "🔴"
        else if (rank sev <=? 5)%Z then "🟡" else "🟢").
Proof.
  intros Hr. destruct sev as [| | | |s| |]; simpl in Hr; try lia.
  unfold rank in *.
  destruct (SEVERITY_ORDER !! s) as [p|] eqn:E; simpl in Hr; [|lia].
  apply severity_order_inv in E. in_cases E; reflexivity.
Qed.

(** X4: the numbers of a row are those of the findings of its file,
    flattened over the scanners: the total is their number, each of the
    four counts is the number of findings of that severity, the four
    counts together and the fixable count are at most the total, and the
    scanners shown are the keys of the file. *)
Theorem summary_row_numbers (file_name : string) (c : content)
    (scanners : gmap string (list vuln)) (r : row) :
  row_of file_name c = Ok (Some r) →
  json_load c = Some scanners →
  total r = length (flatten_scanners scanners) ∧
  (∀ s, s ∈ counted_severities →
     severity_counts r !! s = Some (count_severity s (flatten_scanners scanners))) ∧
  (count_severity "CRITICAL" (flatten_scanners scanners) +
   count_severity "HIGH" (flatten_scanners scanners) +
   count_severity "MEDIUM" (flatten_scanners scanners) +
   count_severity "LOW" (flatten_scanners scanners) ≤ total r)%nat ∧
  (fixable r ≤ total r)%nat ∧
  Aggregate.scanners r = get_scanners_used scanners.
Proof.
  intros Hrow Hload.
  destruct (summary_row_fields _ _ _ Hrow)
    as (sc & sev & counts & org & repo & _ & _ & Hload' & Hsev & Hcounts & _ &
        _ & _ & Htotal & Hsc & Hfix & Hused).
  assert (sc = scanners) as -> by congruence.
  pose proof (get_worst_severity_hashable _ _ Hsev) as Hh.
  destruct (count_loop_exact _ initial_counts Hh) as (counts' & Hf & Hc).
  assert (counts' = counts) as -> by (unfold count_by_severity in Hcounts; congruence).
  split_and!; [done| | | |done].
  - intros s Hs. rewrite Hsc, Hc. in_cases Hs; reflexivity.
  - rewrite Htotal. apply counted_at_most_once.
  - rewrite Hfix, Htotal. apply count_fixable_le.
Qed.

(** X5: the status of a row is one of the three coloured circles, never
    the white one of the default.  It is the red circle exactly when the
    file has a CRITICAL or HIGH finding, and the green one exactly when
    no finding has one of the six severities before NONE, so for a file
    without findings. *)
Theorem summary_row_status (file_name : string) (c : content)
    (scanners : gmap string (list vuln)) (r : row) :
  row_of file_name c = Ok (Some r) →
  json_load c = Some scanners →
  status r ∈ ["🔴"; "🟡"; "🟢"] ∧
  (status r = "🔴" ↔
     ∃ v, v ∈ flatten_scanners scanners ∧
          (severity_of v = PStr "CRITICAL" ∨ severity_of v = PStr "HIGH")) ∧
  (status r = "🟢" ↔
     ∀ v, v ∈ flatten_scanners scanners → (6 ≤ rank (severity_of v))%Z) ∧
  (flatten_scanners scanners = [] → status r = "🟢").
Proof.
  intros Hrow Hload.
  destruct (summary_row_fields _ _ _ Hrow)
    as (sc & sev & counts & org & repo & _ & _ & Hload' & Hsev & _ & Hstatus & _).
  assert (sc = scanners) as -> by congruence.
  destruct (get_worst_severity_ok _ _ Hsev) as (Hb & _ & Hmin).
  rewrite status_of_rank in Hstatus by lia. injection Hstatus as Hstatus.
  assert (Hred : status r = "🔴" ↔ (rank sev ≤ 1)%Z).
  { rewrite <- Hstatus. destruct (Z.leb_spec (rank sev) 1); [done|].
    split; [|lia]. by destruct (rank sev <=? 5)%Z. }
  assert (Hgreen : status r = "🟢" ↔ (6 ≤ rank sev)%Z).
  { rewrite <- Hstatus. destruct (Z.leb_spec (rank sev) 1); [split; [done|lia]|].
    destruct (Z.leb_spec (rank sev) 5); [split; [done|lia]|]. split; [lia|done]. }
  assert (Hgreen' : status r = "🟢" ↔
            ∀ v, v ∈ flatten_scanners scanners → (6 ≤ rank (severity_of v))%Z).
  { rewrite Hgreen. split.
    - intros Hge v Hv. specialize (Hmin v Hv). lia.
    - intros Hall. destruct (get_worst_severity_present _ _ Hsev) as [->|(w & Hw & <-)].
      + by vm_compute.
      + by apply Hall. }
  split_and!; [| |done|].
  - rewrite <- Hstatus. destruct (rank sev <=? 1)%Z; [left|].
    destruct (rank sev <=? 5)%Z; [right; left|do 2 right; left].
  - rewrite Hred. split.
    + intros Hle. destruct (get_worst_severity_present _ _ Hsev) as [->|(w & Hw & <-)].
      { exfalso. revert Hle. by vm_compute. }
      exists w. split; [done|].
      destruct (rank_bounds (severity_of w)) as [Hbw|Hbw]; [|lia].
      assert (Hcases : rank (severity_of w) = 0%Z ∨ rank (severity_of w) = 1%Z) by lia.
      destruct Hcases as [H|H]; [left|right];
        symmetry; (apply rank_inj; [done|by rewrite H]).
    + intros (v & Hv & Hor). specialize (Hmin v Hv).
      destruct Hor as [Hs|Hs]; rewrite Hs in Hmin.
      * change (rank (PStr "CRITICAL")) with 0%Z in Hmin. lia.
      * change (rank (PStr "HIGH")) with 1%Z in Hmin. lia.
  - intros Hempty. apply Hgreen'. rewrite Hempty. by intros v Hv%elem_of_nil.
Qed.

End RowFacts.

Lemma summary_row_numbers_witness :
  summary_row Examples.scanner_names Some "acme-api-violations.json" api_scanners
    = Ok (Some api_row) ∧
  total api_row = length (flatten_scanners api_scanners) ∧
  (fixable api_row ≤ total api_row)%nat.
Proof.
  assert (H : summary_row Examples.scanner_names Some "acme-api-violations.json"
                api_scanners = Ok (Some api_row)) by (vm_compute; reflexivity).
  split; [exact H|].
  destruct (summary_row_numbers Examples.scanner_names Some _ _ api_scanners _ H eq_refl)
    as (Htotal & _ & _ & Hfix & _).
  by split.
Defined.

Lemma summary_row_status_witness :
  summary_row Examples.scanner_names Some "acme-api-violations.json" api_scanners
    = Ok (Some api_row) ∧
  status api_row ∈ ["🔴"; "🟡"; "🟢"].
Proof.
  assert (H : summary_row Examples.scanner_names Some "acme-api-violations.json"
                api_scanners = Ok (Some api_row)) by (vm_compute; reflexivity).
  split; [exact H|].
  exact (proj1 (summary_row_status Examples.scanner_names Some _ _ api_scanners _
                  H eq_refl)).
Defined.

(** X6: [get_scanners_used] answers None for a file without scanners;
    otherwise it joins with a comma and a space the keys of the file,
    each once, in ascending order of their strings. *)
Theorem get_scanners_used_sorted {V : Type} (scanners : gmap string V) :
  (scanners = ∅ → get_scanners_used scanners = "None") ∧
  (scanners ≠ ∅ →
   ∃ names,
     get_scanners_used scanners = join ", " names ∧
     (∀ k, k ∈ names ↔ is_Some (scanners !! k)) ∧
     NoDup names ∧
     StronglySorted (λ a b, str_leb a b = true) names).
Proof.
  split.
  - intros ->. unfold get_scanners_used. by rewrite map_to_list_empty.
  - intros Hne. exists (sort_by id str_leb (fst <$> map_to_list scanners)).
    pose proof (sort_by_perm id str_leb (fst <$> map_to_list scanners)) as Hperm.
    split_and!.
    + unfold get_scanners_used.
      destruct (sort_by id str_leb (fst <$> map_to_list scanners)) eqn:E; [|done].
      exfalso. apply Permutation_nil_l in Hperm. symmetry in Hperm.
      apply fmap_nil_inv in Hperm. by apply map_to_list_empty_iff in Hperm.
    + intros k. rewrite Hperm, list_elem_of_fmap. split.
      * intros ([k' x] & -> & Hin). apply elem_of_map_to_list in Hin. by exists x.
      * intros [x Hx]. exists (k, x). split; [done|]. by apply elem_of_map_to_list.
    + rewrite Hperm. apply NoDup_fst_map_to_list.
    + apply (sort_by_sorted id str_leb).
      * intros a b. apply str_leb_total.
      * intros a b c. apply str_leb_trans.
Qed.

Lemma get_scanners_used_sorted_witness :
  ({[ "trivy" := 1; "semgrep" := 2 ]} : gmap string nat) ≠ ∅ ∧
  ∃ names,
    get_scanners_used ({[ "trivy" := 1; "semgrep" := 2 ]} : gmap string nat)
      = join ", " names ∧
    NoDup names.
Proof.
  assert (H : ({[ "trivy" := 1; "semgrep" := 2 ]} : gmap string nat) ≠ ∅).
  { intros E. apply (f_equal (λ m : gmap string nat, m !! "trivy")) in E.
    vm_compute in E. discriminate E. }
  split; [exact H|].
  destruct (proj2 (get_scanners_used_sorted _) H) as (names & Hj & _ & Hnd & _).
  exists names. by split.
Defined.

(** ** The files the summary reads *)

Section TableFacts.
Context {content : Type}.
Variable SCANNER_MAP : list string.
Variable json_load : content → option (gmap string (list vuln)).

Lemma foldM_filter {A B} (P : A → Prop) `{∀ x, Decision (P x)}
    (f : B → A → result B) (l : list A) (b : B) :
  (∀ x b', ¬ P x → f b' x = Ok b') →
  foldM f l b = foldM f (filter P l) b.
Proof.
  intros Hskip. revert b. induction l as [|x l IH]; intros b; [done|].
  rewrite filter_cons. destruct (decide (P x)) as [HP|HP].
  - rewrite !foldM_cons. destruct (f b x); simpl; [apply IH|done].
  - rewrite foldM_cons, (Hskip x b HP). simpl. apply IH.
Qed.

(** X7: the summary is made from the files whose name matches
    [*-*-violations.json] and is not the name of a scanner file.  All
    other files of the directory are never opened: whatever they hold,
    they add no row and raise nothing. *)
Theorem summary_reads_only_repo_files (entries : list (string * content)) :
  let repo_files :=
    filter (λ e, glob_match "*-*-violations.json" e.1 = true ∧
                 e.1 ∉ TEMP_SCANNER_FILE_NAMES SCANNER_MAP) entries in
  table_rows SCANNER_MAP json_load entries =
    table_rows SCANNER_MAP json_load repo_files ∧
  generate_summary_table SCANNER_MAP json_load entries =
    generate_summary_table SCANNER_MAP json_load repo_files.
Proof.
  intros repo_files.
  assert (Hrows : table_rows SCANNER_MAP json_load entries =
                  table_rows SCANNER_MAP json_load repo_files).
  { unfold table_rows, collect_rows, repo_files. f_equal.
    rewrite list_filter_filter.
    rewrite (foldM_filter (λ e, e.1 ∉ TEMP_SCANNER_FILE_NAMES SCANNER_MAP)).
    - rewrite list_filter_filter. f_equal. apply list_filter_iff.
      intros e. tauto.
    - intros e rows He. unfold summary_row.
      rewrite bool_decide_true; [|by apply dec_stable].
      simpl. by rewrite app_nil_r. }
  split; [done|]. unfold generate_summary_table. by rewrite Hrows.
Qed.

End TableFacts.

(** ** File names *)

Section NameFacts.

Lemma str_app_nil (t : string) : EmptyString +:+ t = t.
Proof. reflexivity. Qed.

Lemma str_app_cons (c : ascii) (s t : string) :
  String c s +:+ t = String c (s +:+ t).
Proof. reflexivity. Qed.

Lemma str_app_assoc (s t u : string) : (s +:+ t) +:+ u = s +:+ (t +:+ u).
Proof.
  induction s as [|c s IH]; [done|]. by rewrite !str_app_cons, IH.
Qed.

Lemma str_length_app (s t : string) :
  String.length (s +:+ t) = String.length s + String.length t.
Proof.
  induction s as [|c s IH]; [done|]. rewrite str_app_cons. simpl. by rewrite IH.
Qed.

Lemma substring_app_prefix (s t : string) :
  substring 0 (String.length s) (s +:+ t) = s.
Proof.
  induction s as [|c s IH]; [rewrite str_app_nil; by destruct t|].
  rewrite str_app_cons. simpl. by rewrite IH.
Qed.

Lemma rfind_char_app (c : ascii) (s t : string) :
  rfind_char c (s +:+ t) =
    match rfind_char c t with
    | Some i => Some (String.length s + i)
    | None => rfind_char c s
    end.
Proof.
  induction s as [|a s IH].
  - rewrite str_app_nil. by destruct (rfind_char c t).
  - rewrite str_app_cons. simpl. rewrite IH. by destruct (rfind_char c t).
Qed.

(** The stem of a name that ends in [.json]. *)
Lemma stem_json (s : string) : s ≠ EmptyString → stem (s +:+ ".json") = s.
Proof.
  intros Hs. unfold stem. rewrite rfind_char_app.
  change (rfind_char "." ".json") with (Some 0).
  rewrite str_length_app, Nat.add_0_r.
  change (String.length ".json") with 5.
  assert (Hlen : 0 < String.length s) by (destruct s; [done|simpl; lia]).
  assert ((0 <? String.length s)%nat &&
          (String.length s <? String.length s + 5 - 1)%nat = true) as ->.
  { apply andb_true_intro. split; apply Nat.ltb_lt; lia. }
  apply substring_app_prefix.
Qed.

Lemma contains_char_cons (sep c : ascii) (s : string) :
  contains (String sep EmptyString) (String c s) =
    Ascii.eqb c sep || contains (String sep EmptyString) s.
Proof.
  simpl. rewrite (Ascii.eqb_sym sep c). by destruct (Ascii.eqb c sep).
Qed.

(** [split] at the first separator, read both ways. *)
Lemma split_once_inv (sep : ascii) (s a b : string) :
  split_once sep s = [a; b] →
  s = a +:+ String sep b ∧ contains (String sep EmptyString) a = false.
Proof.
  revert a. induction s as [|c s IH]; intros a; simpl; [done|].
  destruct (Ascii.eqb_spec c sep) as [->|Hne].
  - intros [= <- <-]. by split.
  - destruct (split_once sep s) as [|x [|y [|? ?]]] eqn:E; try done.
    intros [= <- <-]. destruct (IH x eq_refl) as (-> & Hx).
    split; [done|]. rewrite contains_char_cons, Hx.
    by destruct (Ascii.eqb_spec c sep).
Qed.

Lemma split_once_app (sep : ascii) (a b : string) :
  contains (String sep EmptyString) a = false →
  split_once sep (a +:+ String sep b) = [a; b].
Proof.
  induction a as [|c a IH]; intros Ha.
  - rewrite str_app_nil. simpl. by rewrite Ascii.eqb_refl.
  - rewrite contains_char_cons in Ha. apply orb_false_elim in Ha as [Hc Ha].
    rewrite str_app_cons. simpl. by rewrite Hc, (IH Ha).
Qed.

Lemma starts_with_cons (a b : ascii) (p s : string) :
  starts_with (String a p) (String b s) = Ascii.eqb a b && starts_with p s.
Proof. reflexivity. Qed.

(** An occurrence of [-violations] in [t] followed by [-violations] that
    starts in [t] lies in [t]: the word does not overlap itself. *)
Lemma violations_no_overlap (t : string) :
  starts_with "-violations" (t +:+ "-violations") = true →
  t = EmptyString ∨ starts_with "-violations" t = true.
Proof.
  intros H. destruct t as [|c1 t]; [by left|right].
  rewrite str_app_cons, starts_with_cons in H. apply andb_prop in H as [H1 H].
  do 10 (destruct t as [|? t];
         [rewrite str_app_nil in H; vm_compute in H; discriminate H|];
         rewrite str_app_cons, starts_with_cons in H;
         let Hc := fresh "Hc" in apply andb_prop in H as [Hc H]).
  rewrite !starts_with_cons, H1.
  repeat match goal with
         | Hc : Ascii.eqb _ _ = true |- _ => rewrite Hc; clear Hc
         end.
  reflexivity.
Qed.

Lemma remove_all_aux_cons (old : string) (c : ascii) (s : string) :
  remove_all_aux old 0 (String c s) =
    if starts_with old (String c s)
    then remove_all_aux old (String.length old - 1) s
    else String c (remove_all_aux old 0 s).
Proof. reflexivity. Qed.

Lemma contains_cons (sub : string) (c : ascii) (s : string) :
  contains sub (String c s) = starts_with sub (String c s) || contains sub s.
Proof. reflexivity. Qed.

(** Removing [-violations] from a name that has it at its end only. *)
Lemma remove_all_suffix (y : string) :
  contains "-violations" y = false →
  remove_all "-violations" (y +:+ "-violations") = y.
Proof.
  unfold remove_all. induction y as [|c y IH]; intros Hy; [reflexivity|].
  rewrite contains_cons in Hy. apply orb_false_elim in Hy as [Hhere Hy].
  rewrite str_app_cons, remove_all_aux_cons, <- str_app_cons.
  destruct (starts_with "-violations" (String c y +:+ "-violations")) eqn:E.
  - apply violations_no_overlap in E as [E|E]; [done|congruence].
  - by rewrite (IH Hy).
Qed.

Lemma glob_star_cons (p : string) (c : ascii) (s : string) :
  glob_match (String "*" p) (String c s) =
    glob_match p (String c s) || glob_match (String "*" p) s.
Proof. reflexivity. Qed.

Lemma glob_star_here (p s : string) :
  glob_match p s = true → glob_match (String "*" p) s = true.
Proof.
  intros H. destruct s as [|c s].
  - simpl. by rewrite H.
  - by rewrite glob_star_cons, H.
Qed.

Lemma glob_star_skip (p s t : string) :
  glob_match (String "*" p) t = true →
  glob_match (String "*" p) (s +:+ t) = true.
Proof.
  intros H. induction s as [|c s IH]; [done|].
  rewrite str_app_cons, glob_star_cons, IH. apply orb_true_r.
Qed.

(** The name of a per-repo file matches the glob of the summary. *)
Lemma per_repo_file_matches (org repo : string) :
  glob_match "*-*-violations.json" (per_repo_file org repo) = true.
Proof.
  unfold per_repo_file. apply glob_star_skip, glob_star_here.
  rewrite str_app_cons, str_app_nil.
  change (glob_match "-*-violations.json" (String "-" (repo +:+ "-violations.json")))
    with (glob_match "*-violations.json" (repo +:+ "-violations.json")).
  by apply glob_star_skip.
Qed.

(** The name of a per-repo file, taken apart as the summary does. *)
Lemma per_repo_file_parts (org repo : string) :
  contains "-" org = false →
  contains "-violations" (org +:+ "-" +:+ repo) = false →
  split_once "-" (remove_all "-violations" (stem (per_repo_file org repo)))
    = [org; repo].
Proof.
  intros Horg Hname. unfold per_repo_file.
  assert (org +:+ "-" +:+ repo +:+ "-violations.json"
          = ((org +:+ "-" +:+ repo) +:+ "-violations") +:+ ".json") as ->.
  { rewrite !str_app_assoc. reflexivity. }
  rewrite stem_json.
  - rewrite (remove_all_suffix _ Hname). by apply split_once_app.
  - intros E. apply (f_equal String.length) in E.
    rewrite str_length_app in E. simpl in E. lia.
Qed.

End NameFacts.

Section SavedFileFacts.
Context {content : Type}.
Variable SCANNER_MAP : list string.
Variable json_load : content → option (gmap string (list vuln)).

Local Abbreviation row_of := (summary_row SCANNER_MAP json_load).

(** A row made in the loop is in the list the loop returns. *)
Lemma collect_rows_loop_complete (l : list (string * content))
    (acc rows : list row) (e : string * content) (r : row) :
  foldM (λ rows e,
           r ← row_of e.1 e.2;
           Ok (rows ++ match r with Some x => [x] | None => [] end)%list)
        l acc = Ok rows →
  (r ∈ acc ∨ (e ∈ l ∧ row_of e.1 e.2 = Ok (Some r))) → r ∈ rows.
Proof.
  revert acc. induction l as [|e' l IH]; intros acc.
  - intros [= <-] [?|[?%elem_of_nil _]]; done.
  - rewrite foldM_cons.
    destruct (row_of e'.1 e'.2) as [o|] eqn:E; simpl; [|done].
    intros Hf Hor. apply (IH _ Hf).
    destruct Hor as [Hacc|[[->|Hin]%elem_of_cons Hrow]].
    + left. apply elem_of_app. by left.
    + left. apply elem_of_app. right. rewrite Hrow in E. injection E as <-.
      by apply list_elem_of_singleton.
    + by right.
Qed.

(** X8: the file [save_aggregated_results] writes for a repository is
    found again by the summary under the name of the repository.  When
    the organization has no hyphen in its name, the text [-violations]
    does not occur in org-repo, and org-repo is not the name of a
    scanner, the file matches the glob of the summary and its row is
    labelled org/repo, links to the file and counts its findings; the row
    is in every table made from a directory that holds the file. *)
Theorem saved_file_has_its_row (org repo : string) (c : content)
    (scanners : gmap string (list vuln)) :
  contains "-" org = false →
  contains "-violations" (org +:+ "-" +:+ repo) = false →
  per_repo_file org repo ∉ TEMP_SCANNER_FILE_NAMES SCANNER_MAP →
  json_load c = Some scanners →
  Forall (λ v, hashable (severity_of v) = true) (flatten_scanners scanners) →
  glob_match "*-*-violations.json" (per_repo_file org repo) = true ∧
  ∃ r,
    row_of (per_repo_file org repo) c = Ok (Some r) ∧
    org_repo r = org +:+ "/" +:+ repo ∧
    filename r = per_repo_file org repo ∧
    total r = length (flatten_scanners scanners) ∧
    ∀ entries rows,
      (per_repo_file org repo, c) ∈ entries →
      table_rows SCANNER_MAP json_load entries = Ok rows →
      r ∈ rows.
Proof.
  intros Horg Hname Hfresh Hload Hh.
  split; [apply per_repo_file_matches|].
  assert (Hrow : ∃ r, row_of (per_repo_file org repo) c = Ok (Some r)).
  { unfold summary_row. rewrite bool_decide_false by done.
    rewrite (per_repo_file_parts org repo Horg Hname).
    unfold load. rewrite Hload. simpl.
    destruct (get_worst_severity_total _ Hh) as (sev & Hsev). rewrite Hsev. simpl.
    destruct (get_worst_severity_ok _ _ Hsev) as (_ & Hsh & _).
    rewrite (dict_get_rank _ Hsh). simpl.
    assert (∃ emoji, dict_get SEVERITY_EMOJI sev "⚪" = Ok emoji) as (emoji & ->).
    { destruct sev; try done; by eexists. }
    simpl. destruct (count_by_severity_total _ Hh) as (counts & ->). simpl.
    by eexists. }
  destruct Hrow as (r & Hrow). exists r.
  destruct (summary_row_fields _ _ _ _ _ Hrow)
    as (sc & sev & counts & org' & repo' & _ & Hparts & Hload' & _ & _ & _ &
        Hlabel & Hfile & Htotal & _).
  rewrite (per_repo_file_parts org repo Horg Hname) in Hparts.
  injection Hparts as <- <-.
  assert (sc = scanners) as -> by congruence.
  split_and!; [done|done|done|done|].
  intros entries rows Hin Hrows. unfold table_rows, collect_rows in Hrows.
  destruct (foldM _ _ _) as [rows0|] eqn:E; simpl in Hrows; [|done].
  injection Hrows as <-. rewrite sort_by_perm.
  apply (collect_rows_loop_complete _ _ _ (per_repo_file org repo, c) r E).
  right. split; [|done].
  apply list_elem_of_filter. split; [apply per_repo_file_matches|done].
Qed.

(** X9: the summary takes the organization of a row to be the part of
    the file name before its first hyphen: the label of a row is
    org/repo with an org that has no hyphen in it, whatever the
    repository the file was written for, and the link of the row is
    rebuilt from the two parts. *)
Theorem summary_row_org_has_no_hyphen (file_name : string) (c : content) (r : row) :
  row_of file_name c = Ok (Some r) →
  ∃ org repo,
    remove_all "-violations" (stem file_name) = org +:+ "-" +:+ repo ∧
    contains "-" org = false ∧
    org_repo r = org +:+ "/" +:+ repo ∧
    filename r = org +:+ "-" +:+ repo +:+ "-violations.json".
Proof.
  intros Hrow.
  destruct (summary_row_fields _ _ _ _ _ Hrow)
    as (sc & sev & counts & org & repo & _ & Hparts & _ & _ & _ & _ &
        Hlabel & Hfile & _).
  exists org, repo. apply split_once_inv in Hparts as (Hname & Horg).
  by split_and!.
Qed.

End SavedFileFacts.

Lemma saved_file_has_its_row_witness :
  contains "-" "acme" = false ∧
  ∃ r, summary_row Examples.scanner_names Some (per_repo_file "acme" "api")
         api_scanners = Ok (Some r) ∧
       org_repo r = "acme" +:+ "/" +:+ "api".
Proof.
  assert (H1 : contains "-" "acme" = false) by reflexivity.
  split; [exact H1|].
  destruct (saved_file_has_its_row Examples.scanner_names Some "acme" "api"
              api_scanners api_scanners H1) as (_ & r & Hrow & Hlabel & _).
  - reflexivity.
  - intros Hin. vm_compute in Hin.
    apply elem_of_cons in Hin as [Hin|Hin]; [discriminate Hin|].
    apply list_elem_of_singleton in Hin. discriminate Hin.
  - reflexivity.
  - vm_compute. repeat constructor.
  - exists r. by split.
Defined.

Lemma summary_row_org_has_no_hyphen_witness :
  summary_row Examples.scanner_names Some "acme-api-violations.json" api_scanners
    = Ok (Some api_row) ∧
  ∃ org repo, contains "-" org = false ∧ org_repo api_row = org +:+ "/" +:+ repo.
Proof.
  assert (H : summary_row Examples.scanner_names Some "acme-api-violations.json"
                api_scanners = Ok (Some api_row)) by (vm_compute; reflexivity).
  split; [exact H|].
  destruct (summary_row_org_has_no_hyphen Examples.scanner_names Some _ _ _ H)
    as (org & repo & _ & Horg & Hlabel & _).
  exists org, repo. by split.
Defined.

(** ** The files [aggregate_results] and [save_aggregated_results] touch *)

Section DirectoryFacts.
Context {V content : Type}.
Variable SCANNER_MAP : list string.
Variable json_load : content → option (gmap string V).
Variable json_dump : gmap string V → content.

Local Abbreviation merge_file := (merge_scanner_file json_load).
Local Abbreviation aggregate := (aggregate_results SCANNER_MAP json_load).
Local Abbreviation save := (save_aggregated_results SCANNER_MAP json_dump).
Local Abbreviation temp_names := (TEMP_SCANNER_FILE_NAMES SCANNER_MAP).

(** X10: [save_aggregated_results] removes every file that bears the
    name of a scanner file, writes the per-repo file (which stays unless
    its name is one of those), and leaves every other file of the
    directory as it was; saving the same results twice is the same as
    saving them once. *)
Theorem save_touches_only_its_files (org repo : string)
    (results : gmap string V) (dir : gmap string content) :
  (∀ k, k ∈ temp_names → save org repo results dir !! k = None) ∧
  (per_repo_file org repo ∉ temp_names →
   save org repo results dir !! per_repo_file org repo = Some (json_dump results)) ∧
  (∀ k, k ∉ temp_names → k ≠ per_repo_file org repo →
        save org repo results dir !! k = dir !! k) ∧
  save org repo results (save org repo results dir) = save org repo results dir.
Proof.
  split_and!.
  - intros k Hk. by rewrite (save_lookup SCANNER_MAP json_dump), decide_True.
  - intros Hfresh.
    by rewrite (save_lookup SCANNER_MAP json_dump), decide_False, lookup_insert_eq.
  - intros k Hk Hne.
    by rewrite (save_lookup SCANNER_MAP json_dump), decide_False, lookup_insert_ne.
  - apply map_eq. intros k. rewrite !(save_lookup SCANNER_MAP json_dump).
    case_decide; [done|].
    destruct (decide (k = per_repo_file org repo)) as [->|Hne].
    + by rewrite !lookup_insert_eq.
    + rewrite !lookup_insert_ne by done.
      by rewrite (save_lookup SCANNER_MAP json_dump), decide_False, lookup_insert_ne.
Qed.

Lemma merge_file_step (dir : gmap string content) (agg : gmap string V)
    (T : string) :
  merge_file dir agg T =
    match dir !! scanner_file T with
    | Some c => match json_load c with
                | Some d => Ok (merge_scanner_data d agg)
                | None => Raise JSONDecodeError
                end
    | None => Ok agg
    end.
Proof.
  unfold merge_scanner_file, load.
  destruct (dir !! scanner_file T) as [c|]; [|done]. by destruct (json_load c).
Qed.

(** The loop over [SCANNER_MAP] leaves alone a key that no file read has. *)
Lemma merge_loop_other_key (dir : gmap string content) (k : string)
    (L : list string) (agg r : gmap string V) :
  (∀ T cT dT, T ∈ L → dir !! scanner_file T = Some cT →
              json_load cT = Some dT → dT !! k = None) →
  foldM (merge_file dir) L agg = Ok r → r !! k = agg !! k.
Proof.
  revert agg. induction L as [|T L IH]; intros agg Hk.
  - by intros [= <-].
  - rewrite foldM_cons, merge_file_step.
    destruct (dir !! scanner_file T) as [cT|] eqn:ET.
    + destruct (json_load cT) as [dT|] eqn:EdT; [|done].
      intros H. simpl in H.
      rewrite (IH _ (λ T' c d HT', Hk T' c d (list_elem_of_further _ _ _ HT')) H).
      apply merge_scanner_data_lookup_other. apply (Hk T cT dT); [left|done..].
    + intros H. simpl in H.
      apply (IH _ (λ T' c d HT', Hk T' c d (list_elem_of_further _ _ _ HT')) H).
Qed.

(** X11: a scanner that was not run again keeps its entry.  For a key
    that no scanner file of the directory has, the mapping returned by
    [aggregate_results] holds what the per-repo file held, and nothing
    when there was no per-repo file. *)
Theorem aggregate_keeps_untouched_entries (org repo : string)
    (dir : gmap string content) (old result : gmap string V) (k : string) :
  match dir !! per_repo_file org repo with
  | Some c0 => json_load c0 = Some old
  | None => old = ∅
  end →
  (∀ T cT dT, T ∈ SCANNER_MAP → dir !! scanner_file T = Some cT →
              json_load cT = Some dT → dT !! k = None) →
  aggregate org repo dir = Ok result →
  result !! k = old !! k.
Proof.
  intros Hold Hk. unfold aggregate_results.
  destruct (dir !! per_repo_file org repo) as [c0|].
  - unfold load. rewrite Hold. simpl. by apply merge_loop_other_key.
  - subst old. simpl. by apply merge_loop_other_key.
Qed.

(** X12: [aggregate_results] reads the per-repo file and the files of
    the known scanners, and nothing else: two directories that agree on
    these files give the same result, be it a mapping or an exception. *)
Theorem aggregate_reads_only_its_files (org repo : string)
    (dir dir' : gmap string content) :
  dir' !! per_repo_file org repo = dir !! per_repo_file org repo →
  (∀ T, T ∈ SCANNER_MAP → dir' !! scanner_file T = dir !! scanner_file T) →
  aggregate org repo dir' = aggregate org repo dir.
Proof.
  intros Hrepo Htemp. unfold aggregate_results. rewrite Hrepo.
  destruct (match dir !! per_repo_file org repo with
            | Some c => load json_load c
            | None => Ok ∅
            end) as [agg|e]; simpl; [|done].
  apply foldM_ext_in. intros T agg' HT.
  unfold merge_scanner_file. by rewrite (Htemp T HT).
Qed.

(** The loop over [SCANNER_MAP] returns when the files it reads hold
    mappings, and what it adds are entries of these files. *)
Lemma merge_loop_from_files (dir : gmap string content) (L : list string)
    (agg : gmap string V) :
  (∀ T c, T ∈ L → dir !! scanner_file T = Some c → is_Some (json_load c)) →
  ∃ r,
    foldM (merge_file dir) L agg = Ok r ∧
    ∀ k v, r !! k = Some v →
      agg !! k = Some v ∨
      ∃ T c d, T ∈ L ∧ dir !! scanner_file T = Some c ∧
               json_load c = Some d ∧ d !! k = Some v.
Proof.
  revert agg. induction L as [|T L IH]; intros agg Hdec.
  - exists agg. split; [done|]. intros k v Hk. by left.
  - assert (HdecL : ∀ T' c, T' ∈ L → dir !! scanner_file T' = Some c →
                            is_Some (json_load c)).
    { intros T' c HT'. apply Hdec. by right. }
    rewrite foldM_cons, merge_file_step.
    destruct (dir !! scanner_file T) as [cT|] eqn:ET.
    + destruct (Hdec T cT) as [dT EdT]; [left|done|].
      rewrite EdT. cbn [mbind result_bind].
      destruct (IH (merge_scanner_data dT agg) HdecL) as (r & Hr & Hfrom).
      exists r. split; [done|]. intros k v Hk.
      destruct (Hfrom k v Hk) as [Hm|(T' & c & d & HT' & Hrest)].
      * rewrite merge_scanner_data_union in Hm.
        apply lookup_union_Some_raw in Hm as [Hm|[_ Hm]].
        -- right. exists T, cT, dT. split; [left|done].
        -- by left.
      * right. exists T', c, d. split; [by right|done].
    + cbn [mbind result_bind].
      destruct (IH agg HdecL) as (r & Hr & Hfrom).
      exists r. split; [done|]. intros k v Hk.
      destruct (Hfrom k v Hk) as [?|(T' & c & d & HT' & Hrest)]; [by left|].
      right. exists T', c, d. split; [by right|done].
Qed.

(** X13: a missing file is no error for [aggregate_results].  When the
    per-repo file, if there is one, and every file of a known scanner in
    the directory hold a mapping from scanner names to findings, it
    returns a mapping, and every entry of the mapping is an entry of one
    of the files read: nothing is made up.  On a directory with none of
    these files the mapping is empty. *)
Theorem aggregate_result_comes_from_files (org repo : string)
    (dir : gmap string content) :
  (∀ c0, dir !! per_repo_file org repo = Some c0 → is_Some (json_load c0)) →
  (∀ T c, T ∈ SCANNER_MAP → dir !! scanner_file T = Some c →
          is_Some (json_load c)) →
  ∃ result,
    aggregate org repo dir = Ok result ∧
    (∀ k v, result !! k = Some v →
       (∃ c0 old, dir !! per_repo_file org repo = Some c0 ∧
                  json_load c0 = Some old ∧ old !! k = Some v) ∨
       (∃ T c d, T ∈ SCANNER_MAP ∧ dir !! scanner_file T = Some c ∧
                 json_load c = Some d ∧ d !! k = Some v)) ∧
    (dir !! per_repo_file org repo = None →
     (∀ T, T ∈ SCANNER_MAP → dir !! scanner_file T = None) →
     result = ∅).
Proof.
  intros Hrepo Hscan. unfold aggregate_results.
  destruct (dir !! per_repo_file org repo) as [c0|] eqn:E0.
  - destruct (Hrepo c0 eq_refl) as [old Eold]. unfold load. rewrite Eold.
    cbn [mbind result_bind].
    destruct (merge_loop_from_files dir SCANNER_MAP old Hscan) as (r & Hr & Hfrom).
    exists r. split; [done|]. split; [|done].
    intros k v Hk. destruct (Hfrom k v Hk) as [Hold|Hnew]; [left|by right].
    by exists c0, old.
  - cbn [mbind result_bind].
    destruct (merge_loop_from_files dir SCANNER_MAP ∅ Hscan) as (r & Hr & Hfrom).
    exists r. split; [done|].
    assert (Hprov : ∀ k v, r !! k = Some v →
              ∃ T c d, T ∈ SCANNER_MAP ∧ dir !! scanner_file T = Some c ∧
                       json_load c = Some d ∧ d !! k = Some v).
    { intros k v Hk. destruct (Hfrom k v Hk) as [Hempty|Hnew]; [|done].
      by rewrite lookup_empty in Hempty. }
    split.
    + intros k v Hk. right. by apply Hprov.
    + intros _ Hnone. apply map_empty. intros k.
      destruct (r !! k) as [v|] eqn:Ek; [|done].
      destruct (Hprov k v Ek) as (T & c & d & HT & Hc & _).
      rewrite (Hnone T HT) in Hc. done.
Qed.

End DirectoryFacts.

Lemma aggregate_keeps_untouched_entries_witness :
  ∃ result,
    aggregate_results Examples.scanner_names Some "acme" "api" rescan_dir = Ok result ∧
    result !! "osv-scanner" = Some [Examples.low_finding; Examples.low_finding].
Proof.
  assert (H : aggregate_results Examples.scanner_names Some "acme" "api" rescan_dir
              = Ok ({[ "trivy" := [Examples.critical_finding];
                       "osv-scanner" := [Examples.low_finding; Examples.low_finding] ]}))
    by (vm_compute; reflexivity).
  eexists. split; [exact H|].
  rewrite (aggregate_keeps_untouched_entries Examples.scanner_names Some
             "acme" "api" rescan_dir
             {[ "trivy" := [Examples.low_finding];
                "osv-scanner" := [Examples.low_finding; Examples.low_finding] ]}
             _ "osv-scanner" eq_refl); [reflexivity| |exact H].
  clear H. intros T cT dT HT. in_cases HT; intros Hfile Hload.
  - vm_compute in Hfile. injection Hfile as <-. injection Hload as <-. reflexivity.
  - vm_compute in Hfile. discriminate Hfile.
Defined.

Lemma aggregate_result_comes_from_files_witness :
  ∃ result,
    aggregate_results Examples.scanner_names Some "acme" "api" rescan_dir = Ok result ∧
    ∀ k v, result !! k = Some v →
      (∃ c0 old, rescan_dir !! per_repo_file "acme" "api" = Some c0 ∧
                 Some c0 = Some old ∧ old !! k = Some v) ∨
      (∃ T c d, T ∈ Examples.scanner_names ∧ rescan_dir !! scanner_file T = Some c ∧
                Some c = Some d ∧ d !! k = Some v).
Proof.
  destruct (aggregate_result_comes_from_files Examples.scanner_names Some
              "acme" "api" rescan_dir) as (result & Hrun & Hfrom & _).
  - intros c0 _. by exists c0.
  - intros T c _ _. by exists c.
  - exists result. split; [exact Hrun|exact Hfrom].
Defined.

Lemma aggregate_reads_only_its_files_witness :
  aggregate_results Examples.scanner_names Some "acme" "api"
    (<["zeta-lib-violations.json" := ∅]> rescan_dir) =
  aggregate_results Examples.scanner_names Some "acme" "api" rescan_dir.
Proof.
  apply (aggregate_reads_only_its_files Examples.scanner_names Some "acme" "api").
  - vm_compute. reflexivity.
  - intros T HT. in_cases HT; vm_compute; reflexivity.
Defined.

(** ** The tools by file *)

(** X14: [get_tools_by_file] keeps every tool, under the path of its
    file and in the order of detection: the list under a path is the list
    of the tools of that path, and a path without tools is no key. *)
Theorem get_tools_by_file_groups (tools : list MCPTool) (path : string) :
  get_tools_by_file tools !! path =
    match filter (λ t, file_path t = path) tools with
    | [] => None
    | group => Some group
    end.
Proof.
  induction tools as [|t tools IH] using rev_ind; [done|].
  unfold get_tools_by_file in *. rewrite foldl_app, filter_app. simpl.
  rewrite filter_cons, filter_nil.
  destruct (decide (file_path t = path)) as [->|Hne].
  - rewrite lookup_insert_eq, IH.
    destruct (filter _ tools) as [|t' group]; [done|]. reflexivity.
  - rewrite lookup_insert_ne by done. by rewrite IH, app_nil_r.
Qed.

(** ** The manifests *)

Section ManifestFacts.
Variable json_loads : string → option pyval.

Local Abbreviation is_mcp_server := (_is_mcp_server json_loads).
Local Abbreviation detect := (detect_tools json_loads).

Lemma starts_with_app_contains (p q s : string) :
  starts_with (p +:+ q) s = true → contains q s = true.
Proof.
  revert s. induction p as [|a p IH]; intros s.
  - rewrite str_app_nil. intros H. destruct s; simpl; by rewrite H.
  - rewrite str_app_cons. destruct s as [|b s]; [done|].
    rewrite starts_with_cons. intros [_ H]%andb_prop.
    rewrite contains_cons, (IH s H). apply orb_true_r.
Qed.

(** A text that contains a word contains the end of the word. *)
Lemma contains_suffix (p q s : string) :
  contains (p +:+ q) s = true → contains q s = true.
Proof.
  induction s as [|c s IH].
  - simpl. rewrite orb_false_r. apply starts_with_app_contains.
  - rewrite contains_cons. intros [H|H]%orb_prop.
    + by apply starts_with_app_contains in H.
    + rewrite contains_cons, (IH H). apply orb_true_r.
Qed.

(** The second test of the Python manifests adds nothing to the first. *)
Lemma mcp_or_fastmcp (content : string) :
  contains "mcp" content || contains "fastmcp" content = contains "mcp" content.
Proof.
  destruct (contains "mcp" content) eqn:E; [done|]. simpl.
  destruct (contains "fastmcp" content) eqn:E'; [|done].
  apply (contains_suffix "fast" "mcp") in E'. congruence.
Qed.

(** The Python manifest at a path mentions MCP. *)
Let mentions (r : repo) (dep_file : string) : bool :=
  match lookup_file dep_file r with
  | Some (ReadOk content) => contains "mcp" content
  | _ => false
  end.

(** The loop of [_is_mcp_server] over the Python manifests. *)
Lemma python_manifest_loop (r : repo) (L : list string) (found : bool) :
  let step (found : bool) dep_file :=
    if found then Ok true
    else match lookup_file dep_file r with
         | Some (ReadOk content) =>
             Ok (contains "mcp" content || contains "fastmcp" content)
         | Some ReadFails => Raise OSError
         | None => Ok false
         end in
  (foldM step L found = Ok (found || existsb (mentions r) L) ∧
   (found = true ∨ ∀ dep_file, dep_file ∈ L → lookup_file dep_file r = Some ReadFails →
      ∃ earlier, earlier ∈ L ∧ mentions r earlier = true))
  ∨
  (foldM step L found = Raise OSError ∧ found = false ∧
   ∃ dep_file, dep_file ∈ L ∧ lookup_file dep_file r = Some ReadFails).
Proof.
  intros step. revert found. induction L as [|dep L IH]; intros found.
  - left. split; [cbn [foldM existsb]; by rewrite orb_false_r|].
    right. by intros dep_file Hin%elem_of_nil.
  - rewrite foldM_cons. cbn [existsb]. destruct found.
    + change (step true dep) with (Ok true). cbn [mbind result_bind].
      destruct (IH true) as [[-> _]|[_ [? _]]]; [|done].
      left. split; [done|by left].
    + destruct (lookup_file dep r) as [[content|]|] eqn:E.
      * assert (step false dep = Ok (contains "mcp" content)) as ->
          by (unfold step; rewrite E; by rewrite mcp_or_fastmcp).
        assert (mentions r dep = contains "mcp" content) as Hdep
          by (unfold mentions; by rewrite E).
        rewrite Hdep. cbn [mbind result_bind orb].
        destruct (IH (contains "mcp" content)) as [[-> Hor]|[-> [Hc [d [Hd Hf]]]]].
        -- left. split; [done|]. right. intros dep_file [->|Hin]%elem_of_cons Hfail.
           { congruence. }
           destruct Hor as [Hc|Hall].
           { exists dep. split; [left|]. by rewrite Hdep. }
           destruct (Hall dep_file Hin Hfail) as (earlier & He & Hm).
           exists earlier. split; [by right|done].
        -- right. split_and!; [done|done|]. exists d. split; [by right|done].
      * assert (step false dep = Raise OSError) as ->
          by (unfold step; by rewrite E).
        right. split_and!; [done|done|]. exists dep. split; [left|done].
      * assert (step false dep = Ok false) as -> by (unfold step; by rewrite E).
        assert (mentions r dep = false) as -> by (unfold mentions; by rewrite E).
        cbn [mbind result_bind orb].
        destruct (IH false) as [[-> Hor]|[-> [_ [d [Hd Hf]]]]].
        -- left. split; [done|]. right.
           intros dep_file [->|Hin]%elem_of_cons Hfail; [congruence|].
           destruct Hor as [?|Hall]; [done|].
           destruct (Hall dep_file Hin Hfail) as (earlier & He & Hm).
           exists earlier. split; [by right|done].
        -- right. split_and!; [done|done|]. exists d. split; [by right|done].
Qed.

(** X15: [_is_mcp_server] can raise only because a Python manifest
    cannot be read; what goes wrong with package.json is swallowed.  When
    no Python manifest is unreadable it answers, and the answer is yes
    exactly when a Python manifest contains the letters mcp (the test for
    fastmcp adds nothing) or the processing of package.json finds a
    dependency. *)
Theorem is_mcp_server_outcomes (r : repo) :
  (∀ e, is_mcp_server r = Raise e →
     e = OSError ∧
     ∃ dep_file, dep_file ∈ python_manifests ∧
                 lookup_file dep_file r = Some ReadFails) ∧
  ((∀ dep_file, dep_file ∈ python_manifests →
      lookup_file dep_file r ≠ Some ReadFails) →
   ∃ answer,
     is_mcp_server r = Ok answer ∧
     (answer = true ↔
        (∃ dep_file content,
           dep_file ∈ python_manifests ∧
           lookup_file dep_file r = Some (ReadOk content) ∧
           contains "mcp" content = true) ∨
        (∃ f, lookup_file "package.json" r = Some f ∧
              package_json_mentions_mcp json_loads f = Ok true))).
Proof.
  pose proof (python_manifest_loop r python_manifests false) as Hloop.
  cbv zeta in Hloop. unfold _is_mcp_server.
  destruct Hloop as [[Hf _]|[Hf [_ Hfail]]].
  - unfold python_manifests in *. rewrite Hf. cbn [mbind result_bind orb].
    assert (Hhit : existsb (mentions r) ["requirements.txt"; "pyproject.toml"; "Pipfile"]
                   = true ↔
              ∃ dep_file content,
                dep_file ∈ ["requirements.txt"; "pyproject.toml"; "Pipfile"] ∧
                lookup_file dep_file r = Some (ReadOk content) ∧
                contains "mcp" content = true).
    { rewrite existsb_exists. split.
      - intros (dep & Hin%list_elem_of_In & Hm). unfold mentions in Hm.
        destruct (lookup_file dep r) as [[content|]|] eqn:E; try done.
        by exists dep, content.
      - intros (dep & content & Hin & E & Hc). exists dep.
        split; [by apply list_elem_of_In|]. unfold mentions. by rewrite E. }
    split.
    + intros e He. exfalso. revert He.
      destruct (existsb _ _); [done|].
      destruct (lookup_file "package.json" r) as [f|]; [|done].
      by destruct (package_json_mentions_mcp json_loads f) as [[|]|].
    + intros _.
      destruct (existsb (mentions r) _) eqn:Ehit.
      * exists true. split; [done|]. split; [|done]. intros _. left. by apply Hhit.
      * destruct (lookup_file "package.json" r) as [f|] eqn:Ef.
        -- destruct (package_json_mentions_mcp json_loads f) as [[|]|] eqn:Ep.
           ++ exists true. split; [done|]. split; [|done]. intros _. right. by exists f.
           ++ exists false. split; [done|]. split; [done|].
              intros [H|(f' & [= <-] & H)]; [apply Hhit in H|]; congruence.
           ++ exists false. split; [done|]. split; [done|].
              intros [H|(f' & [= <-] & H)]; [apply Hhit in H|]; congruence.
        -- exists false. split; [done|]. split; [done|].
           intros [H|(f' & H & _)]; [apply Hhit in H|]; congruence.
  - unfold python_manifests in *. rewrite Hf. cbn [mbind result_bind]. split.
    + intros e [= <-]. by split.
    + intros Hnone. destruct Hfail as (dep & Hin & Hfail). by destruct (Hnone dep Hin).
Qed.

Lemma detect_tools_found (r : repo) :
  (scan_sources r []).2 ≠ [] → detect r = Ok (scan_sources r []).2.
Proof.
  intros Hne. pose proof (scan_sources_ok r []) as Hok.
  unfold detect_tools, detect_tools_M, mbind, M_bind.
  destruct (scan_sources r []) as [res tools]. simpl in Hne, Hok. subst res.
  simpl. by destruct tools.
Qed.

(** X16: when the two loops find any tool, [detect_tools] returns what
    they found and does not look at a manifest.  It raises only when
    they found nothing and [_is_mcp_server] raises; what it returns is
    the tools found or, when there are none, at most the placeholder;
    and a detector that is used again starts from an empty list. *)
Theorem detect_tools_outcomes (r : repo) :
  ((scan_sources r []).2 ≠ [] → detect r = Ok (scan_sources r []).2) ∧
  (∀ e, detect r = Raise e →
     (scan_sources r []).2 = [] ∧ is_mcp_server r = Raise e) ∧
  (∀ tools, detect r = Ok tools →
     tools = (scan_sources r []).2 ∨
     ((scan_sources r []).2 = [] ∧ tools = [unknown_tool r])) ∧
  (∀ tools0, (detect_tools_M json_loads r tools0).1 = detect r).
Proof.
  pose proof (detect_tools_found r) as Hfound.
  split_and!; [done| | |done].
  - intros e He. destruct (scan_sources r []).2 as [|t ts] eqn:E.
    + split; [done|]. rewrite (detect_tools_after_empty_scan json_loads r E) in He.
      destruct (_is_mcp_server json_loads r) as [[|]|]; [done|done|].
      by injection He as ->.
    + rewrite Hfound in He by done. done.
  - intros tools Htools. destruct (scan_sources r []).2 as [|t ts] eqn:E.
    + rewrite (detect_tools_after_empty_scan json_loads r E) in Htools.
      destruct (_is_mcp_server json_loads r) as [[|]|]; [|left|done]; [right|];
        by injection Htools as <-.
    + left. rewrite Hfound in Htools by done. by injection Htools.
Qed.

End ManifestFacts.

(** ** The groups of a match *)

Section GroupFacts.
Variable n : nat.

Lemma group_set_push (c : caps) (m : nat) (v : string) :
  v ≠ EmptyString → (m = n ∨ group_set n c) → group_set n ((m, v) :: c).
Proof.
  intros Hv Hor. unfold group_set. simpl.
  destruct (Nat.eqb_spec m n) as [->|Hne]; [by exists v|].
  destruct Hor as [?|?]; done.
Qed.

Lemma substring_nonempty (k : nat) (s : string) :
  (0 < k)%nat → s ≠ EmptyString → substring 0 k s ≠ EmptyString.
Proof. intros Hk Hs. destruct k; [lia|]. by destruct s. Qed.

Lemma run_star (greedy : bool) (r : regex) (s : string) (c : caps)
    (k : string → caps → option (string * caps)) :
  run (Star greedy r) s c k = star_loop greedy r k (String.length s) s c.
Proof. reflexivity. Qed.

(** Where a successful run goes on: on a text no longer than the one it
    started on, shorter if the pattern matches no empty text, with group
    [n] set if it was or if the pattern always goes through it. *)
Lemma run_continues (r : regex) :
  groups_nonnull r = true →
  ∀ s c k x,
    run r s c k = Some x →
    ∃ s' c',
      k s' c' = Some x ∧
      (String.length s' ≤ String.length s)%nat ∧
      (nonnull r = true → (String.length s' < String.length s)%nat) ∧
      (group_set n c → group_set n c') ∧
      (always_sets n r = true → group_set n c').
Proof.
  induction r as [p| |r1 IH1 r2 IH2|r1 IH1 r2 IH2|greedy r IH|m r IH];
    intros Hg s c k x.
  - cbn [run]. destruct s as [|a s]; [done|]. destruct (p a); [|done].
    intros H. exists s, c. cbn [String.length].
    split_and!; [done|lia|intros _; lia|done|done].
  - cbn [run]. intros H. exists s, c. split_and!; [done|lia|done|done|done].
  - cbn [groups_nonnull] in Hg. apply andb_prop in Hg as [Hg1 Hg2]. cbn [run].
    intros H. destruct (IH1 Hg1 _ _ _ _ H) as (s1 & c1 & H1 & Hl1 & Hn1 & Hk1 & Hs1).
    destruct (IH2 Hg2 _ _ _ _ H1) as (s2 & c2 & H2 & Hl2 & Hn2 & Hk2 & Hs2).
    exists s2, c2. cbn [nonnull always_sets]. split_and!; [done|lia| |tauto|].
    + intros [Hn|Hn]%orb_prop; [specialize (Hn1 Hn)|specialize (Hn2 Hn)]; lia.
    + intros [Hs|Hs]%orb_prop; tauto.
  - cbn [groups_nonnull] in Hg. apply andb_prop in Hg as [Hg1 Hg2]. cbn [run].
    cbn [nonnull always_sets].
    destruct (run r1 s c k) as [y|] eqn:E1.
    + intros [= <-].
      destruct (IH1 Hg1 _ _ _ _ E1) as (s1 & c1 & H1 & Hl1 & Hn1 & Hk1 & Hs1).
      exists s1, c1. split_and!; [done|done| |done|].
      * intros [Hn _]%andb_prop. tauto.
      * intros [Hs _]%andb_prop. tauto.
    + intros H.
      destruct (IH2 Hg2 _ _ _ _ H) as (s2 & c2 & H2 & Hl2 & Hn2 & Hk2 & Hs2).
      exists s2, c2. split_and!; [done|done| |done|].
      * intros [_ Hn]%andb_prop. tauto.
      * intros [_ Hs]%andb_prop. tauto.
  - cbn [groups_nonnull] in Hg. rewrite run_star. cbn [nonnull always_sets].
    generalize (String.length s) at 1. intros fuel. revert s c.
    induction fuel as [|fuel IHf]; intros s c.
    + cbn [star_loop]. intros H. exists s, c. split_and!; [done|lia|done|done|done].
    + cbn [star_loop].
      assert (Hmore :
        run r s c (λ s' c', if (String.length s' <? String.length s)%nat
                            then star_loop greedy r k fuel s' c' else None) = Some x →
        ∃ s' c', k s' c' = Some x ∧ (String.length s' ≤ String.length s)%nat ∧
                 (false = true → (String.length s' < String.length s)%nat) ∧
                 (group_set n c → group_set n c') ∧
                 (false = true → group_set n c')).
      { intros H.
        destruct (IH Hg _ _ _ _ H) as (s1 & c1 & H1 & Hl1 & _ & Hk1 & _).
        destruct (Nat.ltb_spec (String.length s1) (String.length s)); [|done].
        destruct (IHf s1 c1 H1) as (s2 & c2 & H2 & Hl2 & _ & Hk2 & _).
        exists s2, c2. split_and!; [done|lia|done|tauto|done]. }
      destruct greedy.
      * destruct (run r s c _) as [y|] eqn:E.
        -- intros [= <-]. by apply Hmore.
        -- intros H. exists s, c. split_and!; [done|lia|done|done|done].
      * destruct (k s c) as [y|] eqn:E.
        -- intros [= <-]. exists s, c. split_and!; [done|lia|done|done|done].
        -- intros H. by apply Hmore.
  - cbn [groups_nonnull] in Hg. apply andb_prop in Hg as [Hnn Hg]. cbn [run].
    cbn [nonnull always_sets].
    intros H. destruct (IH Hg _ _ _ _ H) as (s1 & c1 & H1 & Hl1 & Hn1 & Hk1 & Hs1).
    specialize (Hn1 Hnn).
    assert (Hsub : substring 0 (String.length s - String.length s1) s ≠ EmptyString).
    { apply substring_nonempty; [lia|]. intros ->. cbn [String.length] in Hn1. lia. }
    eexists _, _. split; [exact H1|].
    split_and!; [lia|intros _; lia| |].
    + intros Hc. apply group_set_push; [done|]. right. by apply Hk1.
    + intros [Hm|Hr]%orb_prop; (apply group_set_push; [done|]).
      * left. by apply Nat.eqb_eq.
      * right. by apply Hs1.
Qed.

(** A match of a pattern that always goes through group [n]. *)
Lemma match_here_sets (r : regex) (pos : nat) (s : string) (m : rmatch) :
  groups_nonnull r = true → always_sets n r = true →
  match_here r pos s = Some m → group_set n (m_caps m).
Proof.
  intros Hg Hs. unfold match_here.
  destruct (run r s [] _) as [[s' c']|] eqn:E; [|done].
  intros [= <-]. simpl.
  destruct (run_continues r Hg _ _ _ _ E) as (s1 & c1 & [= <- <-] & _ & _ & _ & Hset).
  by apply Hset.
Qed.

Lemma search_from_sets (r : regex) (pos : nat) (s : string) (m : rmatch) :
  groups_nonnull r = true → always_sets n r = true →
  search_from r pos s = Some m → group_set n (m_caps m).
Proof.
  intros Hg Hs. revert pos. induction s as [|a s IH]; intros pos; simpl.
  - destruct (match_here r pos EmptyString) as [m'|] eqn:E; [|done].
    intros [= <-]. by eapply match_here_sets.
  - destruct (match_here r pos (String a s)) as [m'|] eqn:E.
    + intros [= <-]. by eapply match_here_sets.
    + apply IH.
Qed.

Lemma finditer_sets (r : regex) (text : string) :
  groups_nonnull r = true → always_sets n r = true →
  Forall (λ m, group_set n (m_caps m)) (finditer r text).
Proof.
  intros Hg Hs. unfold finditer.
  assert (Hfrom : ∀ fuel pos s,
            Forall (λ m, group_set n (m_caps m)) (finditer_from fuel r pos s)).
  { induction fuel as [|fuel IH]; intros pos s; cbn [finditer_from]; [constructor|].
    destruct (search_from r pos s) as [m|] eqn:E; [|constructor].
    constructor; [by eapply search_from_sets|].
    cbv zeta. destruct (_ <=? _)%nat; [apply IH|constructor]. }
  apply Hfrom.
Qed.

End GroupFacts.

(** ** The records of the detected tools *)

Section ShapeFacts.

(** A loop whose body only appends records with a property, only appends
    records with the property. *)
Lemma for_each_appends_all {A} (Q : MCPTool → Prop) (l : list A) (f : A → M unit) :
  (∀ x, x ∈ l →
     ∃ found, Forall Q found ∧ ∀ tools, f x tools = (Ok (), tools ++ found)) →
  ∃ found, Forall Q found ∧ ∀ tools, for_each l f tools = (Ok (), tools ++ found).
Proof.
  induction l as [|x l IH]; intros Hf.
  - exists []. split; [constructor|]. intros tools. by rewrite app_nil_r.
  - destruct (Hf x) as (found_x & HQx & Hx); [left|].
    destruct IH as (found_l & HQl & Hl).
    { intros y Hy. apply Hf. by right. }
    exists (found_x ++ found_l). split; [by apply Forall_app|].
    intros tools. by rewrite for_each_cons, Hx, Hl, app_assoc.
Qed.

Lemma count_newlines_substring (n : nat) (s : string) :
  (count_newlines (substring 0 n s) ≤ count_newlines s)%nat.
Proof.
  revert n. induction s as [|c s IH]; intros [|n]; simpl; try lia.
  specialize (IH n). lia.
Qed.

Lemma line_of_bounds (content : string) (m : rmatch) :
  (1 ≤ line_of content m ≤ count_newlines content + 1)%nat.
Proof.
  unfold line_of. pose proof (count_newlines_substring (m_start m) content). lia.
Qed.

Lemma first_line_single (s : string) : count_newlines (first_line s) = 0.
Proof.
  induction s as [|c s IH]; [done|]. simpl.
  destruct (Ascii.eqb c (ascii_of_nat 10)) eqn:E; [done|].
  simpl. by rewrite E, IH.
Qed.

(** Every docstring kept for a description is one line. *)
Lemma python_docstrings_single (content func doc : string) :
  python_docstrings content !! func = Some doc → count_newlines doc = 0.
Proof.
  unfold python_docstrings.
  assert (Hinv : ∀ ms (docs : gmap string string),
            map_Forall (λ _ d, count_newlines d = 0) docs →
            map_Forall (λ _ d, count_newlines d = 0)
              (foldl (λ docstrings m,
                        <[group_str 1 m := first_line (strip (group_str 2 m))]> docstrings)
                     docs ms)).
  { induction ms as [|m ms IH]; intros docs Hdocs; [done|].
    simpl. apply IH. apply map_Forall_insert_2; [apply first_line_single|done]. }
  intros Hdoc.
  by apply (Hinv (finditer docstring_pattern content) ∅ (map_Forall_empty _) func doc).
Qed.

End ShapeFacts.

(** Every pattern of the detector captures the name it reports in a
    group that every match goes through, on a text that is not empty. *)
Lemma python_patterns_set_name :
  Forall (λ r, groups_nonnull r = true ∧ always_sets 2 r = true)
         PYTHON_TOOL_PATTERNS.
Proof. repeat constructor. Qed.

Lemma typescript_patterns_set_name :
  Forall (λ r, groups_nonnull r = true ∧ always_sets 1 r = true)
         TYPESCRIPT_TOOL_PATTERNS.
Proof. repeat constructor. Qed.

Lemma python_records_shape (path content : string) :
  ∃ found,
    (∀ tools, _detect_python_tools path (ReadOk content) tools
                = (Ok (), tools ++ found)) ∧
    Forall (λ t, file_path t = path ∧
                 (1 ≤ line_number t ≤ count_newlines content + 1)%nat ∧
                 count_newlines (description t) = 0 ∧
                 name t ≠ EmptyString) found.
Proof.
  destruct (for_each_appends_all
              (λ t, file_path t = path ∧
                    (1 ≤ line_number t ≤ count_newlines content + 1)%nat ∧
                    count_newlines (description t) = 0 ∧
                    name t ≠ EmptyString)
              PYTHON_TOOL_PATTERNS (λ pattern,
    for_each (finditer pattern content) (λ m,
      let groups := [group 1 (m_caps m); group 2 (m_caps m)] in
      let names :=
        match groups with
        | [Some explicit; Some func] =>
            if negb (String.eqb explicit EmptyString) then (explicit, func)
            else (func, func)
        | _ => (group_str 2 m, group_str 2 m)
        end in
      append_tool {| name := names.1; file_path := path;
                     description := default EmptyString
                                      (python_docstrings content !! names.2);
                     line_number := line_of content m |})))
    as (found & Hall & Hrun).
  { intros pattern Hpattern.
    pose proof python_patterns_set_name as Hset. rewrite Forall_forall in Hset.
    destruct (Hset pattern Hpattern) as [Hg Hs].
    pose proof (finditer_sets 2 pattern content Hg Hs) as Hms.
    rewrite Forall_forall in Hms.
    apply for_each_appends_all. intros m Hm.
    destruct (Hms m Hm) as (func & Hfunc & Hne).
    eexists. split; [|intros tools; cbv zeta; unfold append_tool; reflexivity].
    constructor; [|constructor]. simpl.
    split; [done|]. split; [apply line_of_bounds|]. split.
    - destruct (python_docstrings content !! _) as [doc|] eqn:E; [|done].
      simpl. by eapply python_docstrings_single.
    - unfold group_str. rewrite Hfunc.
      destruct (group 1 (m_caps m)) as [explicit|]; [|done].
      by destruct (String.eqb_spec explicit EmptyString). }
  exists found. split; [|done].
  intros tools.
  assert (Hbody : python_tools_body path (ReadOk content) tools
                  = (Ok (), tools ++ found)) by exact (Hrun tools).
  unfold _detect_python_tools, try_pass. by rewrite Hbody.
Qed.

Lemma typescript_records_shape (path content : string) :
  ∃ found,
    (∀ tools, _detect_typescript_tools path (ReadOk content) tools
                = (Ok (), tools ++ found)) ∧
    Forall (λ t, file_path t = path ∧
                 (1 ≤ line_number t ≤ count_newlines content + 1)%nat ∧
                 name t ≠ EmptyString) found.
Proof.
  destruct (for_each_appends_all
              (λ t, file_path t = path ∧
                    (1 ≤ line_number t ≤ count_newlines content + 1)%nat ∧
                    name t ≠ EmptyString)
              TYPESCRIPT_TOOL_PATTERNS (λ pattern,
    for_each (finditer pattern content) (λ m,
      append_tool {| name := group_str 1 m; file_path := path;
                     description :=
                       match search (description_pattern (group_str 1 m)) content with
                       | Some decorator_match => group_str 1 decorator_match
                       | None => EmptyString
                       end;
                     line_number := line_of content m |})))
    as (found & Hall & Hrun).
  { intros pattern Hpattern.
    pose proof typescript_patterns_set_name as Hset. rewrite Forall_forall in Hset.
    destruct (Hset pattern Hpattern) as [Hg Hs].
    pose proof (finditer_sets 1 pattern content Hg Hs) as Hms.
    rewrite Forall_forall in Hms.
    apply for_each_appends_all. intros m Hm.
    destruct (Hms m Hm) as (tool_name & Hname & Hne).
    eexists. split; [|intros tools; cbv zeta; unfold append_tool; reflexivity].
    constructor; [|constructor]. simpl.
    split; [done|]. split; [apply line_of_bounds|].
    unfold group_str. by rewrite Hname. }
  exists found. split; [|done].
  intros tools.
  assert (Hbody : typescript_tools_body path (ReadOk content) tools
                  = (Ok (), tools ++ found)) by exact (Hrun tools).
  unfold _detect_typescript_tools, try_pass. by rewrite Hbody.
Qed.

(** The records the two loops of [detect_tools] leave in [self.tools]. *)
Lemma scan_sources_records (r : repo) :
  Forall (λ t, name t ≠ EmptyString ∧
               ∃ content,
                 (file_path t, ReadOk content) ∈ files r ∧
                 (1 ≤ line_number t ≤ count_newlines content + 1)%nat)
         (scan_sources r []).2.
Proof.
  set (Q := λ t : MCPTool, name t ≠ EmptyString ∧
              ∃ content,
                (file_path t, ReadOk content) ∈ files r ∧
                (1 ≤ line_number t ≤ count_newlines content + 1)%nat).
  assert (Hstep : ∀ (detect_file : string → file → M unit) (l : list (string * file)),
            (∀ e, e ∈ l → e ∈ files r) →
            (∀ path tools, detect_file path ReadFails tools = (Ok (), tools)) →
            (∀ path content, ∃ found,
               (∀ tools, detect_file path (ReadOk content) tools = (Ok (), tools ++ found)) ∧
               Forall (λ t, file_path t = path ∧
                            (1 ≤ line_number t ≤ count_newlines content + 1)%nat ∧
                            name t ≠ EmptyString) found) →
            ∃ found, Forall Q found ∧
              ∀ tools, for_each l (λ e, detect_file e.1 e.2) tools = (Ok (), tools ++ found)).
  { intros detect_file l Hsub Hfail Hread. apply for_each_appends_all.
    intros [path [content|]] He; simpl.
    - destruct (Hread path content) as (found & Hrun & Hall).
      exists found. split; [|done].
      eapply Forall_impl; [exact Hall|]. intros t (Hp & Hl & Hn).
      split; [done|]. exists content.
      rewrite Hp. split; [by apply Hsub|done].
    - exists []. split; [constructor|]. intros tools. by rewrite Hfail, app_nil_r. }
  destruct (Hstep _detect_python_tools (rglob "*.py" r)) as (found_py & Hpy & Hrun_py).
  { intros e He. by apply list_elem_of_filter in He as [_ ?]. }
  { done. }
  { intros path content. destruct (python_records_shape path content)
      as (found & Hrun & Hall).
    exists found. split; [done|]. eapply Forall_impl; [exact Hall|]. intros ?; cbv beta; tauto. }
  destruct (Hstep _detect_typescript_tools (rglob "*.ts" r ++ rglob "*.tsx" r))
    as (found_ts & Hts & Hrun_ts).
  { intros e [He|He]%elem_of_app; by apply list_elem_of_filter in He as [_ ?]. }
  { done. }
  { apply typescript_records_shape. }
  unfold scan_sources, set_tools, mbind, M_bind.
  rewrite Hrun_py, Hrun_ts. simpl. by apply Forall_app.
Qed.

(** What [detect_tools] returns: what the loops found, or the placeholder
    alone. *)
Lemma detect_tools_cases (json_loads : string → option pyval) (r : repo)
    (tools : list MCPTool) :
  detect_tools json_loads r = Ok tools →
  tools = (scan_sources r []).2 ∨ tools = [unknown_tool r].
Proof.
  intros Hdetect. destruct (scan_sources r []).2 as [|t ts] eqn:E.
  - rewrite (detect_tools_after_empty_scan json_loads r E) in Hdetect.
    destruct (_is_mcp_server json_loads r) as [[|]|]; [right|left|done];
      by injection Hdetect as <-.
  - left. rewrite (detect_tools_found json_loads r) in Hdetect by (by rewrite E).
    rewrite E in Hdetect. by injection Hdetect.
Qed.

(** X17: what the two per-file functions add for a file that can be read
    does not depend on the tools found before, and every record they add
    carries the path of the file and a line number between 1 and the
    number of lines of the file; the description of a Python tool is
    empty or one line of text. *)
Theorem detected_records_shape (path content : string) :
  ∃ found_py found_ts,
    (∀ tools, _detect_python_tools path (ReadOk content) tools
                = (Ok (), tools ++ found_py)) ∧
    (∀ tools, _detect_typescript_tools path (ReadOk content) tools
                = (Ok (), tools ++ found_ts)) ∧
    Forall (λ t, file_path t = path ∧
                 (1 ≤ line_number t ≤ count_newlines content + 1)%nat ∧
                 count_newlines (description t) = 0) found_py ∧
    Forall (λ t, file_path t = path ∧
                 (1 ≤ line_number t ≤ count_newlines content + 1)%nat) found_ts.
Proof.
  destruct (python_records_shape path content) as (found_py & Hrun_py & Hpy).
  destruct (typescript_records_shape path content) as (found_ts & Hrun_ts & Hts).
  exists found_py, found_ts. split_and!; [done|done| |].
  - eapply Forall_impl; [exact Hpy|]. intros ?; cbv beta; tauto.
  - eapply Forall_impl; [exact Hts|]. intros ?; cbv beta; tauto.
Qed.

(** X18: every record [detect_tools] returns is the placeholder or
    points into the repository: its path is the path of a source file
    that can be read, and its line is a line of that file, counted from
    1.  The placeholder, the only record with line 0, is never returned
    together with a detected tool. *)
Theorem detected_tools_point_into_repo
    (json_loads : string → option pyval) (r : repo) (tools : list MCPTool) :
  detect_tools json_loads r = Ok tools →
  Forall (λ t, t = unknown_tool r ∨
               ∃ content, (file_path t, ReadOk content) ∈ files r ∧
                          (1 ≤ line_number t ≤ count_newlines content + 1)%nat) tools ∧
  (∀ t, t ∈ tools → line_number t = 0 → tools = [unknown_tool r]).
Proof.
  intros Hdetect. pose proof (scan_sources_records r) as Hrec.
  destruct (detect_tools_cases json_loads r tools Hdetect) as [->| ->].
  - split.
    + eapply Forall_impl; [exact Hrec|]. intros t [_ Ht]. by right.
    + intros t Ht Hzero. rewrite Forall_forall in Hrec.
      destruct (Hrec t Ht) as (_ & content & _ & Hline). lia.
  - split; [|done]. constructor; [by left|constructor].
Qed.

Lemma detected_tools_point_into_repo_witness :
  detect_tools (λ _, None)
    {| repo_path := "/work/server";
       files := [("server.py", ReadOk Examples.explicit_name_source)] |} =
    Ok [ {| name := "foo"; file_path := "server.py";
            description := "Does X."; line_number := 1 |} ] ∧
  ∀ t, t ∈ [ {| name := "foo"; file_path := "server.py";
                description := "Does X."; line_number := 1 |} ] →
       t = unknown_tool {| repo_path := "/work/server";
                           files := [("server.py", ReadOk Examples.explicit_name_source)] |} ∨
       ∃ content,
         (file_path t, ReadOk content) ∈ [("server.py", ReadOk Examples.explicit_name_source)] ∧
         (1 ≤ line_number t ≤ count_newlines content + 1)%nat.
Proof.
  assert (H : detect_tools (λ _, None)
                {| repo_path := "/work/server";
                   files := [("server.py", ReadOk Examples.explicit_name_source)] |} =
              Ok [ {| name := "foo"; file_path := "server.py";
                      description := "Does X."; line_number := 1 |} ])
    by (vm_compute; reflexivity).
  split; [exact H|].
  apply Forall_forall.
  exact (proj1 (detected_tools_point_into_repo _ _ _ H)).
Defined.

(** X19: no tool is reported without a name.  In each pattern the group
    of the name is met by every match and matches at least one
    character, so every record of the per-file functions, and every
    record [detect_tools] returns, has a name that is not empty. *)
Theorem detected_names_not_empty :
  (∀ path f tools,
     ∃ found_py found_ts,
       _detect_python_tools path f tools = (Ok (), tools ++ found_py) ∧
       _detect_typescript_tools path f tools = (Ok (), tools ++ found_ts) ∧
       Forall (λ t, name t ≠ EmptyString) (found_py ++ found_ts)) ∧
  (∀ json_loads r tools,
     detect_tools json_loads r = Ok tools →
     Forall (λ t, name t ≠ EmptyString) tools).
Proof.
  split.
  - intros path [content|] tools.
    + destruct (python_records_shape path content) as (found_py & Hrun_py & Hpy).
      destruct (typescript_records_shape path content) as (found_ts & Hrun_ts & Hts).
      exists found_py, found_ts. split_and!; [done|done|].
      apply Forall_app. split; (eapply Forall_impl; [eassumption|]); intros ?; cbv beta; tauto.
    + exists [], []. rewrite app_nil_r. by split_and!.
  - intros json_loads r tools Hdetect. pose proof (scan_sources_records r) as Hrec.
    destruct (detect_tools_cases json_loads r tools Hdetect) as [->| ->].
    + eapply Forall_impl; [exact Hrec|]. intros ?; cbv beta; tauto.
    + by repeat constructor.
Qed.
